(** * momail-backend: the triage decision engine, embedded shallowly

    The development follows the Python sources:
    - [app/models/*.py]                the persisted records,
    - [app/services/agent_service.py]  [AgentService]: [get_config],
      [check_for_new_emails], [process_email], [decide_action], [run_loop],
    - [app/api/action.py]              [approve_action],
    - [app/api/bulk.py]                [bulk_archive_sender],
      [execute_pending_actions],
    - [app/api/config.py]              [update_config].

    Text is modelled by [string] with the ASCII case mapping and the ASCII
    white space of Python's [str]; the SQLAlchemy session by a working copy
    of the tables next to the committed one; the mail/LLM client by an
    interface whose answers may depend on the calls made so far, every call
    being appended to a log; Python exceptions by the left summand of a
    state-and-error monad (the state survives a raise, as in Python). *)

From Stdlib Require Import String Ascii List Bool Arith ZArith Lia.
Import ListNotations.
Open Scope string_scope.

(* ------------------------------------------------------------------ *)
(** ** Python [str] operations used by the sources *)

Module PyStr.

(** [c.lower()] on one ASCII character. *)
Definition lower_ascii (c : ascii) : ascii :=
  let n := nat_of_ascii c in
  if ((65 <=? n) && (n <=? 90))%nat then ascii_of_nat (n + 32) else c.

(** [s.lower()] *)
Fixpoint lower (s : string) : string :=
  match s with
  | EmptyString => EmptyString
  | String c s' => String (lower_ascii c) (lower s')
  end.

(** [c.isspace()] on one ASCII character: TAB, LF, VT, FF, CR,
    FS, GS, RS, US and the blank. *)
Definition is_space (c : ascii) : bool :=
  let n := nat_of_ascii c in
  (((9 <=? n) && (n <=? 13)) || ((28 <=? n) && (n <=? 32)))%nat.

(** [s.lstrip()] *)
Fixpoint lstrip (s : string) : string :=
  match s with
  | EmptyString => EmptyString
  | String c s' => if is_space c then lstrip s' else s
  end.

(** [s.rstrip()] *)
Fixpoint rstrip (s : string) : string :=
  match s with
  | EmptyString => EmptyString
  | String c s' =>
      match rstrip s' with
      | EmptyString => if is_space c then EmptyString else String c EmptyString
      | r => String c r
      end
  end.

(** [s.strip()] *)
Definition strip (s : string) : string := rstrip (lstrip s).

(** [s.split(sep)] for a one-character separator: never the empty list. *)
Fixpoint split (sep : ascii) (s : string) : list string :=
  match s with
  | EmptyString => [EmptyString]
  | String c s' =>
      if Ascii.eqb c sep then EmptyString :: split sep s'
      else match split sep s' with
           | h :: t => String c h :: t
           | [] => [String c EmptyString]
           end
  end.

(** [needle in hay] *)
Fixpoint contains (needle hay : string) : bool :=
  prefix needle hay ||
  match hay with
  | EmptyString => false
  | String _ hay' => contains needle hay'
  end.

(** Truth value of a [str]: the empty string is falsy. *)
Definition truthy (s : string) : bool := negb (s =? "").

(** Truth value of an [Optional[str]]: [None] and [""] are falsy. *)
Definition truthy_opt (o : option string) : bool :=
  match o with
  | None => false
  | Some s => truthy s
  end.

(** [a or b] on [Optional[str]] values. *)
Definition or_else (a b : option string) : option string :=
  if truthy_opt a then a else b.

(** [s[:n]] *)
Definition take (n : nat) (s : string) : string := substring 0 n s.

(** [x in l] for a list of strings. *)
Definition mem (x : string) (l : list string) : bool :=
  existsb (String.eqb x) l.

End PyStr.
Import PyStr.

(* ------------------------------------------------------------------ *)
(** ** app/models: the persisted records *)

Module Models.

(** [models/email.py], class [Email] (time stamps left out). *)
Record Email := mkEmail {
  e_id : string;
  thread_id : string;
  from_address : string;
  from_name : string;
  from_raw : string;
  to_address : string;
  subject : string;
  snippet : string;
  body : string;
  classification : string;
  processed : bool
}.

(** [models/action.py], class [Action] (time stamps left out).
    [action_type] and [status] are free strings, as in the table. *)
Record Action := mkAction {
  a_id : nat;
  email_id : string;
  action_type : string;
  status : string;
  suggested_reply : option string;
  actual_reply : option string;
  reason : option string
}.

(** [models/config.py], class [AgentConfig]. *)
Record AgentConfig := mkAgentConfig {
  c_id : nat;
  auto_reply_whitelist : option string;
  auto_reply_blacklist : option string;
  check_interval : Z;
  dry_run_mode : bool;
  enable_auto_reply : bool;
  enable_spam_filter : bool;
  enable_learning : bool
}.

(** [AgentConfig()] once inserted: every column at its default. *)
Definition default_config : AgentConfig :=
  {| c_id := 1;
     auto_reply_whitelist := Some "";
     auto_reply_blacklist := Some "noreply@,no-reply@,donotreply@";
     check_interval := 60%Z;
     dry_run_mode := false;
     enable_auto_reply := true;
     enable_spam_filter := true;
     enable_learning := false |}.

(** The comprehension shared by [get_whitelist] and [get_blacklist]:
    [[e.strip().lower() for e in text.split(",") if e.strip()]] *)
Definition parse_list (column : option string) : list string :=
  if negb (truthy_opt column) then []
  else match column with
       | None => []
       | Some text =>
           map (fun e => lower (strip e))
               (filter (fun e => truthy (strip e)) (split "," text))
       end.

Definition get_whitelist (c : AgentConfig) : list string :=
  parse_list (auto_reply_whitelist c).

Definition get_blacklist (c : AgentConfig) : list string :=
  parse_list (auto_reply_blacklist c).

(** The three tables; [next_action_id] is the serial of [actions.id]. *)
Record DB := mkDB {
  emails : list Email;
  actions : list Action;
  config : option AgentConfig;
  next_action_id : nat
}.

End Models.
Import Models.

(* ------------------------------------------------------------------ *)
(** ** The process state and the effects of a handler *)

Module Runtime.

(** The exceptions the modelled code raises or lets through. *)
Inductive exn :=
| HTTPException (status_code : nat) (detail : string)
| AttributeError (msg : string)
| UnboundLocalError (msg : string)
| TypeError (msg : string)
| IntegrityError (msg : string)
| ClientError (msg : string).

(** The dict built by [parse_message] (and by [process_email] in demo
    mode); the [to] header may be missing. *)
Record ParsedEmail := mkParsed {
  pe_id : string;
  pe_threadId : string;
  pe_from : string;
  pe_name : string;
  pe_from_raw : string;
  pe_to : option string;
  pe_subject : string;
  pe_snippet : string;
  pe_body : string
}.

(** What leaves the process: the calls on the mail/LLM client and the
    awaits on [asyncio.sleep], in program order. *)
Inductive Event :=
| EvListMessages (max_results : nat) (query : string)
| EvGetMessage (message_id : string)
| EvClassifyEmail (pe : ParsedEmail)
| EvGenerateSmartReply (pe : ParsedEmail)
| EvSendEmail (to subj : string) (content : option string) (thread : string)
| EvModify (message_id : string)
| EvArchive (message_id : string)
| EvSleep (seconds : Z).

(** [GmailClient] / [DemoGmailClient] seen from their callers: each
    method answers from the events so far and its arguments, by a value
    or by an exception. [get_message] stands for [get_message] followed
    by [parse_message]; [send_email] answers the [id] of the message
    sent, if any; [modify] is
    [service.users().messages().modify(.. removeLabelIds INBOX ..).execute()]. *)
Record GmailClient := mkClient {
  list_messages : list Event -> nat -> string -> exn + list string;
  get_message : list Event -> string -> exn + ParsedEmail;
  classify_email : list Event -> ParsedEmail -> exn + string;
  generate_smart_reply : list Event -> ParsedEmail -> exn + string;
  send_email :
    list Event -> string -> string -> option string -> string ->
    exn + option string;
  modify : list Event -> string -> exn + unit;
  archive : list Event -> string -> exn + unit
}.

(** The module-level singleton [agent = AgentService()]. *)
Record AgentService := mkAgent {
  seen_emails : list string;
  running : bool
}.

(** [store] is the committed database, [session] the tables as the
    open SQLAlchemy session sees them, [trace] the events so far. *)
Record World := mkWorld {
  store : DB;
  session : DB;
  trace : list Event;
  agent : AgentService
}.

Inductive outcome (A : Type) :=
| Return (a : A)
| Raise (e : exn).
Arguments Return {A} a.
Arguments Raise {A} e.

Definition M (A : Type) : Type := World -> outcome A * World.

Definition ret {A} (a : A) : M A := fun w => (Return a, w).

Definition raise {A} (e : exn) : M A := fun w => (Raise e, w).

Definition bind {A B} (m : M A) (k : A -> M B) : M B :=
  fun w =>
    match m w with
    | (Return a, w') => k a w'
    | (Raise e, w') => (Raise e, w')
    end.

(** [try: m  except Exception as e: h e] *)
Definition try_except {A} (m : M A) (h : exn -> M A) : M A :=
  fun w =>
    match m w with
    | (Return a, w') => (Return a, w')
    | (Raise e, w') => h e w'
    end.

(** [try: m  finally: f] *)
Definition try_finally {A} (m : M A) (f : M unit) : M A :=
  fun w =>
    match m w with
    | (r, w') =>
        match f w' with
        | (Return _, w'') => (r, w'')
        | (Raise e, w'') => (Raise e, w'')
        end
    end.

Declare Scope py_scope.
Delimit Scope py_scope with py.
Notation "x <- m ;; k" := (bind m (fun x => k))
  (at level 61, m at next level, right associativity) : py_scope.
Notation "m ;;; k" := (bind m (fun _ => k))
  (at level 61, right associativity) : py_scope.
Open Scope py_scope.

(** *** The session *)

Definition get_session : M DB := fun w => (Return (session w), w).

(** [SessionLocal()] *)
Definition open_session : M unit :=
  fun w => (Return tt, mkWorld (store w) (store w) (trace w) (agent w)).

(** [db.commit()] *)
Definition commit : M unit :=
  fun w => (Return tt, mkWorld (session w) (session w) (trace w) (agent w)).

(** [db.close()]: what was not committed is dropped. *)
Definition close_session : M unit := open_session.

(** A FastAPI route with [db: Session = Depends(get_db)]. *)
Definition route {A} (handler : M A) : M A :=
  open_session ;;; try_finally handler close_session.

(** *** Queries and updates on the tables *)

Definition query_email (id : string) (db : DB) : option Email :=
  find (fun e => e_id e =? id) (emails db).

Definition query_action (id : nat) (db : DB) : option Action :=
  find (fun a => Nat.eqb (a_id a) id) (actions db).

Definition set_emails (l : list Email) (db : DB) : DB :=
  mkDB l (actions db) (config db) (next_action_id db).

Definition set_actions (l : list Action) (db : DB) : DB :=
  mkDB (emails db) l (config db) (next_action_id db).

Definition set_config (c : AgentConfig) (db : DB) : DB :=
  mkDB (emails db) (actions db) (Some c) (next_action_id db).

(** Writing through an attribute assignment on a loaded row. *)
Definition save_action (a : Action) (db : DB) : DB :=
  set_actions
    (map (fun x => if Nat.eqb (a_id x) (a_id a) then a else x) (actions db))
    db.

Definition save_email (e : Email) (db : DB) : DB :=
  set_emails
    (map (fun x => if e_id x =? e_id e then e else x) (emails db)) db.

(** [db.add(Action(..))]: the row takes the next serial. *)
Definition insert_action
    (eid ty st : string) (sugg : option string) (why : option string)
    (db : DB) : DB :=
  mkDB (emails db)
       (actions db ++ [mkAction (next_action_id db) eid ty st sugg None why])
       (config db) (S (next_action_id db)).

Definition insert_email (e : Email) (db : DB) : DB :=
  set_emails (emails db ++ [e]) db.

Definition update_session (f : DB -> DB) : M unit :=
  fun w => (Return tt, mkWorld (store w) (f (session w)) (trace w) (agent w)).

Definition with_status (s : string) (a : Action) : Action :=
  mkAction (a_id a) (email_id a) (action_type a) s
           (suggested_reply a) (actual_reply a) (reason a).

Definition with_actual_reply (r : option string) (a : Action) : Action :=
  mkAction (a_id a) (email_id a) (action_type a) (status a)
           (suggested_reply a) r (reason a).

Definition with_processed (b : bool) (e : Email) : Email :=
  mkEmail (e_id e) (thread_id e) (from_address e) (from_name e) (from_raw e)
          (to_address e) (subject e) (snippet e) (body e)
          (classification e) b.

Definition with_classification (c : string) (e : Email) : Email :=
  mkEmail (e_id e) (thread_id e) (from_address e) (from_name e) (from_raw e)
          (to_address e) (subject e) (snippet e) (body e) c (processed e).

(** *** Calling out *)

Definition emit (ev : Event) : M unit :=
  fun w => (Return tt, mkWorld (store w) (session w) (trace w ++ [ev]) (agent w)).

(** A client call: answered from the history, then logged. *)
Definition call {A} (ev : Event) (answer : list Event -> exn + A) : M A :=
  fun w =>
    let w' := mkWorld (store w) (session w) (trace w ++ [ev]) (agent w) in
    match answer (trace w) with
    | inl e => (Raise e, w')
    | inr a => (Return a, w')
    end.

End Runtime.
Import Runtime.

(* ------------------------------------------------------------------ *)
(** ** app/services/agent_service.py *)

Module Agent.

(** The dict returned by [decide_action]; [d_message = None] when the
    key [message] is absent. *)
Record ActionDict := mkDict {
  d_type : string;
  d_message : option string;
  d_reason : string
}.

Definition set_agent (a : AgentService) : M unit :=
  fun w => (Return tt, mkWorld (store w) (session w) (trace w) a).

Definition get_agent : M AgentService := fun w => (Return (agent w), w).

(** [await asyncio.sleep(seconds)] *)
Definition sleep (seconds : Z) : M unit := emit (EvSleep seconds).

(** [for x in l: body x] *)
Fixpoint for_each {A} (l : list A) (body : A -> M unit) : M unit :=
  match l with
  | [] => ret tt
  | x :: l' => body x ;;; for_each l' body
  end.

(** [AgentService.get_config] *)
Definition get_config : M AgentConfig :=
  db <- get_session ;;
  match config db with
  | Some c => ret c
  | None =>
      update_session (set_config default_config) ;;;
      commit ;;;
      ret default_config
  end.

Section Service.

(** [settings.demo_mode] and [self.gmail_client]. *)
Variable demo_mode : bool.
Variable gmail_client : GmailClient.

(** [AgentService.check_for_new_emails] *)
Definition check_for_new_emails : M (list string) :=
  if demo_mode then
    ag <- get_agent ;;
    match seen_emails ag with
    | [] =>
        (* the loop body never ran: [e] is unbound at [new.append(e.id)] *)
        raise (UnboundLocalError "e")
    | _ :: _ =>
        (* [e] is an id, a [str]: [e.id] fails in the first round *)
        raise (AttributeError "'str' object has no attribute 'id'")
    end
  else
    unread <- call (EvListMessages 100 "is:unread")
                   (fun h => list_messages gmail_client h 100 "is:unread") ;;
    db <- get_session ;;
    ag <- get_agent ;;
    ret (filter
           (fun email_id =>
              match query_email email_id db with
              | Some _ => false
              | None => negb (mem email_id (seen_emails ag))
              end)
           unread).

(** [AgentService.decide_action] *)
Definition decide_action
    (parsed_email : ParsedEmail) (classification : string) : M ActionDict :=
  let sender := lower (pe_from parsed_email) in
  config <- get_config ;;
  let AUTO_REPLY_WHITELIST := get_whitelist config in
  let AUTO_REPLY_BLACKLIST := get_blacklist config in
  if existsb (fun blocked => contains blocked sender) AUTO_REPLY_BLACKLIST
  then ret (mkDict "notify" None ("Blacklisted sender: " ++ sender))
  else
    let is_whitelisted :=
      existsb (fun allowed => contains allowed sender) AUTO_REPLY_WHITELIST in
    if is_whitelisted then
      if mem classification ["routine"; "spam"; "personal"] then
        reply <- call (EvGenerateSmartReply parsed_email)
                      (fun h => generate_smart_reply gmail_client h parsed_email) ;;
        ret (mkDict "reply" (Some reply) "Whitelisted sender - auto-reply")
      else
        ret (mkDict "notify" None "Urgent email from whitelisted sender")
    else if classification =? "urgent" then
      ret (mkDict "notify" None "Urgent email requiring immediate attention")
    else if classification =? "routine" then
      ret (mkDict "notify" None "Routine email from non-whitelisted sender")
    else if classification =? "spam" then
      ret (mkDict "archive" None "Classified as spam")
    else if classification =? "personal" then
      ret (mkDict "notify" None "Personal email")
    else
      ret (mkDict "notify" None ("Unknown classification: " ++ classification)).

(** [AgentService.process_email] *)
Definition process_email (email_id : string) : M unit :=
  parsed_email <-
    (if demo_mode then
       db <- get_session ;;
       match query_email email_id db with
       | None => raise (AttributeError "'NoneType' object has no attribute 'id'")
       | Some email =>
           ret (mkParsed (e_id email) (thread_id email) (from_address email)
                         (from_name email) (from_raw email)
                         (Some (to_address email)) (subject email)
                         (snippet email) (body email))
       end
     else
       call (EvGetMessage email_id)
            (fun h => get_message gmail_client h email_id)) ;;
  classification <- call (EvClassifyEmail parsed_email)
                         (fun h => classify_email gmail_client h parsed_email) ;;
  (if negb demo_mode then
     db <- get_session ;;
     match query_email (pe_id parsed_email) db with
     | Some _ => raise (IntegrityError "emails.id")
     | None =>
         update_session
           (insert_email
              (mkEmail (pe_id parsed_email) (pe_threadId parsed_email)
                       (pe_from parsed_email) (pe_name parsed_email)
                       (pe_from_raw parsed_email)
                       (match pe_to parsed_email with
                        | Some t => t
                        | None => ""
                        end)
                       (pe_subject parsed_email) (pe_snippet parsed_email)
                       (pe_body parsed_email) classification false)) ;;;
         commit
     end
   else
     db <- get_session ;;
     match query_email (pe_id parsed_email) db with
     | None =>
         raise (AttributeError
                  "'NoneType' object has no attribute 'classification'")
     | Some email =>
         update_session (save_email (with_classification classification email)) ;;;
         commit
     end) ;;;
  action <- decide_action parsed_email classification ;;
  update_session
    (insert_action (pe_id parsed_email) (d_type action) "pending"
                   (d_message action) (Some (d_reason action))) ;;;
  commit ;;;
  ag <- get_agent ;;
  set_agent
    (mkAgent (if mem email_id (seen_emails ag) then seen_emails ag
              else email_id :: seen_emails ag)
             (running ag)).

(** One round of the [while self.running] loop of
    [AgentService.run_loop], the closing [await asyncio.sleep]
    included. *)
Definition iteration (check_interval : Z) : M unit :=
  try_except
    (open_session ;;;
     try_finally
       (new_emails <- check_for_new_emails ;;
        for_each new_emails
          (fun email_id => try_except (process_email email_id)
                                      (fun _ => ret tt)))
       close_session ;;;
     sleep check_interval)
    (fun _ => sleep check_interval).

(** [AgentService.stop] *)
Definition stop : M unit :=
  ag <- get_agent ;;
  set_agent (mkAgent (seen_emails ag) false).

End Service.

End Agent.

(* ------------------------------------------------------------------ *)
(** ** app/api/action.py *)

Module ActionApi.

(** [schemas/action.py], class [ActionApprove]. *)
Record ActionApprove := mkApprove {
  approved : bool;
  edited_reply : option string
}.

Section Routes.

(** The module-level [gmail_client]. *)
Variable gmail_client : GmailClient.

(** Lines 99-130 of [approve_action]: the dispatch on
    [action.action_type] once the action is approved. The copy of the
    sent mail gets no [from_name] and no [from_raw]; a clash of its id with
    a stored message, which the database reports at [db.commit()], is
    raised where the row is added: nothing observable lies in between. *)
Definition dispatch_approved
    (approval : ActionApprove) (action : Action) (email : Email) : M Action :=
  if action_type action =? "reply" then
    sent_email_id <-
      call (EvSendEmail (from_address email) ("Re: " ++ subject email)
                        (suggested_reply action) (thread_id email))
           (fun h => send_email gmail_client h (from_address email)
                       ("Re: " ++ subject email) (suggested_reply action)
                       (thread_id email)) ;;
    let action := with_actual_reply (suggested_reply action) action in
    update_session (save_action action) ;;;
    match sent_email_id with
    | Some new_id =>
        if truthy new_id then
          match or_else (edited_reply approval) (suggested_reply action) with
          | None => raise (TypeError "'NoneType' object is not subscriptable")
          | Some content =>
              db <- get_session ;;
              match query_email new_id db with
              | Some _ => raise (IntegrityError "emails.id")
              | None =>
                  update_session
                    (insert_email
                       (mkEmail new_id (thread_id email) (to_address email)
                                "" "" (from_address email)
                                ("Re: " ++ subject email)
                                (take 200 content) content "sent" true)) ;;;
                  ret action
              end
          end
        else raise (UnboundLocalError "sent_email")
    | None => raise (UnboundLocalError "sent_email")
    end
  else if action_type action =? "archive" then
    call (EvModify (e_id email)) (fun h => modify gmail_client h (e_id email)) ;;;
    ret action
  else ret action.

(** [approve_action], the body of [POST /{action_id}/approve]. The
    [re.sub] on the subject computes [reply_subject], which nothing
    reads, and is left out. *)
Definition approve_action (action_id : nat) (approval : ActionApprove) : M Action :=
  db <- get_session ;;
  match query_action action_id db with
  | None => raise (HTTPException 404 "Action not found")
  | Some action =>
      if mem (status action) ["executed"; "approved"] then
        raise (HTTPException 400
                 ("Action already " ++ status action ++ ". Cannot execute again."))
      else if status action =? "rejected" then
        raise (HTTPException 400 "Action already rejected. Cannot change status.")
      else if negb (status action =? "pending") then
        raise (HTTPException 400
                 ("Action has status '" ++ status action
                  ++ "'. Only pending actions can be approved."))
      else if negb (approved approval) then
        let action := with_status "rejected" action in
        update_session (save_action action) ;;;
        commit ;;;
        ret action
      else
        let action := with_status "approved" action in
        update_session (save_action action) ;;;
        let action :=
          if truthy_opt (edited_reply approval)
          then with_actual_reply (edited_reply approval) action
          else action in
        update_session (save_action action) ;;;
        db <- get_session ;;
        match query_email (email_id action) db with
        | None =>
            raise (AttributeError "'NoneType' object has no attribute 'subject'")
        | Some email =>
            action <- dispatch_approved approval action email ;;
            update_session (save_email (with_processed true email)) ;;;
            let action := with_status "executed" action in
            update_session (save_action action) ;;;
            commit ;;;
            ret action
        end
  end.

End Routes.

End ActionApi.

(* ------------------------------------------------------------------ *)
(** ** app/api/bulk.py *)

Module BulkApi.

(** [schemas/bulk.py] *)
Record ArchiveSenderRequest := mkArchiveSender {
  sender : string;
  execute_in_gmail : bool
}.

Record ExecutePendingRequest := mkExecutePending {
  only_action_type : option string
}.

(** The dicts returned, without their [message] text; [None] for
    [failures] where the source returns no such key. *)
Record ArchiveReport := mkArchiveReport {
  archived : nat;
  archive_failures : option (list (string * exn))
}.

Record ExecuteReport := mkExecuteReport {
  executed : nat;
  execute_failures : option (list (nat * string * exn))
}.

Section Routes.

(** [gmail_client = get_gmail_client()] *)
Variable gmail_client : GmailClient.

(** The [for email in emails] loop of the Gmail branch of
    [bulk_archive_sender]. *)
Fixpoint archive_in_gmail
    (who : string) (l : list Email) (n : nat) (failed : list (string * exn))
    : M (nat * list (string * exn)) :=
  match l with
  | [] => ret (n, failed)
  | email :: l' =>
      r <- try_except
             (call (EvArchive (e_id email))
                   (fun h => archive gmail_client h (e_id email)) ;;;
              update_session (save_email (with_processed true email)) ;;;
              update_session
                (insert_action (e_id email) "archive" "executed" None
                               (Some ("Bulk archived sender " ++ who))) ;;;
              ret (S n, failed))
             (fun e => ret (n, (failed ++ [(e_id email, e)])%list)) ;;
      archive_in_gmail who l' (fst r) (snd r)
  end.

(** [bulk_archive_sender], the body of [POST /emails/bulk-archive-sender]. *)
Definition bulk_archive_sender (request : ArchiveSenderRequest) : M ArchiveReport :=
  db <- get_session ;;
  let found := filter (fun e => from_address e =? sender request) (emails db) in
  match found with
  | [] => ret (mkArchiveReport 0 None)
  | _ :: _ =>
      if execute_in_gmail request then
        r <- archive_in_gmail (sender request) found 0 [] ;;
        commit ;;;
        ret (mkArchiveReport (fst r) (Some (snd r)))
      else
        Agent.for_each found
          (fun email =>
             update_session (save_email (with_processed true email)) ;;;
             update_session
               (insert_action (e_id email) "archive" "pending" None
                  (Some ("Bulk archived sender " ++ sender request)))) ;;;
        commit ;;;
        ret (mkArchiveReport (length found) None)
  end.

(** The [try] block of the loop of [execute_pending_actions]. *)
Definition execute_one (action : Action) : M unit :=
  db <- get_session ;;
  let email := query_email (email_id action) db in
  action <-
    (if action_type action =? "reply" then
       match email with
       | None =>
           raise (AttributeError
                    "'NoneType' object has no attribute 'from_address'")
       | Some e =>
           call (EvSendEmail (from_address e) ("Re: " ++ subject e)
                             (suggested_reply action) (thread_id e))
                (fun h => send_email gmail_client h (from_address e)
                            ("Re: " ++ subject e) (suggested_reply action)
                            (thread_id e)) ;;;
           let action := with_actual_reply (suggested_reply action) action in
           update_session (save_action action) ;;;
           ret action
       end
     else if action_type action =? "archive" then
       match email with
       | None => raise (AttributeError "'NoneType' object has no attribute 'id'")
       | Some e =>
           call (EvModify (e_id e)) (fun h => modify gmail_client h (e_id e)) ;;;
           ret action
       end
     else ret action) ;;
  update_session (save_action (with_status "executed" action)) ;;;
  match email with
  | None => raise (AttributeError "'NoneType' object has no attribute 'processed'")
  | Some e => update_session (save_email (with_processed true e))
  end.

(** The [except] block: [action.status = "failed"] on the loaded row. *)
Definition mark_failed (action_id : nat) (db : DB) : DB :=
  match query_action action_id db with
  | Some a => save_action (with_status "failed" a) db
  | None => db
  end.

(** The [for action in actions] loop of [execute_pending_actions]. *)
Fixpoint execute_all
    (l : list Action) (n : nat) (failed : list (nat * string * exn))
    : M (nat * list (nat * string * exn)) :=
  match l with
  | [] => ret (n, failed)
  | action :: l' =>
      r <- try_except
             (execute_one action ;;; ret (S n, failed))
             (fun e =>
                update_session (mark_failed (a_id action)) ;;;
                ret (n, (failed ++ [(a_id action, email_id action, e)])%list)) ;;
      execute_all l' (fst r) (snd r)
  end.

(** [execute_pending_actions], the body of [POST /actions/execute-pending]. *)
Definition execute_pending_actions (request : ExecutePendingRequest) : M ExecuteReport :=
  db <- get_session ;;
  let approved_ones := filter (fun a => status a =? "approved") (actions db) in
  let selected :=
    if truthy_opt (only_action_type request) then
      filter (fun a => match only_action_type request with
                       | Some t => action_type a =? t
                       | None => true
                       end) approved_ones
    else approved_ones in
  match selected with
  | [] => ret (mkExecuteReport 0 None)
  | _ :: _ =>
      r <- execute_all selected 0 [] ;;
      commit ;;;
      ret (mkExecuteReport (fst r) (Some (snd r)))
  end.

End Routes.

End BulkApi.

(* ------------------------------------------------------------------ *)
(** ** app/api/config.py and app/main.py: the running application *)

Module App.

(** [schemas/config.py], class [AgentConfigUpdate]: [None] for a field
    the request does not set. *)
Record AgentConfigUpdate := mkUpdate {
  u_whitelist : option string;
  u_blacklist : option string;
  u_check_interval : option Z;
  u_dry_run_mode : option bool;
  u_enable_auto_reply : option bool;
  u_enable_spam_filter : option bool;
  u_enable_learning : option bool
}.

Definition or_keep {A} (new : option A) (old : A) : A :=
  match new with
  | Some v => v
  | None => old
  end.

(** [for key, value in update_data.items(): setattr(config, key, value)] *)
Definition apply_update (u : AgentConfigUpdate) (c : AgentConfig) : AgentConfig :=
  mkAgentConfig
    (c_id c)
    (match u_whitelist u with Some s => Some s | None => auto_reply_whitelist c end)
    (match u_blacklist u with Some s => Some s | None => auto_reply_blacklist c end)
    (or_keep (u_check_interval u) (check_interval c))
    (or_keep (u_dry_run_mode u) (dry_run_mode c))
    (or_keep (u_enable_auto_reply u) (enable_auto_reply c))
    (or_keep (u_enable_spam_filter u) (enable_spam_filter c))
    (or_keep (u_enable_learning u) (enable_learning c)).

(** [update_config], the body of [PATCH /api/config/];
    [get_or_create_config] is [AgentService.get_config] word for word. *)
Definition update_config (config_update : AgentConfigUpdate) : M AgentConfig :=
  config <- Agent.get_config ;;
  let config := apply_update config_update config in
  update_session (set_config config) ;;;
  commit ;;;
  ret config.

(** The requests served while the agent sleeps. *)
Inductive Request :=
| PatchConfig (u : AgentConfigUpdate)
| PostApprove (action_id : nat) (approval : ActionApi.ActionApprove)
| PostBulkArchiveSender (r : BulkApi.ArchiveSenderRequest)
| PostExecutePending (r : BulkApi.ExecutePendingRequest)
| PostAgentStop.

Section Application.

Variable demo_mode : bool.
(** The clients of [agent_service.py], [api/action.py] and [api/bulk.py]. *)
Variable agent_client action_client bulk_client : GmailClient.

(** A response is sent whatever the handler did; an exception becomes
    an error response. *)
Definition respond {A} (handler : M A) : M unit :=
  try_except (route handler ;;; ret tt) (fun _ => ret tt).

Definition serve (r : Request) : M unit :=
  match r with
  | PatchConfig u => respond (update_config u)
  | PostApprove id approval =>
      respond (ActionApi.approve_action action_client id approval)
  | PostBulkArchiveSender q =>
      respond (BulkApi.bulk_archive_sender bulk_client q)
  | PostExecutePending q =>
      respond (BulkApi.execute_pending_actions bulk_client q)
  | PostAgentStop =>
      ag <- Agent.get_agent ;;
      if running ag then Agent.stop else ret tt
  end.

(** [while self.running: ...] of [AgentService.run_loop]. The loop has
    no exit of its own: it is followed for as many rounds as [schedule]
    has entries, the [n]-th entry being the requests that arrive while
    the [n]-th round sleeps. *)
Fixpoint rounds (check_interval : Z) (schedule : list (list Request)) : M unit :=
  match schedule with
  | [] => ret tt
  | arriving :: later =>
      ag <- Agent.get_agent ;;
      if running ag then
        Agent.iteration demo_mode agent_client check_interval ;;;
        Agent.for_each arriving serve ;;;
        rounds check_interval later
      else ret tt
  end.

(** [AgentService.run_loop(check_interval)] *)
Definition run_loop (check_interval : Z) (schedule : list (list Request)) : M unit :=
  ag <- Agent.get_agent ;;
  Agent.set_agent (mkAgent (seen_emails ag) true) ;;;
  rounds check_interval schedule.

(** [lifespan]: [asyncio.create_task(agent_client.run_loop())], the
    interval left at its default. *)
Definition lifespan (schedule : list (list Request)) : M unit :=
  run_loop 60%Z schedule.

End Application.

End App.

(* ------------------------------------------------------------------ *)
(** ** Vocabulary of the statements *)

Module Spec.

(** The single configuration row as [get_config] hands it out: the
    stored one, or the defaults it inserts when the table is empty. *)
Definition current_config (db : DB) : AgentConfig :=
  match config db with
  | Some c => c
  | None => default_config
  end.

(** The world after [get_config]. *)
Definition ensure_config (w : World) : World :=
  match config (session w) with
  | Some _ => w
  | None =>
      let db := set_config default_config (session w) in
      mkWorld db db (trace w) (agent w)
  end.

Arguments ensure_config : simpl never.

(** The lower-cased sender contains some entry of the list. *)
Definition listed (entries : list string) (pe : ParsedEmail) : Prop :=
  exists entry, In entry entries /\ contains entry (lower (pe_from pe)) = true.

Definition blacklisted (w : World) (pe : ParsedEmail) : Prop :=
  listed (get_blacklist (current_config (session w))) pe.

Definition whitelisted (w : World) (pe : ParsedEmail) : Prop :=
  listed (get_whitelist (current_config (session w))) pe.

(** The action kinds the policy may propose. *)
Definition proposable (kind : string) : Prop :=
  kind = "notify" \/ kind = "reply" \/ kind = "archive".

(** The labels with a branch of their own. *)
Definition known_label (c : string) : Prop :=
  c = "urgent" \/ c = "routine" \/ c = "spam" \/ c = "personal".

(** [pending] and [approved] are the states an action can still leave. *)
Definition non_terminal (a : Action) : bool :=
  (status a =? "pending") || (status a =? "approved").

(** Number of non-terminal actions recorded for a message. *)
Definition outstanding (message_id : string) (db : DB) : nat :=
  length (filter (fun a => (email_id a =? message_id) && non_terminal a)
                 (actions db)).

(** Number of messages of a sender stored under an id. *)
Definition copies (who message_id : string) (db : DB) : nat :=
  length (filter (fun e => (from_address e =? who) && (e_id e =? message_id))
                 (emails db)).

(** The bodies handed to [send_email], in order. *)
Fixpoint sent_bodies (t : list Event) : list (option string) :=
  match t with
  | [] => []
  | EvSendEmail _ _ content _ :: t' => content :: sent_bodies t'
  | _ :: t' => sent_bodies t'
  end.

(** The arguments of the awaited sleeps, in order. *)
Fixpoint sleeps (t : list Event) : list Z :=
  match t with
  | [] => []
  | EvSleep s :: t' => s :: sleeps t'
  | _ :: t' => sleeps t'
  end.

(** A computation is calm when it awaits no sleep and leaves the agent's
    [running] flag as it found it. *)
Definition calm {A} (m : M A) : Prop :=
  forall w,
    sleeps (trace (snd (m w))) = sleeps (trace w)
    /\ running (agent (snd (m w))) = running (agent w).

Definition is_stop (r : App.Request) : bool :=
  match r with
  | App.PostAgentStop => true
  | _ => false
  end.

(** Rounds of the loop that a schedule lets happen, the agent running:
    the round during whose sleep a stop request arrives is the last. *)
Fixpoint rounds_run (schedule : list (list App.Request)) : nat :=
  match schedule with
  | [] => 0
  | arriving :: later =>
      S (if existsb is_stop arriving then 0 else rounds_run later)
  end.

(** The poll interval the stored configuration asks for. *)
Definition configured_interval (db : DB) : Z :=
  check_interval (current_config db).

End Spec.
Import Spec.

(* ------------------------------------------------------------------ *)
(** ** Sample clients and data for the concrete runs *)

Module Samples.

(** A client in the manner of [DemoGmailClient]: nothing fails, the
    Responder answers [text], a sent message gets the id [sent-1]. *)
Definition answering (text : string) : GmailClient :=
  mkClient (fun _ _ _ => inr [])
           (fun _ id => inr (mkParsed id "" "" "" "" None "" "" ""))
           (fun _ _ => inr "routine")
           (fun _ _ => inr text)
           (fun _ _ _ _ _ => inr (Some "sent-1"))
           (fun _ _ => inr tt)
           (fun _ _ => inr tt).

(** The same client with the language model unreachable. *)
Definition unreachable_model : GmailClient :=
  mkClient (fun _ _ _ => inr [])
           (fun _ id => inr (mkParsed id "" "" "" "" None "" "" ""))
           (fun _ _ => inl (ClientError "model unreachable"))
           (fun _ _ => inl (ClientError "model unreachable"))
           (fun _ _ _ _ _ => inr (Some "sent-1"))
           (fun _ _ => inr tt)
           (fun _ _ => inr tt).

Definition message_from (who : string) : ParsedEmail :=
  mkParsed "m1" "t1" who "" who (Some "me@momail.com") "Hello" "Hi" "Hi there".

Definition config_with (white black : string) (dry : bool) : AgentConfig :=
  mkAgentConfig 1 (Some white) (Some black) 60%Z dry true true false.

Definition idle_agent : AgentService := mkAgent [] false.

Definition world_of (db : DB) : World := mkWorld db db [] idle_agent.

Definition stored_email (who : string) (done : bool) : Email :=
  mkEmail "m1" "t1" who "" who "me@momail.com" "Hello" "Hi" "Hi there"
          "routine" done.

Definition stored_action (kind st : string) (sugg : option string) : Action :=
  mkAction 1 "m1" kind st sugg None (Some "why").

End Samples.

(* ------------------------------------------------------------------ *)
(** ** app/api/action.py: the other routes *)

Module ActionRoutes.

(** [schemas/action.py], class [ActionCreate]. *)
Record ActionCreate := mkCreate {
  new_email_id : string;
  new_action_type : string;
  new_reason : option string;
  new_suggested_reply : option string
}.

(** The dict returned by [get_stats]. *)
Record ActionStats := mkStats {
  total : nat;
  pending : nat;
  approved : nat;
  executed : nat;
  rejected : nat
}.

(** [db.query(Action).filter(Action.status == st).count()] *)
Definition count_status (st : string) (db : DB) : nat :=
  length (filter (fun a => status a =? st) (actions db)).

(** [db.delete(action)]: the row leaves the table. *)
Definition remove_action (id : nat) (db : DB) : DB :=
  set_actions (filter (fun a => negb (Nat.eqb (a_id a) id)) (actions db)) db.

Section Routes.

(** Whether the database enforces [ForeignKey("emails.id")] on
    [actions.email_id]; when it does, the violation is reported by
    [db.commit()]. *)
Variable enforce_foreign_keys : bool.

(** [get_action], the body of [GET /{action_id}]. *)
Definition get_action (action_id : nat) : M Action :=
  db <- get_session ;;
  match query_action action_id db with
  | None => raise (HTTPException 404 "Action not found")
  | Some action => ret action
  end.

(** [create_action], the body of [POST /]: the status takes the column
    default, [pending]. *)
Definition create_action (action : ActionCreate) : M Action :=
  db <- get_session ;;
  let db_action :=
    mkAction (next_action_id db) (new_email_id action) (new_action_type action)
             "pending" (new_suggested_reply action) None (new_reason action) in
  update_session
    (insert_action (new_email_id action) (new_action_type action) "pending"
                   (new_suggested_reply action) (new_reason action)) ;;;
  match query_email (new_email_id action) db with
  | None =>
      if enforce_foreign_keys then raise (IntegrityError "actions.email_id")
      else commit ;;; ret db_action
  | Some _ => commit ;;; ret db_action
  end.

(** [delete_action], the body of [DELETE /{action_id}]. *)
Definition delete_action (action_id : nat) : M string :=
  db <- get_session ;;
  match query_action action_id db with
  | None => raise (HTTPException 404 "Action not found")
  | Some action =>
      update_session (remove_action (a_id action)) ;;;
      commit ;;;
      ret "Action deleted"
  end.

(** [get_stats], the body of [GET /stats/summary]. *)
Definition get_stats : M ActionStats :=
  db <- get_session ;;
  ret (mkStats (length (actions db))
               (count_status "pending" db) (count_status "approved" db)
               (count_status "executed" db) (count_status "rejected" db)).

End Routes.

End ActionRoutes.

(* ------------------------------------------------------------------ *)
(** ** app/api/config.py: the list routes *)

Module ConfigApi.

(** [sep.join(l)] *)
Fixpoint join (sep : string) (l : list string) : string :=
  match l with
  | [] => ""
  | x :: l' =>
      match l' with
      | [] => x
      | _ :: _ => x ++ sep ++ join sep l'
      end
  end.

(** [l.remove(x)] for an [x] that is in [l]: the first occurrence goes. *)
Fixpoint remove_first (x : string) (l : list string) : list string :=
  match l with
  | [] => []
  | y :: l' => if y =? x then l' else y :: remove_first x l'
  end.

(** The loop of [add_to_whitelist] and [add_to_blacklist]:
    [[
    for email in data.emails:
        email_clean = email.strip().lower()
        if email_clean not in whitelist:
            whitelist.append(email_clean)
            added.append(email_clean)
    ]] *)
Fixpoint add_all (data current added : list string) : list string * list string :=
  match data with
  | [] => (current, added)
  | email :: rest =>
      let email_clean := lower (strip email) in
      if mem email_clean current then add_all rest current added
      else add_all rest (current ++ [email_clean]) (added ++ [email_clean])
  end.

Definition with_whitelist (column : option string) (c : AgentConfig) : AgentConfig :=
  mkAgentConfig (c_id c) column (auto_reply_blacklist c) (check_interval c)
                (dry_run_mode c) (enable_auto_reply c) (enable_spam_filter c)
                (enable_learning c).

Definition with_blacklist (column : option string) (c : AgentConfig) : AgentConfig :=
  mkAgentConfig (c_id c) (auto_reply_whitelist c) column (check_interval c)
                (dry_run_mode c) (enable_auto_reply c) (enable_spam_filter c)
                (enable_learning c).

(** What the add routes answer, without the [message] text. *)
Record AddReport := mkAddReport {
  added : list string;
  listing : list string
}.

(** [add_to_whitelist], the body of [POST /whitelist/add]. *)
Definition add_to_whitelist (data : list string) : M AddReport :=
  config <- Agent.get_config ;;
  let whitelist := get_whitelist config in
  let r := add_all data whitelist [] in
  update_session (set_config (with_whitelist (Some (join "," (fst r))) config)) ;;;
  commit ;;;
  ret (mkAddReport (snd r) (fst r)).

(** [add_to_blacklist], the body of [POST /blacklist/add]. *)
Definition add_to_blacklist (data : list string) : M AddReport :=
  config <- Agent.get_config ;;
  let blacklist := get_blacklist config in
  let r := add_all data blacklist [] in
  update_session (set_config (with_blacklist (Some (join "," (fst r))) config)) ;;;
  commit ;;;
  ret (mkAddReport (snd r) (fst r)).

(** [remove_from_whitelist], the body of [DELETE /whitelist/{email}]. *)
Definition remove_from_whitelist (email : string) : M (list string) :=
  config <- Agent.get_config ;;
  let whitelist := get_whitelist config in
  let email := lower (strip email) in
  if mem email whitelist then
    let whitelist := remove_first email whitelist in
    update_session (set_config (with_whitelist (Some (join "," whitelist)) config)) ;;;
    commit ;;;
    ret whitelist
  else ret whitelist.

(** [remove_from_blacklist], the body of [DELETE /blacklist/{email}]. *)
Definition remove_from_blacklist (email : string) : M (list string) :=
  config <- Agent.get_config ;;
  let blacklist := get_blacklist config in
  let email := lower (strip email) in
  if mem email blacklist then
    let blacklist := remove_first email blacklist in
    update_session (set_config (with_blacklist (Some (join "," blacklist)) config)) ;;;
    commit ;;;
    ret blacklist
  else ret blacklist.

End ConfigApi.

(* ------------------------------------------------------------------ *)
(** ** app/services/gmail_client.py: reading the body of a message *)

Module GmailMessages.

(** One entry of [payload['parts']]: [part.get('mimeType')] and
    [part.get('body', {})['data']] where present. *)
Record Part := mkPart {
  mimeType : option string;
  part_data : option string
}.

(** [message['payload']] as [_get_body] reads it: [body_data] is present
    when ['body' in payload and 'data' in payload['body']], [parts] when
    ['parts' in payload]. *)
Record Payload := mkPayload {
  body_data : option string;
  parts : option (list Part)
}.

Definition CR : ascii := ascii_of_nat 13.
Definition LF : ascii := ascii_of_nat 10.

(** [text.replace('\r\n', '\n')] *)
Fixpoint replace_crlf (text : string) : string :=
  match text with
  | EmptyString => EmptyString
  | String c rest =>
      match rest with
      | String d rest' =>
          if Ascii.eqb c CR && Ascii.eqb d LF
          then String LF (replace_crlf rest')
          else String c (replace_crlf rest)
      | EmptyString => String c EmptyString
      end
  end.

(** [text.replace('\r', '\n')] *)
Fixpoint replace_cr (text : string) : string :=
  match text with
  | EmptyString => EmptyString
  | String c rest =>
      String (if Ascii.eqb c CR then LF else c) (replace_cr rest)
  end.

(** The first part of the given type that carries data: the loops
    [[
    for part in payload['parts']:
        if part.get('mimeType') == mime:
            if 'data' in part.get('body', {}):
                return self._decode_body(part['body']['data'])
    ]] *)
Fixpoint first_of_type (mime : string) (l : list Part) : option string :=
  match l with
  | [] => None
  | part :: l' =>
      match mimeType part, part_data part with
      | Some m, Some data => if m =? mime then Some data else first_of_type mime l'
      | _, _ => first_of_type mime l'
      end
  end.

Section Decoding.

(** [base64.urlsafe_b64decode(body).decode('utf-8')], which may raise. *)
Variable b64decode_utf8 : string -> exn + string.

(** [GmailClient._decode_body] *)
Definition _decode_body (data : string) : exn + string :=
  match b64decode_utf8 data with
  | inl e => inl e
  | inr text => inr (replace_cr (replace_crlf text))
  end.

(** [GmailClient._get_body] *)
Definition _get_body (payload : Payload) : exn + string :=
  match body_data payload with
  | Some data => _decode_body data
  | None =>
      match parts payload with
      | Some l =>
          match first_of_type "text/plain" l with
          | Some data => _decode_body data
          | None =>
              match first_of_type "text/html" l with
              | Some data => _decode_body data
              | None => inr "Could not extract body"
              end
          end
      | None => inr "Could not extract body"
      end
  end.

End Decoding.

End GmailMessages.

(* ------------------------------------------------------------------ *)
(** ** Vocabulary of the further statements *)

Module Props.

(** The world a route leaves when it changes nothing: the session closed. *)
Definition closed (w : World) : World :=
  mkWorld (store w) (store w) (trace w) (agent w).

(** Actions whose status [get_stats] has no counter for. *)
Definition uncounted (db : DB) : nat :=
  length (filter (fun a => negb (mem (status a)
                                     ["pending"; "approved"; "executed"; "rejected"]))
                 (actions db)).

(** Ids are distinct in both tables and the serial is ahead of every
    action id. *)
Definition well_formed (db : DB) : Prop :=
  NoDup (map a_id (actions db))
  /\ Forall (fun a => a_id a < next_action_id db) (actions db)
  /\ NoDup (map e_id (emails db)).

Definition tables_ok (w : World) : Prop :=
  well_formed (store w) /\ well_formed (session w).

(** A computation keeps [I] when [I] holds of the world it leaves,
    returning or raising, whenever it held of the world it found. *)
Definition preserves {A} (I : World -> Prop) (m : M A) : Prop :=
  forall w, I w -> I (snd (m w)).

(** A property of the events so far, and one of the tables, committed
    and in session, as properties of the world. *)
Definition on_trace (P : list Event -> Prop) : World -> Prop :=
  fun w => P (trace w).

Definition on_tables (P : DB -> Prop) : World -> Prop :=
  fun w => P (store w) /\ P (session w).

(** A computation that leaves the committed tables well-formed when it
    found them so. *)
Definition keeps_tables {A} (m : M A) : Prop :=
  preserves (fun w => well_formed (store w)) m.

(** The events that act on the mailbox. *)
Definition acts_on_mailbox (ev : Event) : bool :=
  match ev with
  | EvSendEmail _ _ _ _ | EvModify _ | EvArchive _ => true
  | _ => false
  end.

(** The ids handed to [get_message], in order. *)
Fixpoint fetched (t : list Event) : list string :=
  match t with
  | [] => []
  | EvGetMessage id :: t' => id :: fetched t'
  | _ :: t' => fetched t'
  end.

(** The ids handed to [archive], in order. *)
Fixpoint archive_calls (t : list Event) : list string :=
  match t with
  | [] => []
  | EvArchive id :: t' => id :: archive_calls t'
  | _ :: t' => archive_calls t'
  end.

(** [db] has the actions of [db0], unchanged and in place, followed by
    [pending] ones. *)
Definition only_adds_pending (db0 db : DB) : Prop :=
  exists l, actions db = (actions db0 ++ l)%list
            /\ Forall (fun a => status a = "pending") l.

(** The actions [execute_pending_actions] loads: the [approved] ones, of
    the requested kind when the request names one. *)
Definition selected (request : BulkApi.ExecutePendingRequest) (db : DB) : list Action :=
  let approved_ones := filter (fun a => status a =? "approved") (actions db) in
  if truthy_opt (BulkApi.only_action_type request) then
    filter (fun a => match BulkApi.only_action_type request with
                     | Some t => action_type a =? t
                     | None => true
                     end) approved_ones
  else approved_ones.

(** The action stored under [id] is [executed] or [failed]. *)
Definition settled (id : nat) (db : DB) : Prop :=
  exists a, query_action id db = Some a
            /\ (status a = "executed" \/ status a = "failed").

(** A message is stored under [id]. *)
Definition stored (id : string) (db : DB) : bool :=
  match query_email id db with
  | Some _ => true
  | None => false
  end.

(** The body [execute_pending_actions] sends for an action, if any: the
    suggestion, for a reply action whose message is stored. *)
Definition body_sent_for (db : DB) (a : Action) : list (option string) :=
  if (action_type a =? "reply") && stored (email_id a) db
  then [suggested_reply a] else [].

(** No comma in the string. *)
Fixpoint comma_free (s : string) : bool :=
  match s with
  | EmptyString => true
  | String c s' => negb (Ascii.eqb c ",") && comma_free s'
  end.

(** An entry as the list routes store it: not empty, stripped, in lower
    case, without a comma. *)
Definition clean_entry (s : string) : Prop :=
  s <> "" /\ strip s = s /\ lower s = s /\ comma_free s = true.

End Props.
Import Props.

(* ------------------------------------------------------------------ *)
(** ** Facts about the string operations *)

Lemma prefix_app (s t : string) : prefix s (s ++ t) = true.
Proof.
  induction s as [|c s IH]; simpl.
  - destruct t; reflexivity.
  - destruct (ascii_dec c c) as [_|ne]; [exact IH | contradiction].
Qed.

Lemma contains_here (s t : string) : contains s (s ++ t) = true.
Proof.
  pose proof (prefix_app s t) as H. revert H.
  generalize (s ++ t) as h. intros h H.
  destruct h; cbn [contains]; rewrite H; reflexivity.
Qed.

Lemma prefix_self (s : string) : prefix s s = true.
Proof.
  induction s as [|c s IH]; simpl; [reflexivity |].
  destruct (ascii_dec c c) as [_|ne]; [exact IH | contradiction].
Qed.

Lemma contains_self (s : string) : contains s s = true.
Proof. destruct s; cbn [contains]; rewrite prefix_self; reflexivity. Qed.

Lemma contains_skip (s p t : string) :
  contains s t = true -> contains s (p ++ t) = true.
Proof.
  intro H. induction p as [|c p IH]; simpl.
  - exact H.
  - rewrite IH. apply orb_true_r.
Qed.

Lemma contains_infix (s p q : string) : contains s (p ++ s ++ q) = true.
Proof. apply contains_skip, contains_here. Qed.

Lemma listed_existsb (entries : list string) (pe : ParsedEmail) :
  listed entries pe <->
  existsb (fun e => contains e (lower (pe_from pe))) entries = true.
Proof.
  unfold listed. rewrite existsb_exists. reflexivity.
Qed.

Lemma unlisted_existsb (entries : list string) (pe : ParsedEmail) :
  ~ listed entries pe <->
  existsb (fun e => contains e (lower (pe_from pe))) entries = false.
Proof.
  rewrite listed_existsb. destruct (existsb _ entries); split; congruence.
Qed.

(* ------------------------------------------------------------------ *)
(** ** The Decision Policy: [AgentService.decide_action] *)

Lemma get_config_run (w : World) :
  Agent.get_config w = (Return (current_config (session w)), ensure_config w).
Proof.
  unfold Agent.get_config, bind, get_session, current_config, ensure_config.
  destruct w as [st se tr ag]; simpl.
  destruct (config se); reflexivity.
Qed.

Lemma trace_ensure_config (w : World) : trace (ensure_config w) = trace w.
Proof. unfold ensure_config. destruct (config (session w)); reflexivity. Qed.

Lemma mem_three (c : string) :
  mem c ["routine"; "spam"; "personal"] = true <->
  c = "routine" \/ c = "spam" \/ c = "personal".
Proof.
  unfold mem; simpl. rewrite !orb_true_iff, !String.eqb_eq. intuition discriminate.
Qed.

Ltac split_all := repeat match goal with |- _ /\ _ => split end.

Ltac settle := cbv beta iota; unfold ret; cbn [fst snd].

(** Running the policy amounts to reading the configuration and taking the
    first branch whose test holds. *)
Ltac run_policy :=
  unfold Agent.decide_action, bind; rewrite get_config_run; cbv zeta.

(** C1. A sender whose lower-cased address contains a blacklist entry gets
    a [notify] action, whatever the classification label and whatever the
    whitelist holds. *)
Theorem decide_action_blacklisted_notify
    (cl : GmailClient) (pe : ParsedEmail) (c : string) (w : World) :
  blacklisted w pe ->
  exists a w',
    Agent.decide_action cl pe c w = (Return a, w') /\ Agent.d_type a = "notify".
Proof.
  intro Hb. apply listed_existsb in Hb.
  run_policy. rewrite Hb.
  eexists; eexists; split; reflexivity.
Qed.

Lemma decide_action_blacklisted_notify_witness :
  let w := Samples.world_of
             (mkDB [] [] (Some (Samples.config_with "newsletter.biz" "Newsletter" false)) 1) in
  let pe := Samples.message_from "Spam@newsletter.biz" in
  blacklisted w pe /\
  exists a w',
    Agent.decide_action (Samples.answering "ok") pe "urgent" w = (Return a, w')
    /\ Agent.d_type a = "notify".
Proof.
  intros w pe.
  assert (Hb : blacklisted w pe).
  { exists "newsletter". split; [vm_compute; left; reflexivity | reflexivity]. }
  split; [exact Hb |].
  exact (decide_action_blacklisted_notify (Samples.answering "ok") pe "urgent" w Hb).
Defined.

(** C2, as the code has it. For a sender that is whitelisted and not
    blacklisted: with a label among routine, spam and personal the policy
    proposes [reply] carrying exactly the text the Responder answered (be
    it empty); with the label urgent it proposes [notify]. *)
Theorem decide_action_whitelisted
    (cl : GmailClient) (pe : ParsedEmail) (c : string) (w : World) :
  ~ blacklisted w pe ->
  whitelisted w pe ->
  (c = "routine" \/ c = "spam" \/ c = "personal" ->
   forall text,
     generate_smart_reply cl (trace w) pe = inr text ->
     exists w',
       Agent.decide_action cl pe c w =
       (Return (Agent.mkDict "reply" (Some text) "Whitelisted sender - auto-reply"), w'))
  /\
  (c = "urgent" ->
   exists a w',
     Agent.decide_action cl pe c w = (Return a, w') /\ Agent.d_type a = "notify").
Proof.
  intros Hnb Hw. apply unlisted_existsb in Hnb. apply listed_existsb in Hw.
  split.
  - intros Hc text Hans. apply mem_three in Hc.
    run_policy. rewrite Hnb, Hw, Hc.
    unfold call. rewrite trace_ensure_config, Hans.
    eexists. reflexivity.
  - intros ->. run_policy. rewrite Hnb, Hw. simpl.
    eexists; eexists; split; reflexivity.
Qed.

Lemma decide_action_whitelisted_witness :
  let w := Samples.world_of
             (mkDB [] [] (Some (Samples.config_with "partner.com" "noreply@" false)) 1) in
  let pe := Samples.message_from "vip@partner.com" in
  let cl := Samples.answering "Thanks, noted." in
  (exists w',
     Agent.decide_action cl pe "spam" w =
     (Return (Agent.mkDict "reply" (Some "Thanks, noted.")
                           "Whitelisted sender - auto-reply"), w'))
  /\
  (exists a w',
     Agent.decide_action cl pe "urgent" w = (Return a, w') /\ Agent.d_type a = "notify").
Proof.
  intros w pe cl.
  assert (Hnb : ~ blacklisted w pe).
  { apply unlisted_existsb. vm_compute. reflexivity. }
  assert (Hw : whitelisted w pe).
  { apply listed_existsb. vm_compute. reflexivity. }
  split.
  - exact (proj1 (decide_action_whitelisted cl pe "spam" w Hnb Hw)
                 (or_intror (or_introl eq_refl)) "Thanks, noted." eq_refl).
  - exact (proj2 (decide_action_whitelisted cl pe "urgent" w Hnb Hw) eq_refl).
Defined.

(** C2, as stated, fails: when the Responder answers the empty text, a
    whitelisted sender with label spam gets a [reply] whose suggested
    content is empty. *)
Lemma decide_action_reply_may_be_empty :
  let w := Samples.world_of
             (mkDB [] [] (Some (Samples.config_with "partner.com" "noreply@" false)) 1) in
  let pe := Samples.message_from "vip@partner.com" in
  ~ blacklisted w pe /\ whitelisted w pe /\
  ~ (exists a text,
       fst (Agent.decide_action (Samples.answering "") pe "spam" w) = Return a
       /\ Agent.d_type a = "reply" /\ Agent.d_message a = Some text /\ text <> "").
Proof.
  intros w pe. split; [| split].
  - apply unlisted_existsb. vm_compute. reflexivity.
  - apply listed_existsb. vm_compute. reflexivity.
  - intros (a & text & Hrun & _ & Hm & Hne).
    vm_compute in Hrun. injection Hrun as <-.
    simpl in Hm. injection Hm as <-. apply Hne. reflexivity.
Qed.

(** C3. For a sender neither blacklisted nor whitelisted the policy always
    returns, and the label decides the kind: urgent, routine and personal
    give [notify], spam gives [archive], and any other label gives
    [notify] with a reason that contains the label. *)
Theorem decide_action_unlisted
    (cl : GmailClient) (pe : ParsedEmail) (c : string) (w : World) :
  ~ blacklisted w pe ->
  ~ whitelisted w pe ->
  exists a w',
    Agent.decide_action cl pe c w = (Return a, w') /\
    (c = "urgent" -> Agent.d_type a = "notify") /\
    (c = "routine" -> Agent.d_type a = "notify") /\
    (c = "spam" -> Agent.d_type a = "archive") /\
    (c = "personal" -> Agent.d_type a = "notify") /\
    (~ known_label c ->
     Agent.d_type a = "notify" /\ contains c (Agent.d_reason a) = true).
Proof.
  intros Hnb Hnw.
  apply unlisted_existsb in Hnb. apply unlisted_existsb in Hnw.
  run_policy. rewrite Hnb, Hnw. unfold known_label.
  destruct (String.eqb_spec c "urgent") as [-> | Hu].
  { eexists; eexists; split; [reflexivity |]. simpl.
    split_all; intros; try discriminate; try reflexivity; exfalso; tauto. }
  destruct (String.eqb_spec c "routine") as [-> | Hr].
  { eexists; eexists; split; [reflexivity |]. simpl.
    split_all; intros; try discriminate; try reflexivity; exfalso; tauto. }
  destruct (String.eqb_spec c "spam") as [-> | Hs].
  { eexists; eexists; split; [reflexivity |]. simpl.
    split_all; intros; try discriminate; try reflexivity; exfalso; tauto. }
  destruct (String.eqb_spec c "personal") as [-> | Hp].
  { eexists; eexists; split; [reflexivity |]. simpl.
    split_all; intros; try discriminate; try reflexivity; exfalso; tauto. }
  eexists; eexists; split; [reflexivity |]. simpl Agent.d_type. simpl Agent.d_reason.
  split_all; intros; try contradiction.
  split; [reflexivity |].
  apply (contains_skip c "Unknown classification: " c), contains_self.
Qed.

Lemma decide_action_unlisted_witness :
  let w := Samples.world_of
             (mkDB [] [] (Some (Samples.config_with "partner.com" "noreply@" false)) 1) in
  let pe := Samples.message_from "boss@company.com" in
  exists a w',
    Agent.decide_action (Samples.answering "ok") pe "newsletter" w = (Return a, w') /\
    ("newsletter" = "urgent" -> Agent.d_type a = "notify") /\
    ("newsletter" = "routine" -> Agent.d_type a = "notify") /\
    ("newsletter" = "spam" -> Agent.d_type a = "archive") /\
    ("newsletter" = "personal" -> Agent.d_type a = "notify") /\
    (~ known_label "newsletter" ->
     Agent.d_type a = "notify" /\ contains "newsletter" (Agent.d_reason a) = true).
Proof.
  intros w pe.
  assert (Hnb : ~ blacklisted w pe).
  { apply unlisted_existsb. vm_compute. reflexivity. }
  assert (Hnw : ~ whitelisted w pe).
  { apply unlisted_existsb. vm_compute. reflexivity. }
  exact (decide_action_unlisted (Samples.answering "ok") pe "newsletter" w Hnb Hnw).
Defined.

(** C7, as the code has it. When the Responder raises while the policy
    handles a whitelisted sender with a label among routine, spam and
    personal, [decide_action] returns no action at all: the exception
    reaches its caller. *)
Theorem decide_action_responder_failure_propagates
    (cl : GmailClient) (pe : ParsedEmail) (c : string) (w : World) (e : exn) :
  ~ blacklisted w pe ->
  whitelisted w pe ->
  c = "routine" \/ c = "spam" \/ c = "personal" ->
  generate_smart_reply cl (trace w) pe = inl e ->
  exists w', Agent.decide_action cl pe c w = (Raise e, w').
Proof.
  intros Hnb Hw Hc Hfail.
  apply unlisted_existsb in Hnb. apply listed_existsb in Hw. apply mem_three in Hc.
  run_policy. rewrite Hnb, Hw, Hc.
  unfold call. rewrite trace_ensure_config, Hfail.
  eexists. reflexivity.
Qed.

Lemma decide_action_responder_failure_propagates_witness :
  let w := Samples.world_of
             (mkDB [] [] (Some (Samples.config_with "partner.com" "noreply@" false)) 1) in
  let pe := Samples.message_from "vip@partner.com" in
  exists w',
    Agent.decide_action Samples.unreachable_model pe "routine" w =
    (Raise (ClientError "model unreachable"), w').
Proof.
  intros w pe.
  assert (Hnb : ~ blacklisted w pe).
  { apply unlisted_existsb. vm_compute. reflexivity. }
  assert (Hw : whitelisted w pe).
  { apply listed_existsb. vm_compute. reflexivity. }
  exact (decide_action_responder_failure_propagates
           Samples.unreachable_model pe "routine" w (ClientError "model unreachable")
           Hnb Hw (or_introl eq_refl) eq_refl).
Defined.

(** C7, as stated, fails: with the language model unreachable, a
    whitelisted sender and the label routine, the policy raises instead of
    returning a [notify] action. *)
Lemma decide_action_no_notify_fallback :
  let w := Samples.world_of
             (mkDB [] [] (Some (Samples.config_with "partner.com" "noreply@" false)) 1) in
  let pe := Samples.message_from "vip@partner.com" in
  whitelisted w pe /\
  generate_smart_reply Samples.unreachable_model (trace w) pe
    = inl (ClientError "model unreachable") /\
  ~ (exists a,
       fst (Agent.decide_action Samples.unreachable_model pe "routine" w) = Return a
       /\ Agent.d_type a = "notify").
Proof.
  intros w pe. split; [| split].
  - apply listed_existsb. vm_compute. reflexivity.
  - reflexivity.
  - intros (a & Hrun & _). vm_compute in Hrun. discriminate Hrun.
Qed.

(** C10. Whatever the sender, the label and the lists, the policy returns
    an action of kind [notify], [reply] or [archive] (never [skip]) with a
    non-empty reason, whose [message] is present exactly when the kind is
    [reply]; the one way not to return is the Responder's own exception. *)
Theorem decide_action_well_formed
    (cl : GmailClient) (pe : ParsedEmail) (c : string) (w : World) :
  match fst (Agent.decide_action cl pe c w) with
  | Return a =>
      proposable (Agent.d_type a) /\
      Agent.d_type a <> "skip" /\
      Agent.d_reason a <> "" /\
      (Agent.d_message a <> None <-> Agent.d_type a = "reply")
  | Raise e => generate_smart_reply cl (trace w) pe = inl e
  end.
Proof.
  assert (notify_ok : forall why, why <> "" ->
            proposable "notify" /\ "notify" <> "skip" /\ why <> "" /\
            ((@None string) <> None <-> "notify" = "reply")).
  { intros why Hwhy. unfold proposable. repeat split; auto; try discriminate.
    intro H; contradiction. }
  run_policy.
  destruct (existsb _ (get_blacklist _)); settle.
  { apply notify_ok. discriminate. }
  destruct (existsb _ (get_whitelist _)); settle.
  - destruct (mem c ["routine"; "spam"; "personal"]); settle.
    + unfold call. rewrite trace_ensure_config.
      destruct (generate_smart_reply cl (trace w) pe) as [e | text]; settle.
      * reflexivity.
      * unfold proposable. simpl. split_all; auto; try discriminate.
        split; [reflexivity | discriminate].
    + apply notify_ok. discriminate.
  - destruct (c =? "urgent"); settle; [apply notify_ok; discriminate |].
    destruct (c =? "routine"); settle; [apply notify_ok; discriminate |].
    destruct (c =? "spam"); settle.
    { unfold proposable. simpl. split_all; auto; try discriminate.
      split; [intro H; contradiction | discriminate]. }
    destruct (c =? "personal"); settle; apply notify_ok; discriminate.
Qed.

(* ------------------------------------------------------------------ *)
(** ** The Action Ledger: [approve_action] *)

Lemma route_run {A} (handler : M A) (w : World) :
  route handler w =
  let (r, w1) := handler (mkWorld (store w) (store w) (trace w) (agent w)) in
  (r, mkWorld (store w1) (store w1) (trace w1) (agent w1)).
Proof.
  unfold route, bind, try_finally, close_session, open_session.
  destruct (handler _) as [r w1]. destruct r; reflexivity.
Qed.

Lemma query_action_id (id : nat) (db : DB) (a : Action) :
  query_action id db = Some a -> a_id a = id.
Proof.
  unfold query_action. intro H. apply find_some in H.
  apply Nat.eqb_eq, H.
Qed.

Lemma query_action_save (a' : Action) (db : DB) :
  query_action (a_id a') db <> None ->
  query_action (a_id a') (save_action a' db) = Some a'.
Proof.
  unfold query_action, save_action, set_actions; simpl.
  induction (actions db) as [|x l IH]; simpl; [congruence |].
  destruct (Nat.eqb (a_id x) (a_id a')) eqn:E; simpl.
  - rewrite Nat.eqb_refl. reflexivity.
  - rewrite E. exact IH.
Qed.

(** The error raised for an action that is not [pending] names its status. *)
Lemma approve_action_refuses
    (cl : GmailClient) (id : nat) (approval : ActionApi.ActionApprove)
    (w : World) (a : Action) :
  query_action id (session w) = Some a ->
  status a <> "pending" ->
  exists detail,
    ActionApi.approve_action cl id approval w = (Raise (HTTPException 400 detail), w)
    /\ contains (status a) detail = true.
Proof.
  intros Hq Hs.
  unfold ActionApi.approve_action, bind, get_session. rewrite Hq.
  destruct (mem (status a) ["executed"; "approved"]) eqn:Hm.
  { eexists; split; [reflexivity |].
    apply (contains_infix (status a) "Action already " ". Cannot execute again."). }
  destruct (String.eqb_spec (status a) "rejected") as [Hr | Hr].
  { eexists; split; [reflexivity |]. rewrite Hr. reflexivity. }
  apply String.eqb_neq in Hs. rewrite Hs. simpl.
  eexists; split; [reflexivity |].
  apply (contains_infix (status a) "Action has status '"
                        "'. Only pending actions can be approved.").
Qed.

(** Rejecting a [pending] action stores it as [rejected]. *)
Lemma approve_action_rejects
    (cl : GmailClient) (id : nat) (approval : ActionApi.ActionApprove)
    (w : World) (a : Action) :
  query_action id (session w) = Some a ->
  status a = "pending" ->
  ActionApi.approved approval = false ->
  ActionApi.approve_action cl id approval w =
  (Return (with_status "rejected" a),
   let db := save_action (with_status "rejected" a) (session w) in
   mkWorld db db (trace w) (agent w)).
Proof.
  intros Hq Hs Ha.
  unfold ActionApi.approve_action, bind, get_session. rewrite Hq, Hs, Ha.
  reflexivity.
Qed.

Lemma query_action_saved_ne (a' : Action) (db : DB) :
  query_action (a_id a') db <> None ->
  query_action (a_id a') (save_action a' db) <> None.
Proof. intro H. rewrite (query_action_save a' db H). discriminate. Qed.

(** What the dispatch on the action kind leaves behind: the committed
    tables untouched, the action still in the session, and on the action
    itself at most [actual_reply] rewritten, to the suggestion. *)
Lemma dispatch_approved_inv
    (cl : GmailClient) (approval : ActionApi.ActionApprove)
    (act : Action) (email : Email) (w0 : World) :
  query_action (a_id act) (session w0) <> None ->
  let (r, w1) := ActionApi.dispatch_approved cl approval act email w0 in
  store w1 = store w0 /\
  match r with
  | Return act' =>
      act' = (if action_type act =? "reply"
              then with_actual_reply (suggested_reply act) act else act)
      /\ query_action (a_id act) (session w1) <> None
  | Raise _ => True
  end.
Proof.
  intro Hin.
  unfold ActionApi.dispatch_approved.
  destruct (action_type act =? "reply").
  - unfold bind, call, update_session, get_session, raise, ret; cbn [store session trace agent].
    destruct (send_email cl _ _ _ _ _) as [e | [new_id |]]; cbn [store]; auto.
    destruct (truthy new_id); cbn [store]; auto.
    destruct (or_else _ _); cbn [store]; auto.
    destruct (query_email new_id _); cbn [store session]; auto.
    split; [reflexivity | split; [reflexivity |]].
    apply (query_action_saved_ne (with_actual_reply (suggested_reply act) act)).
    exact Hin.
  - destruct (action_type act =? "archive").
    + unfold bind, call, ret; cbn [store session trace agent].
      destruct (modify cl _ _) as [e | []]; cbn [store session]; auto.
    + unfold ret. auto.
Qed.

(** Approving a [pending] action either stores it as [executed], its
    suggestion kept, or raises and commits nothing. *)
Lemma approve_action_approves
    (cl : GmailClient) (id : nat) (approval : ActionApi.ActionApprove)
    (w : World) (a : Action) :
  query_action id (session w) = Some a ->
  status a = "pending" ->
  ActionApi.approved approval = true ->
  let (r, w1) := ActionApi.approve_action cl id approval w in
  match r with
  | Return a' =>
      status a' = "executed" /\ suggested_reply a' = suggested_reply a /\
      query_action id (store w1) = Some a'
  | Raise _ => store w1 = store w
  end.
Proof.
  intros Hq Hs Ha.
  pose proof (query_action_id _ _ _ Hq) as Hid.
  unfold ActionApi.approve_action.
  unfold bind at 1; unfold get_session at 1; cbv beta iota.
  rewrite Hq, Hs, Ha.
  change (mem "pending" ["executed"; "approved"]) with false.
  change ("pending" =? "rejected") with false.
  change ("pending" =? "pending") with true.
  cbn [negb]. cbv iota zeta.
  set (a1 := with_status "approved" a).
  set (a2 := if truthy_opt (ActionApi.edited_reply approval)
             then with_actual_reply (ActionApi.edited_reply approval) a1 else a1).
  assert (Hid2 : a_id a2 = id /\ suggested_reply a2 = suggested_reply a).
  { unfold a2, a1. destruct (truthy_opt _); split; assumption || reflexivity. }
  destruct Hid2 as [Hid2 Hsug2].
  unfold bind at 1 2 3. unfold update_session at 1 2. unfold get_session.
  cbv beta iota. cbn [store session trace agent].
  set (w0 := mkWorld _ _ _ _).
  assert (Hin : query_action (a_id a2) (session w0) <> None).
  { unfold w0; cbn [session]. apply query_action_saved_ne.
    rewrite Hid2. replace id with (a_id a1) by exact Hid.
    apply query_action_saved_ne. unfold a1; cbn [a_id with_status].
    rewrite Hid, Hq. discriminate. }
  assert (Hst : store w0 = store w) by reflexivity.
  clearbody w0.
  replace (email_id a2) with (email_id a)
    by (unfold a2, a1; destruct (truthy_opt _); reflexivity).
  destruct (query_email (email_id a) _) as [email |]; [| exact Hst].
  unfold bind.
  pose proof (dispatch_approved_inv cl approval a2 email w0 Hin) as Hd.
  destruct (ActionApi.dispatch_approved cl approval a2 email w0) as [[a3 | e] w1].
  - destruct Hd as (Hst1 & Ha3 & Hin1).
    unfold update_session, commit, ret; cbn [store session trace agent].
    assert (Hid3 : a_id a3 = id /\ suggested_reply a3 = suggested_reply a).
    { rewrite Ha3. destruct (action_type a2 =? "reply"); split; assumption. }
    destruct Hid3 as [Hid3 Hsug3].
    split; [reflexivity | split; [exact Hsug3 |]].
    replace id with (a_id (with_status "executed" a3)) by exact Hid3.
    apply query_action_save. cbn [a_id with_status].
    rewrite Hid3, <- Hid2. exact Hin1.
  - destruct Hd as [Hst1 _]. rewrite Hst1. exact Hst.
Qed.

(** When the provider plays along, the dispatch returns. *)
Lemma dispatch_approved_returns
    (cl : GmailClient) (approval : ActionApi.ActionApprove)
    (act : Action) (email : Email) (w0 : World) :
  (action_type act = "reply" ->
   exists new_id content,
     send_email cl (trace w0) (from_address email) ("Re: " ++ subject email)
                (suggested_reply act) (thread_id email) = inr (Some new_id)
     /\ truthy new_id = true
     /\ or_else (ActionApi.edited_reply approval) (suggested_reply act) = Some content
     /\ query_email new_id (session w0) = None) ->
  (action_type act = "archive" -> modify cl (trace w0) (e_id email) = inr tt) ->
  exists act' w1,
    ActionApi.dispatch_approved cl approval act email w0 = (Return act', w1).
Proof.
  intros Hreply Harchive.
  unfold ActionApi.dispatch_approved.
  destruct (String.eqb_spec (action_type act) "reply") as [Hr | Hr].
  - destruct (Hreply Hr) as (new_id & content & Hsend & Htruthy & Hcontent & Hfresh).
    unfold bind, call, update_session, get_session, ret.
    cbn [store session trace agent].
    rewrite Hsend. cbv beta iota. cbn [store session trace agent].
    rewrite Htruthy.
    change (suggested_reply (with_actual_reply (suggested_reply act) act))
      with (suggested_reply act).
    rewrite Hcontent.
    match goal with
    | |- context [query_email new_id ?d] =>
        change (query_email new_id d) with (query_email new_id (session w0))
    end.
    rewrite Hfresh.
    eexists; eexists; reflexivity.
  - destruct (String.eqb_spec (action_type act) "archive") as [Ha | Ha].
    + unfold bind, call, ret. rewrite (Harchive Ha).
      eexists; eexists; reflexivity.
    + unfold ret. eexists; eexists; reflexivity.
Qed.

(** Approving a [pending] action whose message is stored, with a provider
    that plays along, returns. *)
Lemma approve_action_returns
    (cl : GmailClient) (id : nat) (approval : ActionApi.ActionApprove)
    (w : World) (a : Action) (email : Email) :
  query_action id (session w) = Some a ->
  status a = "pending" ->
  ActionApi.approved approval = true ->
  query_email (email_id a) (session w) = Some email ->
  (action_type a = "reply" ->
   exists new_id content,
     send_email cl (trace w) (from_address email) ("Re: " ++ subject email)
                (suggested_reply a) (thread_id email) = inr (Some new_id)
     /\ truthy new_id = true
     /\ or_else (ActionApi.edited_reply approval) (suggested_reply a) = Some content
     /\ query_email new_id (session w) = None) ->
  (action_type a = "archive" -> modify cl (trace w) (e_id email) = inr tt) ->
  exists a' w1, ActionApi.approve_action cl id approval w = (Return a', w1).
Proof.
  intros Hq Hs Ha Hemail Hreply Harchive.
  unfold ActionApi.approve_action.
  unfold bind at 1; unfold get_session at 1; cbv beta iota.
  rewrite Hq, Hs, Ha.
  change (mem "pending" ["executed"; "approved"]) with false.
  change ("pending" =? "rejected") with false.
  change ("pending" =? "pending") with true.
  cbn [negb]. cbv iota zeta.
  set (a1 := with_status "approved" a).
  set (a2 := if truthy_opt (ActionApi.edited_reply approval)
             then with_actual_reply (ActionApi.edited_reply approval) a1 else a1).
  assert (Hsame : email_id a2 = email_id a /\ action_type a2 = action_type a
                  /\ suggested_reply a2 = suggested_reply a).
  { unfold a2, a1. destruct (truthy_opt _); repeat split. }
  destruct Hsame as (Heid & Hty & Hsug).
  unfold bind at 1 2 3. unfold update_session at 1 2. unfold get_session.
  cbv beta iota. cbn [store session trace agent].
  set (w0 := mkWorld _ _ _ _).
  rewrite Heid.
  change (query_email (email_id a) (save_action a2 (save_action a1 (session w))))
    with (query_email (email_id a) (session w)).
  rewrite Hemail.
  destruct (dispatch_approved_returns cl approval a2 email w0) as (a3 & w1 & Hd).
  { rewrite Hty, Hsug. exact Hreply. }
  { rewrite Hty. exact Harchive. }
  unfold bind at 1. rewrite Hd.
  eexists; eexists; reflexivity.
Qed.

(** C4. One [POST /{action_id}/approve] request on a stored action.
    - Not [pending] (so [approved], [executed], [rejected], [failed], ...):
      error 400 whose detail contains the current status; nothing is
      stored and nothing is sent.
    - [pending], rejected by the request: stored and returned as [rejected].
    - [pending], approved by the request: the action goes through
      [approved] to [executed] within the request, and is stored and
      returned as [executed], unless an exception interrupts the request, in
      which case nothing is stored; and the request does return when the
      message is stored and the provider calls of the action's kind succeed. *)
Theorem approve_action_state_machine
    (cl : GmailClient) (id : nat) (approval : ActionApi.ActionApprove)
    (w : World) (a : Action) :
  query_action id (store w) = Some a ->
  let run := route (ActionApi.approve_action cl id approval) w in
  (status a <> "pending" ->
   exists detail,
     fst run = Raise (HTTPException 400 detail)
     /\ contains (status a) detail = true
     /\ store (snd run) = store w /\ trace (snd run) = trace w)
  /\
  (status a = "pending" -> ActionApi.approved approval = false ->
   fst run = Return (with_status "rejected" a)
   /\ query_action id (store (snd run)) = Some (with_status "rejected" a))
  /\
  (status a = "pending" -> ActionApi.approved approval = true ->
   match fst run with
   | Return a' =>
       status a' = "executed" /\ query_action id (store (snd run)) = Some a'
   | Raise _ => store (snd run) = store w
   end)
  /\
  (status a = "pending" -> ActionApi.approved approval = true ->
   forall email,
     query_email (email_id a) (store w) = Some email ->
     (action_type a = "reply" ->
      exists new_id content,
        send_email cl (trace w) (from_address email) ("Re: " ++ subject email)
                   (suggested_reply a) (thread_id email) = inr (Some new_id)
        /\ truthy new_id = true
        /\ or_else (ActionApi.edited_reply approval) (suggested_reply a) = Some content
        /\ query_email new_id (store w) = None) ->
     (action_type a = "archive" -> modify cl (trace w) (e_id email) = inr tt) ->
     exists a', fst run = Return a').
Proof.
  intros Hq run. unfold run. rewrite route_run.
  set (w0 := mkWorld (store w) (store w) (trace w) (agent w)).
  assert (Hq0 : query_action id (session w0) = Some a) by exact Hq.
  split_all.
  - intro Hs.
    destruct (approve_action_refuses cl id approval w0 a Hq0 Hs) as (detail & Hrun & Hc).
    rewrite Hrun. exists detail. cbn. auto.
  - intros Hs Ha.
    rewrite (approve_action_rejects cl id approval w0 a Hq0 Hs Ha). cbn.
    split; [reflexivity |].
    pose proof (query_action_id _ _ _ Hq) as Hid.
    replace id with (a_id (with_status "rejected" a)) by exact Hid.
    apply query_action_save. cbn [a_id with_status]. rewrite Hid, Hq. discriminate.
  - intros Hs Ha.
    pose proof (approve_action_approves cl id approval w0 a Hq0 Hs Ha) as H.
    destruct (ActionApi.approve_action cl id approval w0) as [[a' | e] w1]; cbn.
    + destruct H as (H1 & _ & H3). auto.
    + exact H.
  - intros Hs Ha email Hemail Hreply Harchive.
    destruct (approve_action_returns cl id approval w0 a email Hq0 Hs Ha Hemail
                                     Hreply Harchive) as (a' & w1 & Hrun).
    rewrite Hrun. exists a'. reflexivity.
Qed.

Lemma approve_action_state_machine_witness :
  let cl := Samples.answering "ok" in
  let done := Samples.stored_action "notify" "executed" None in
  let fresh := Samples.stored_action "notify" "pending" None in
  let world_with a :=
    Samples.world_of (mkDB [Samples.stored_email "boss@company.com" false] [a] None 2) in
  (let run := route (ActionApi.approve_action cl 1 (ActionApi.mkApprove true None))
                    (world_with done) in
   exists detail,
     fst run = Raise (HTTPException 400 detail)
     /\ contains "executed" detail = true
     /\ store (snd run) = store (world_with done)
     /\ trace (snd run) = trace (world_with done))
  /\
  (let run := route (ActionApi.approve_action cl 1 (ActionApi.mkApprove false None))
                    (world_with fresh) in
   fst run = Return (with_status "rejected" fresh)
   /\ query_action 1 (store (snd run)) = Some (with_status "rejected" fresh))
  /\
  (let run := route (ActionApi.approve_action cl 1 (ActionApi.mkApprove true None))
                    (world_with fresh) in
   exists a', fst run = Return a').
Proof.
  intros cl done fresh world_with.
  split; [| split].
  - assert (Hs : status done <> "pending") by discriminate.
    exact (proj1 (approve_action_state_machine cl 1
                    (ActionApi.mkApprove true None) (world_with done) done eq_refl) Hs).
  - exact (proj1 (proj2 (approve_action_state_machine cl 1
                           (ActionApi.mkApprove false None) (world_with fresh) fresh
                           eq_refl))
                 eq_refl eq_refl).
  - refine (proj2 (proj2 (proj2 (approve_action_state_machine cl 1
                                   (ActionApi.mkApprove true None) (world_with fresh)
                                   fresh eq_refl)))
                  eq_refl eq_refl (Samples.stored_email "boss@company.com" false)
                  eq_refl _ _);
      intro H; discriminate H.
Defined.

(** The three lawful moves on concrete data: a [pending] notify action is
    rejected, or approved and thereby executed; a [pending] reply action
    is approved and executed with the mail sent. *)
Example approve_action_lawful_moves :
  let cl := Samples.answering "ok" in
  let db kind sugg :=
    mkDB [Samples.stored_email "boss@company.com" false]
         [Samples.stored_action kind "pending" sugg] None 2 in
  (let run := route (ActionApi.approve_action cl 1 (ActionApi.mkApprove false None))
                    (Samples.world_of (db "notify" None)) in
   option_map status (query_action 1 (store (snd run))) = Some "rejected")
  /\
  (let run := route (ActionApi.approve_action cl 1 (ActionApi.mkApprove true None))
                    (Samples.world_of (db "notify" None)) in
   option_map status (query_action 1 (store (snd run))) = Some "executed"
   /\ trace (snd run) = [])
  /\
  (let run := route (ActionApi.approve_action cl 1 (ActionApi.mkApprove true None))
                    (Samples.world_of (db "reply" (Some "Sure."))) in
   option_map status (query_action 1 (store (snd run))) = Some "executed"
   /\ sent_bodies (trace (snd run)) = [Some "Sure."]).
Proof. vm_compute. repeat split. Qed.

(* ------------------------------------------------------------------ *)
(** ** The Execution Gateway: what is sent, and under which flag *)

(** Whatever the request carries as [edited_reply], the body handed to
    [send_email] by [dispatch_approved] is the stored suggestion. *)
Lemma dispatch_approved_sends_suggestion
    (cl : GmailClient) (approval : ActionApi.ActionApprove)
    (act : Action) (email : Email) (w0 : World) :
  action_type act = "reply" ->
  sent_bodies (trace (snd (ActionApi.dispatch_approved cl approval act email w0)))
  = (sent_bodies (trace w0) ++ [suggested_reply act])%list.
Proof.
  intro Hr.
  assert (Happ : forall t a b c d,
            sent_bodies (t ++ [EvSendEmail a b c d]) = (sent_bodies t ++ [c])%list).
  { induction t as [|ev t IH]; intros; simpl; [reflexivity |].
    destruct ev; simpl; rewrite ?IH; reflexivity. }
  unfold ActionApi.dispatch_approved. rewrite Hr.
  change ("reply" =? "reply") with true. cbv iota.
  unfold bind, call, update_session, get_session, raise, ret.
  cbn [store session trace agent].
  destruct (send_email cl _ _ _ _ _) as [e | [new_id |]];
    cbn [snd trace]; try apply Happ.
  destruct (truthy new_id); cbn [snd trace]; try apply Happ.
  destruct (or_else _ _); cbn [snd trace]; try apply Happ.
  destruct (query_email new_id _); cbn [snd trace]; apply Happ.
Qed.

(** C5, at the failing input. A [pending] reply action suggesting
    [Suggested text] is approved with the edited reply [Edited text]: the
    request succeeds and leaves the action [executed], the suggestion is
    kept, but the body sent and the recorded actual content are the
    suggestion, not the edited text; only the stored copy of the sent
    message carries the edited text. *)
Theorem approve_action_ignores_edited_reply :
  let w := Samples.world_of
             (mkDB [Samples.stored_email "vip@partner.com" false]
                   [Samples.stored_action "reply" "pending" (Some "Suggested text")]
                   None 2) in
  let run := route (ActionApi.approve_action (Samples.answering "ok") 1
                      (ActionApi.mkApprove true (Some "Edited text"))) w in
  (exists a', fst run = Return a' /\ status a' = "executed"
              /\ suggested_reply a' = Some "Suggested text"
              /\ actual_reply a' = Some "Suggested text")
  /\ sent_bodies (trace (snd run)) = [Some "Suggested text"]
  /\ option_map body (query_email "sent-1" (store (snd run))) = Some "Edited text".
Proof.
  vm_compute. split; [| split; reflexivity].
  eexists. repeat split.
Qed.

(** C6, at the failing input. With [dry_run_mode] set in the stored
    configuration, [POST /actions/execute-pending] on an [approved] reply
    action marks it [executed] and records the actual content, and it does
    call [send_email], exactly as it does with the flag cleared. *)
Theorem execute_pending_actions_ignores_dry_run :
  let cfg := Samples.config_with "" "noreply@" true in
  let w := Samples.world_of
             (mkDB [Samples.stored_email "vip@partner.com" false]
                   [Samples.stored_action "reply" "approved" (Some "Suggested text")]
                   (Some cfg) 2) in
  let run := route (BulkApi.execute_pending_actions (Samples.answering "ok")
                      (BulkApi.mkExecutePending None)) w in
  dry_run_mode (current_config (store w)) = true
  /\ fst run = Return (BulkApi.mkExecuteReport 1 (Some []))
  /\ option_map status (query_action 1 (store (snd run))) = Some "executed"
  /\ option_map actual_reply (query_action 1 (store (snd run)))
     = Some (Some "Suggested text")
  /\ trace (snd run)
     = [EvSendEmail "vip@partner.com" "Re: Hello" (Some "Suggested text") "t1"]
  /\ trace (snd run)
     = trace (snd (route (BulkApi.execute_pending_actions (Samples.answering "ok")
                            (BulkApi.mkExecutePending None))
                         (Samples.world_of
                            (mkDB (emails (store w)) (actions (store w))
                                  (Some (Samples.config_with "" "noreply@" false)) 2)))).
Proof. vm_compute. repeat split. Qed.

(* ------------------------------------------------------------------ *)
(** ** Bulk archive: [bulk_archive_sender] *)

Lemma bind_get_session {B} (k : DB -> M B) (w : World) :
  bind get_session k w = k (session w) w.
Proof. reflexivity. Qed.

Lemma bind_returned {A B} (m : M A) (k : A -> M B) (w w' : World) (a : A) :
  m w = (Return a, w') -> bind m k w = k a w'.
Proof. intro H. unfold bind. rewrite H. reflexivity. Qed.

Lemma bind_raised {A B} (m : M A) (k : A -> M B) (w w' : World) (e : exn) :
  m w = (Raise e, w') -> bind m k w = (Raise e, w').
Proof. intro H. unfold bind. rewrite H. reflexivity. Qed.

Lemma outstanding_insert
    (m eid ty st : string) (sugg why : option string) (db : DB) :
  outstanding m (insert_action eid ty st sugg why db) =
  outstanding m db
  + (if (eid =? m) && ((st =? "pending") || (st =? "approved")) then 1 else 0).
Proof.
  unfold outstanding, insert_action, non_terminal; cbn [actions].
  rewrite filter_app, length_app. cbn [filter email_id status].
  destruct ((eid =? m) && ((st =? "pending") || (st =? "approved")));
    reflexivity.
Qed.

Lemma length_filter_filter {A} (p q : A -> bool) (l : list A) :
  length (filter q (filter p l)) = length (filter (fun x => p x && q x) l).
Proof.
  induction l as [|x l IH]; simpl; [reflexivity |].
  destruct (p x); simpl; [destruct (q x); simpl; rewrite IH; reflexivity | exact IH].
Qed.

(** The database-only loop: one [pending] action per message, nothing sent. *)
Lemma bulk_archive_db_only_loop (who : string) (l : list Email) :
  forall w,
  exists w',
    Agent.for_each l
      (fun email =>
         update_session (save_email (with_processed true email)) ;;;
         update_session
           (insert_action (e_id email) "archive" "pending" None
                          (Some ("Bulk archived sender " ++ who)))) w
    = (Return tt, w')
    /\ store w' = store w /\ trace w' = trace w
    /\ forall m, outstanding m (session w') =
                 outstanding m (session w)
                 + length (filter (fun e => e_id e =? m) l).
Proof.
  induction l as [|email l IH]; intro w.
  - exists w. cbn. split_all; auto.
  - cbn [Agent.for_each]. unfold bind at 1 2. unfold update_session at 1 2.
    cbv beta iota. cbn [store session trace agent].
    match goal with |- context [Agent.for_each l _ ?w1] =>
      destruct (IH w1) as (w' & Hrun & Hst & Htr & Hout) end.
    exists w'. rewrite Hrun. split_all; auto.
    intro m. rewrite Hout. cbn [session filter].
    rewrite outstanding_insert.
    change (outstanding m (save_email (with_processed true email) (session w)))
      with (outstanding m (session w)).
    change (("pending" =? "pending") || ("pending" =? "approved")) with true.
    rewrite andb_true_r.
    destruct (e_id email =? m); cbn [length]; lia.
Qed.

(** The Gmail loop: it never raises, and the actions it adds are
    [executed], so no message gains a non-terminal action. *)
Lemma bulk_archive_gmail_loop (cl : GmailClient) (who : string) (l : list Email) :
  forall n failed w,
  exists r w',
    BulkApi.archive_in_gmail cl who l n failed w = (Return r, w')
    /\ store w' = store w
    /\ forall m, outstanding m (session w') = outstanding m (session w).
Proof.
  induction l as [|email l IH]; intros n failed w.
  - exists (n, failed), w. cbn. auto.
  - cbn [BulkApi.archive_in_gmail]. unfold bind at 1. unfold try_except at 1.
    unfold bind at 1 2 3. unfold call at 1. unfold update_session at 1 2.
    unfold ret at 1 2.
    cbv beta iota. cbn [store session trace agent].
    destruct (archive cl (trace w) (e_id email)) as [e | []];
      cbv beta iota; cbn [fst snd store session trace agent];
      match goal with |- context [BulkApi.archive_in_gmail cl who l ?n1 ?f1 ?w1] =>
        destruct (IH n1 f1 w1) as (r & w' & Hrun & Hst & Hout) end;
      exists r, w'; rewrite Hrun; split_all; auto.
    intro m. rewrite Hout. cbn [session]. rewrite outstanding_insert.
    change (("executed" =? "pending") || ("executed" =? "approved")) with false.
    rewrite andb_false_r.
    change (outstanding m (save_email (with_processed true email) (session w)))
      with (outstanding m (session w)).
    lia.
Qed.

(** C9, as the code has it. A [POST /emails/bulk-archive-sender] request
    never fails. With [execute_in_gmail] it adds [executed] actions only,
    so no message gains a non-terminal action. Without it, every stored
    message of the sender gains one more [pending] action at each request,
    whatever actions the message already has. *)
Theorem bulk_archive_sender_effect
    (cl : GmailClient) (request : BulkApi.ArchiveSenderRequest) (w : World) :
  let run := route (BulkApi.bulk_archive_sender cl request) w in
  (exists report, fst run = Return report)
  /\ forall m,
       outstanding m (store (snd run)) =
       outstanding m (store w)
       + (if BulkApi.execute_in_gmail request then 0
          else copies (BulkApi.sender request) m (store w)).
Proof.
  intro run. unfold run. rewrite route_run.
  set (w0 := mkWorld (store w) (store w) (trace w) (agent w)).
  unfold BulkApi.bulk_archive_sender. rewrite bind_get_session.
  change (session w0) with (store w).
  assert (Hcopies : forall m,
            copies (BulkApi.sender request) m (store w) =
            length (filter (fun e => e_id e =? m)
                      (filter (fun e => from_address e =? BulkApi.sender request)
                              (emails (store w))))).
  { intro m. unfold copies. rewrite length_filter_filter. reflexivity. }
  destruct (filter (fun e => from_address e =? BulkApi.sender request)
                   (emails (store w))) as [|first others].
  - unfold ret; cbn [fst snd store w0].
    split; [eexists; reflexivity |].
    intro m. rewrite Hcopies. cbn [filter length].
    destruct (BulkApi.execute_in_gmail request); lia.
  - destruct (BulkApi.execute_in_gmail request).
    + destruct (bulk_archive_gmail_loop cl (BulkApi.sender request)
                  (first :: others) 0 [] w0) as (r & w' & Hrun & Hst & Hout).
      rewrite (bind_returned _ _ _ _ _ Hrun).
      unfold bind, commit, ret; cbn [fst snd store session].
      split; [eexists; reflexivity |].
      intro m. rewrite Hout. cbn [session w0]. lia.
    + destruct (bulk_archive_db_only_loop (BulkApi.sender request)
                  (first :: others) w0) as (w' & Hrun & Hst & Htr & Hout).
      rewrite (bind_returned _ _ _ _ _ Hrun).
      unfold bind, commit, ret; cbn [fst snd store session].
      split; [eexists; reflexivity |].
      intro m. rewrite Hout, Hcopies. reflexivity.
Qed.

(** C9, as stated, fails: the message of the sender is processed and
    already has the [pending] archive action of an earlier request; one
    more database-only request succeeds and leaves it with two. *)
Lemma bulk_archive_sender_duplicates :
  let request := BulkApi.mkArchiveSender "ads@deals.com" false in
  let cl := Samples.answering "ok" in
  let w0 := Samples.world_of
              (mkDB [Samples.stored_email "ads@deals.com" false] [] None 1) in
  let w1 := snd (route (BulkApi.bulk_archive_sender cl request) w0) in
  let run := route (BulkApi.bulk_archive_sender cl request) w1 in
  map processed (emails (store w1)) = [true]
  /\ outstanding "m1" (store w1) = 1
  /\ fst run = Return (BulkApi.mkArchiveReport 1 None)
  /\ outstanding "m1" (store (snd run)) = 2.
Proof. vm_compute. repeat split. Qed.

(* ------------------------------------------------------------------ *)
(** ** The Triage Loop: [run_loop] *)

Lemma sleeps_app (t1 t2 : list Event) :
  sleeps (t1 ++ t2) = (sleeps t1 ++ sleeps t2)%list.
Proof.
  induction t1 as [|ev t1 IH]; simpl; [reflexivity |].
  destruct ev; simpl; rewrite ?IH; reflexivity.
Qed.

Lemma calm_ret {A} (a : A) : calm (ret a).
Proof. intro w. split; reflexivity. Qed.

Lemma calm_raise {A} (e : exn) : calm (@raise A e).
Proof. intro w. split; reflexivity. Qed.

Lemma calm_get_session : calm get_session.
Proof. intro w. split; reflexivity. Qed.

Lemma calm_get_agent : calm Agent.get_agent.
Proof. intro w. split; reflexivity. Qed.

Lemma calm_update_session (f : DB -> DB) : calm (update_session f).
Proof. intro w. split; reflexivity. Qed.

Lemma calm_commit : calm commit.
Proof. intro w. split; reflexivity. Qed.

Lemma calm_open_session : calm open_session.
Proof. intro w. split; reflexivity. Qed.

Lemma calm_bind {A B} (m : M A) (k : A -> M B) :
  calm m -> (forall a, calm (k a)) -> calm (bind m k).
Proof.
  intros Hm Hk w. unfold bind.
  destruct (Hm w) as [H1 H2].
  destruct (m w) as [[a | e] w1]; cbn [snd] in *.
  - destruct (Hk a w1) as [H3 H4]. rewrite H3, H4. auto.
  - auto.
Qed.

Lemma calm_try_except {A} (m : M A) (h : exn -> M A) :
  calm m -> (forall e, calm (h e)) -> calm (try_except m h).
Proof.
  intros Hm Hh w. unfold try_except.
  destruct (Hm w) as [H1 H2].
  destruct (m w) as [[a | e] w1]; cbn [snd] in *.
  - auto.
  - destruct (Hh e w1) as [H3 H4]. rewrite H3, H4. auto.
Qed.

Lemma calm_try_finally {A} (m : M A) (f : M unit) :
  calm m -> calm f -> calm (try_finally m f).
Proof.
  intros Hm Hf w. unfold try_finally.
  destruct (Hm w) as [H1 H2].
  destruct (m w) as [r w1]; cbn [snd] in *.
  destruct (Hf w1) as [H3 H4].
  destruct (f w1) as [[[] | e] w2]; cbn [snd] in *; rewrite H3, H4; auto.
Qed.

Lemma calm_call {A} (ev : Event) (answer : list Event -> exn + A) :
  match ev with EvSleep _ => False | _ => True end ->
  calm (call ev answer).
Proof.
  intros Hev w. unfold call.
  assert (Hs : sleeps (trace w ++ [ev]) = sleeps (trace w)).
  { rewrite sleeps_app. destruct ev; try contradiction; apply app_nil_r. }
  destruct (answer (trace w)); cbn [snd trace agent]; auto.
Qed.

Lemma calm_for_each {A} (l : list A) (body : A -> M unit) :
  (forall x, calm (body x)) -> calm (Agent.for_each l body).
Proof.
  intro Hb. induction l as [|x l IH]; cbn [Agent.for_each].
  - apply calm_ret.
  - apply calm_bind; [apply Hb | intros _; exact IH].
Qed.

(** [self.seen_emails.add(..)] leaves [running] alone. *)
Lemma calm_remember (f : AgentService -> list string) :
  calm (bind Agent.get_agent
             (fun ag => Agent.set_agent (mkAgent (f ag) (running ag)))).
Proof. intro w. split; reflexivity. Qed.

(** Calmness follows the shape of the code. *)
Ltac calm_step :=
  first
    [ apply calm_ret | apply calm_raise | apply calm_get_session
    | apply calm_get_agent | apply calm_update_session | apply calm_commit
    | apply calm_open_session | apply calm_remember
    | apply calm_call; exact I
    | apply calm_bind; [| intro]
    | apply calm_try_except; [| intro]
    | apply calm_try_finally
    | apply calm_for_each; intro
    | match goal with
      | |- calm (match ?x with _ => _ end) => destruct x
      | |- calm (if ?b then _ else _) => destruct b
      end
    | progress cbv zeta ].

Ltac calm_all := repeat calm_step.

Lemma calm_get_config : calm Agent.get_config.
Proof. unfold Agent.get_config. calm_all. Qed.

Lemma calm_decide_action (cl : GmailClient) (pe : ParsedEmail) (c : string) :
  calm (Agent.decide_action cl pe c).
Proof.
  unfold Agent.decide_action. cbv zeta.
  apply calm_bind; [apply calm_get_config | intro cfg]. calm_all.
Qed.

Lemma calm_check_for_new_emails (demo : bool) (cl : GmailClient) :
  calm (Agent.check_for_new_emails demo cl).
Proof. unfold Agent.check_for_new_emails. calm_all. Qed.

Lemma calm_process_email (demo : bool) (cl : GmailClient) (email_id : string) :
  calm (Agent.process_email demo cl email_id).
Proof.
  unfold Agent.process_email.
  apply calm_bind; [calm_all | intro pe].
  apply calm_bind; [calm_all | intro c].
  apply calm_bind; [calm_all | intros _].
  apply calm_bind; [apply calm_decide_action | intro action].
  calm_all.
Qed.

(** One round awaits exactly one sleep, of the length the loop was
    started with, whether the round's work returns or raises. *)
Lemma iteration_sleeps_once
    (demo : bool) (cl : GmailClient) (check_interval : Z) (w : World) :
  let w' := snd (Agent.iteration demo cl check_interval w) in
  sleeps (trace w') = (sleeps (trace w) ++ [check_interval])%list
  /\ running (agent w') = running (agent w).
Proof.
  unfold Agent.iteration.
  set (work := try_finally _ close_session).
  assert (Hwork : calm work).
  { unfold work.
    apply calm_try_finally; [| apply calm_open_session].
    apply calm_bind; [apply calm_check_for_new_emails | intro ids].
    apply calm_for_each; intro id.
    apply calm_try_except; [apply calm_process_email | intro; apply calm_ret]. }
  clearbody work.
  unfold try_except, bind, open_session, Agent.sleep, emit. cbv beta iota.
  set (w0 := mkWorld (store w) (store w) (trace w) (agent w)).
  destruct (Hwork w0) as [Hs Hr].
  destruct (work w0) as [[[] | e] w1]; cbn [snd trace agent] in *;
    rewrite sleeps_app, Hs, Hr; split; reflexivity.
Qed.

Lemma calm_route {A} (handler : M A) : calm handler -> calm (route handler).
Proof.
  intro H. unfold route.
  apply calm_bind; [apply calm_open_session | intros _].
  apply calm_try_finally; [exact H | apply calm_open_session].
Qed.

Lemma calm_update_config (u : App.AgentConfigUpdate) : calm (App.update_config u).
Proof.
  unfold App.update_config.
  apply calm_bind; [apply calm_get_config | intro cfg]. calm_all.
Qed.

Lemma calm_dispatch_approved
    (cl : GmailClient) (approval : ActionApi.ActionApprove) (a : Action) (e : Email) :
  calm (ActionApi.dispatch_approved cl approval a e).
Proof. unfold ActionApi.dispatch_approved. calm_all. Qed.

Lemma calm_approve_action
    (cl : GmailClient) (id : nat) (approval : ActionApi.ActionApprove) :
  calm (ActionApi.approve_action cl id approval).
Proof.
  unfold ActionApi.approve_action.
  apply calm_bind; [apply calm_get_session | intro db].
  destruct (query_action id db) as [a |]; [| apply calm_raise].
  repeat match goal with
         | |- calm (if ?b then _ else _) => destruct b; [calm_all |]
         end.
  cbv zeta.
  repeat (apply calm_bind; [apply calm_update_session | intros _]).
  apply calm_bind; [apply calm_get_session | intro db'].
  destruct (query_email _ db') as [email |]; [| apply calm_raise].
  apply calm_bind; [apply calm_dispatch_approved | intro a'].
  calm_all.
Qed.

Lemma calm_archive_in_gmail (cl : GmailClient) (who : string) (l : list Email) :
  forall n failed, calm (BulkApi.archive_in_gmail cl who l n failed).
Proof.
  induction l as [|email l IH]; intros n failed; cbn [BulkApi.archive_in_gmail].
  - apply calm_ret.
  - apply calm_bind; [calm_all | intro r; apply IH].
Qed.

Lemma calm_bulk_archive_sender
    (cl : GmailClient) (request : BulkApi.ArchiveSenderRequest) :
  calm (BulkApi.bulk_archive_sender cl request).
Proof.
  unfold BulkApi.bulk_archive_sender.
  apply calm_bind; [apply calm_get_session | intro db]. cbv zeta.
  destruct (filter _ (emails db)) as [|first others]; [apply calm_ret |].
  destruct (BulkApi.execute_in_gmail request).
  - apply calm_bind; [apply calm_archive_in_gmail | intro r]. calm_all.
  - calm_all.
Qed.

Lemma calm_execute_one (cl : GmailClient) (a : Action) :
  calm (BulkApi.execute_one cl a).
Proof. unfold BulkApi.execute_one. calm_all. Qed.

Lemma calm_execute_all (cl : GmailClient) (l : list Action) :
  forall n failed, calm (BulkApi.execute_all cl l n failed).
Proof.
  induction l as [|a l IH]; intros n failed; cbn [BulkApi.execute_all].
  - apply calm_ret.
  - apply calm_bind; [| intro r; apply IH].
    apply calm_try_except; [| intro e; calm_all].
    apply calm_bind; [apply calm_execute_one | intros _; apply calm_ret].
Qed.

Lemma calm_execute_pending_actions
    (cl : GmailClient) (request : BulkApi.ExecutePendingRequest) :
  calm (BulkApi.execute_pending_actions cl request).
Proof.
  unfold BulkApi.execute_pending_actions.
  apply calm_bind; [apply calm_get_session | intro db]. cbv zeta.
  match goal with |- calm (match ?l with _ => _ end) => destruct l end;
    [apply calm_ret |].
  apply calm_bind; [apply calm_execute_all | intro r]. calm_all.
Qed.

Lemma calm_respond {A} (handler : M A) : calm handler -> calm (App.respond handler).
Proof.
  intro H. unfold App.respond.
  apply calm_try_except; [| intro; apply calm_ret].
  apply calm_bind; [apply calm_route, H | intros _; apply calm_ret].
Qed.

(** Serving a request awaits no sleep; only the stop request touches the
    [running] flag, and it clears it. *)
Lemma serve_effect (action_client bulk_client : GmailClient) (r : App.Request) (w : World) :
  let w' := snd (App.serve action_client bulk_client r w) in
  sleeps (trace w') = sleeps (trace w)
  /\ running (agent w') = running (agent w) && negb (is_stop r).
Proof.
  destruct r; cbn [App.serve is_stop negb]; rewrite ?andb_true_r.
  - apply calm_respond, calm_update_config.
  - apply calm_respond, calm_approve_action.
  - apply calm_respond, calm_bulk_archive_sender.
  - apply calm_respond, calm_execute_pending_actions.
  - unfold bind, Agent.get_agent, Agent.stop. cbv beta iota.
    destruct (running (agent w)) eqn:Hr; cbn; rewrite ?Hr; auto.
Qed.

Lemma serve_returns (action_client bulk_client : GmailClient) (r : App.Request) (w : World) :
  fst (App.serve action_client bulk_client r w) = Return tt.
Proof.
  assert (Hrespond : forall A (handler : M A) w0,
            fst (App.respond handler w0) = Return tt).
  { intros A handler w0. unfold App.respond, try_except, bind.
    destruct (route handler w0) as [[a | e] w1]; reflexivity. }
  destruct r; cbn [App.serve]; try apply Hrespond.
  unfold bind, Agent.get_agent, Agent.stop. cbv beta iota.
  destruct (running (agent w)); reflexivity.
Qed.

Lemma serve_all_effect
    (action_client bulk_client : GmailClient) (arriving : list App.Request) :
  forall w,
    let run := Agent.for_each arriving (App.serve action_client bulk_client) w in
    fst run = Return tt
    /\ sleeps (trace (snd run)) = sleeps (trace w)
    /\ running (agent (snd run)) =
       running (agent w) && negb (existsb is_stop arriving).
Proof.
  induction arriving as [|r l IH]; intro w; cbn [Agent.for_each existsb].
  - cbn. rewrite andb_true_r. auto.
  - unfold bind.
    destruct (serve_effect action_client bulk_client r w) as [Hs Hr].
    pose proof (serve_returns action_client bulk_client r w) as Hret.
    destruct (App.serve action_client bulk_client r w) as [[[] | e] w1];
      cbn [fst snd] in Hs, Hr, Hret |- *; [| discriminate Hret].
    destruct (IH w1) as (Hret' & Hs' & Hr'). cbv zeta in Hret', Hs', Hr'.
    rewrite Hret', Hs', Hr', Hs, Hr. rewrite negb_orb, andb_assoc. auto.
Qed.

Lemma iteration_returns
    (demo : bool) (cl : GmailClient) (check_interval : Z) (w : World) :
  fst (Agent.iteration demo cl check_interval w) = Return tt.
Proof.
  unfold Agent.iteration, try_except.
  match goal with |- context [match ?m w with _ => _ end] =>
    destruct (m w) as [[[] | e] w1] end; reflexivity.
Qed.

(** A stopped agent leaves the loop at the next test of [self.running]. *)
Lemma rounds_stopped
    (demo : bool) (agent_client action_client bulk_client : GmailClient)
    (check_interval : Z) (schedule : list (list App.Request)) (w : World) :
  running (agent w) = false ->
  App.rounds demo agent_client action_client bulk_client check_interval schedule w
  = (Return tt, w).
Proof.
  intro Hr. destruct schedule as [|arriving later]; cbn [App.rounds].
  - reflexivity.
  - unfold bind, Agent.get_agent. rewrite Hr. reflexivity.
Qed.

(** While the agent runs, every round adds one sleep of the length the
    loop was started with. *)
Lemma rounds_sleeps
    (demo : bool) (agent_client action_client bulk_client : GmailClient)
    (check_interval : Z) (schedule : list (list App.Request)) :
  forall w,
    running (agent w) = true ->
    sleeps (trace (snd (App.rounds demo agent_client action_client bulk_client
                                   check_interval schedule w)))
    = (sleeps (trace w) ++ repeat check_interval (rounds_run schedule))%list.
Proof.
  induction schedule as [|arriving later IH]; intros w Hrun;
    cbn [App.rounds rounds_run repeat].
  - cbn. rewrite app_nil_r. reflexivity.
  - rewrite (bind_returned Agent.get_agent _ w w (agent w) eq_refl). rewrite Hrun.
    destruct (iteration_sleeps_once demo agent_client check_interval w) as [Hs1 Hr1].
    pose proof (iteration_returns demo agent_client check_interval w) as Hret1.
    destruct (Agent.iteration demo agent_client check_interval w) as [r1 w1] eqn:E1.
    cbn [fst snd] in Hs1, Hr1, Hret1. subst r1.
    rewrite (bind_returned _ _ _ _ _ E1).
    destruct (serve_all_effect action_client bulk_client arriving w1)
      as (Hret2 & Hs2 & Hr2).
    destruct (Agent.for_each arriving (App.serve action_client bulk_client) w1)
      as [r2 w2] eqn:E2.
    cbn [fst snd] in Hret2, Hs2, Hr2. subst r2.
    rewrite (bind_returned _ _ _ _ _ E2).
    rewrite Hr1, Hrun in Hr2. cbn [andb] in Hr2.
    destruct (existsb is_stop arriving); cbn [negb] in Hr2.
    + rewrite (rounds_stopped _ _ _ _ _ _ _ Hr2). cbn [snd repeat].
      rewrite Hs2, Hs1. reflexivity.
    + rewrite (IH w2 Hr2), Hs2, Hs1, <- app_assoc. reflexivity.
Qed.

(** C8, as the code has it. [run_loop] sleeps for its [check_interval]
    argument in every round, whatever requests (configuration updates
    among them) are served in between: the sleeps it adds are as many
    copies of that value as rounds were run. *)
Theorem run_loop_sleeps_fixed_interval
    (demo : bool) (agent_client action_client bulk_client : GmailClient)
    (check_interval : Z) (schedule : list (list App.Request)) (w : World) :
  sleeps (trace (snd (App.run_loop demo agent_client action_client bulk_client
                                   check_interval schedule w)))
  = (sleeps (trace w) ++ repeat check_interval (rounds_run schedule))%list.
Proof.
  unfold App.run_loop.
  rewrite (bind_returned Agent.get_agent _ w w (agent w) eq_refl).
  set (w0 := mkWorld (store w) (session w) (trace w) (mkAgent (seen_emails (agent w)) true)).
  rewrite (bind_returned (Agent.set_agent _) _ w w0 tt eq_refl).
  apply (rounds_sleeps demo agent_client action_client bulk_client
                       check_interval schedule w0).
  reflexivity.
Qed.

(** C8, as stated, fails: the application starts the loop, and while the
    first round sleeps the configured interval is set to 5 seconds; the
    configuration then asks for 5, and the next round still sleeps 60. *)
Lemma run_loop_keeps_initial_interval :
  let cl := Samples.answering "ok" in
  let update := App.mkUpdate None None (Some 5%Z) None None None None in
  let w := Samples.world_of (mkDB [] [] None 1) in
  let after_first := snd (App.lifespan false cl cl cl [[App.PatchConfig update]] w) in
  let after_second := snd (App.lifespan false cl cl cl [[App.PatchConfig update]; []] w) in
  configured_interval (store after_first) = 5%Z
  /\ sleeps (trace after_first) = [60%Z]
  /\ sleeps (trace after_second) = [60%Z; 60%Z]
  /\ nth 1 (sleeps (trace after_second)) 0%Z <> configured_interval (store after_first).
Proof. vm_compute. repeat split; discriminate. Qed.

(* ------------------------------------------------------------------ *)
(** ** The other routes of app/api/action.py *)

Lemma query_action_insert_old
    (id : nat) (eid ty st : string) (sugg why : option string) (db : DB) :
  id <> next_action_id db ->
  query_action id (insert_action eid ty st sugg why db) = query_action id db.
Proof.
  intro Hne. unfold query_action, insert_action; cbn [actions].
  induction (actions db) as [|x l IH]; cbn [app find a_id].
  - destruct (Nat.eqb_spec (next_action_id db) id); [congruence | reflexivity].
  - destruct (Nat.eqb (a_id x) id); [reflexivity | exact IH].
Qed.

Lemma query_action_insert_new
    (eid ty st : string) (sugg why : option string) (db : DB) :
  Forall (fun a => a_id a < next_action_id db) (actions db) ->
  query_action (next_action_id db) (insert_action eid ty st sugg why db)
  = Some (mkAction (next_action_id db) eid ty st sugg None why).
Proof.
  intro Hlt. unfold query_action, insert_action; cbn [actions].
  induction Hlt as [|x l Hx _ IH]; cbn [app find a_id].
  - rewrite Nat.eqb_refl. reflexivity.
  - destruct (Nat.eqb_spec (a_id x) (next_action_id db)); [lia | exact IH].
Qed.

Lemma query_action_remove (id id' : nat) (db : DB) :
  query_action id' (ActionRoutes.remove_action id db)
  = if Nat.eqb id' id then None else query_action id' db.
Proof.
  unfold query_action, ActionRoutes.remove_action, set_actions; cbn [actions].
  induction (actions db) as [|x l IH]; cbn [filter find].
  - destruct (Nat.eqb id' id); reflexivity.
  - destruct (Nat.eqb_spec (a_id x) id) as [Hx | Hx]; cbn [negb find].
    + rewrite IH. destruct (Nat.eqb_spec id' id) as [-> | Hne]; [reflexivity |].
      destruct (Nat.eqb_spec (a_id x) id'); [congruence | reflexivity].
    + destruct (Nat.eqb_spec (a_id x) id') as [Hx' | Hx'].
      * destruct (Nat.eqb_spec id' id); [congruence | reflexivity].
      * exact IH.
Qed.

(** X1. An action id that is not in the table: [GET /{id}],
    [POST /{id}/approve] and [DELETE /{id}] all answer 404
    [Action not found], and none of them stores or sends anything. *)
Theorem unknown_action_not_found
    (cl : GmailClient) (id : nat) (approval : ActionApi.ActionApprove) (w : World) :
  query_action id (store w) = None ->
  route (ActionRoutes.get_action id) w
    = (Raise (HTTPException 404 "Action not found"), closed w)
  /\ route (ActionApi.approve_action cl id approval) w
    = (Raise (HTTPException 404 "Action not found"), closed w)
  /\ route (ActionRoutes.delete_action id) w
    = (Raise (HTTPException 404 "Action not found"), closed w).
Proof.
  intro Hq. rewrite !route_run.
  unfold ActionRoutes.get_action, ActionApi.approve_action, ActionRoutes.delete_action.
  rewrite !bind_get_session. cbn [session]. rewrite Hq.
  split_all; reflexivity.
Qed.

Lemma unknown_action_not_found_witness :
  let w := Samples.world_of
             (mkDB [] [Samples.stored_action "notify" "pending" None] None 2) in
  route (ActionRoutes.get_action 7) w
    = (Raise (HTTPException 404 "Action not found"), closed w)
  /\ route (ActionApi.approve_action (Samples.answering "ok") 7
              (ActionApi.mkApprove true None)) w
    = (Raise (HTTPException 404 "Action not found"), closed w)
  /\ route (ActionRoutes.delete_action 7) w
    = (Raise (HTTPException 404 "Action not found"), closed w).
Proof.
  intro w.
  exact (unknown_action_not_found (Samples.answering "ok") 7
           (ActionApi.mkApprove true None) w eq_refl).
Defined.

(** X2. [POST /] on a well-formed table, for a stored message (or with
    foreign keys not enforced): the action is stored as [pending] under
    the serial, [GET /{id}] then answers exactly that row, and every other
    id answers as before. *)
Theorem create_action_then_get
    (fk : bool) (act : ActionRoutes.ActionCreate) (w : World) :
  well_formed (store w) ->
  query_email (ActionRoutes.new_email_id act) (store w) <> None \/ fk = false ->
  let created :=
    mkAction (next_action_id (store w)) (ActionRoutes.new_email_id act)
             (ActionRoutes.new_action_type act) "pending"
             (ActionRoutes.new_suggested_reply act) None
             (ActionRoutes.new_reason act) in
  let run := route (ActionRoutes.create_action fk act) w in
  fst run = Return created
  /\ fst (route (ActionRoutes.get_action (a_id created)) (snd run)) = Return created
  /\ forall id, id <> a_id created ->
       query_action id (store (snd run)) = query_action id (store w).
Proof.
  intros (_ & Hlt & _) Hfk created run.
  assert (Hrun : run = (Return created,
                        closed (mkWorld
                                  (insert_action (ActionRoutes.new_email_id act)
                                     (ActionRoutes.new_action_type act) "pending"
                                     (ActionRoutes.new_suggested_reply act)
                                     (ActionRoutes.new_reason act) (store w))
                                  (store w) (trace w) (agent w)))).
  { unfold run. rewrite route_run. unfold ActionRoutes.create_action.
    rewrite bind_get_session. cbn [session]. cbv zeta.
    destruct (query_email (ActionRoutes.new_email_id act) (store w)) eqn:Hq.
    - reflexivity.
    - destruct Hfk as [Hfk | ->]; [congruence | reflexivity]. }
  rewrite Hrun. cbn [fst snd]. split_all.
  - reflexivity.
  - rewrite route_run. unfold ActionRoutes.get_action.
    rewrite bind_get_session. cbn [session store closed a_id created].
    rewrite (query_action_insert_new _ _ _ _ _ _ Hlt). reflexivity.
  - intros id Hne. cbn [store closed].
    apply query_action_insert_old. exact Hne.
Qed.

Lemma create_action_then_get_witness :
  let act := ActionRoutes.mkCreate "m1" "notify" (Some "by hand") None in
  let w := Samples.world_of
             (mkDB [Samples.stored_email "boss@company.com" false]
                   [Samples.stored_action "notify" "executed" None] None 2) in
  let created := mkAction 2 "m1" "notify" "pending" None None (Some "by hand") in
  let run := route (ActionRoutes.create_action true act) w in
  fst run = Return created
  /\ fst (route (ActionRoutes.get_action 2) (snd run)) = Return created
  /\ forall id, id <> 2 ->
       query_action id (store (snd run)) = query_action id (store w).
Proof.
  intros act w created run.
  assert (Hwf : well_formed (store w)).
  { unfold well_formed; cbn. split_all.
    - repeat constructor. intros [].
    - repeat constructor.
    - repeat constructor. intros []. }
  assert (Hq : query_email (ActionRoutes.new_email_id act) (store w) <> None
               \/ true = false).
  { left. cbn. discriminate. }
  exact (create_action_then_get true act w Hwf Hq).
Defined.

(** X3. [DELETE /{id}] of a stored action answers [Action deleted];
    afterwards [GET /{id}] answers 404 and every other id answers as
    before. *)
Theorem delete_action_then_get (id : nat) (w : World) (a : Action) :
  query_action id (store w) = Some a ->
  let run := route (ActionRoutes.delete_action id) w in
  fst run = Return "Action deleted"
  /\ fst (route (ActionRoutes.get_action id) (snd run))
     = Raise (HTTPException 404 "Action not found")
  /\ forall id', id' <> id ->
       query_action id' (store (snd run)) = query_action id' (store w).
Proof.
  intros Hq run.
  pose proof (query_action_id _ _ _ Hq) as Hid.
  assert (Hrun : run = (Return "Action deleted",
                        closed (mkWorld (ActionRoutes.remove_action id (store w))
                                        (store w) (trace w) (agent w)))).
  { unfold run. rewrite route_run. unfold ActionRoutes.delete_action.
    rewrite bind_get_session. cbn [session]. rewrite Hq, Hid. reflexivity. }
  rewrite Hrun. cbn [fst snd]. split_all.
  - reflexivity.
  - rewrite route_run. unfold ActionRoutes.get_action.
    rewrite bind_get_session. cbn [session store closed].
    rewrite query_action_remove, Nat.eqb_refl. reflexivity.
  - intros id' Hne. cbn [store closed]. rewrite query_action_remove.
    destruct (Nat.eqb_spec id' id); [contradiction | reflexivity].
Qed.

Lemma delete_action_then_get_witness :
  let w := Samples.world_of
             (mkDB [] [Samples.stored_action "notify" "pending" None] None 2) in
  let run := route (ActionRoutes.delete_action 1) w in
  fst run = Return "Action deleted"
  /\ fst (route (ActionRoutes.get_action 1) (snd run))
     = Raise (HTTPException 404 "Action not found")
  /\ forall id', id' <> 1 ->
       query_action id' (store (snd run)) = query_action id' (store w).
Proof.
  intro w.
  exact (delete_action_then_get 1 w (Samples.stored_action "notify" "pending" None)
                                eq_refl).
Defined.

(** X4. The four counters of [GET /stats/summary] add up to [total] less
    the actions in any other status ([failed], for one): those are in
    [total] and in no counter. *)
Theorem get_stats_accounts (w : World) :
  exists stats,
    ActionRoutes.get_stats w = (Return stats, w)
    /\ ActionRoutes.total stats =
       ActionRoutes.pending stats + ActionRoutes.approved stats
       + ActionRoutes.executed stats + ActionRoutes.rejected stats
       + uncounted (session w).
Proof.
  eexists. split; [reflexivity |].
  cbn [ActionRoutes.total ActionRoutes.pending ActionRoutes.approved
       ActionRoutes.executed ActionRoutes.rejected].
  unfold ActionRoutes.count_status, uncounted.
  set (other := fun a => negb (mem (status a)
                                   ["pending"; "approved"; "executed"; "rejected"])).
  induction (actions (session w)) as [|a l IH]; [reflexivity |].
  cbn [filter length].
  assert (Hother : other a =
                   negb ((status a =? "pending") || (status a =? "approved")
                         || (status a =? "executed") || (status a =? "rejected"))).
  { unfold other, mem. cbn [existsb]. rewrite orb_false_r, !orb_assoc. reflexivity. }
  rewrite Hother.
  destruct (status a =? "pending") eqn:E1.
  { apply String.eqb_eq in E1. rewrite E1. cbn [String.eqb Ascii.eqb Bool.eqb orb negb length].
    lia. }
  destruct (status a =? "approved") eqn:E2.
  { apply String.eqb_eq in E2. rewrite E2. cbn [String.eqb Ascii.eqb Bool.eqb orb negb length].
    lia. }
  destruct (status a =? "executed") eqn:E3.
  { apply String.eqb_eq in E3. rewrite E3. cbn [String.eqb Ascii.eqb Bool.eqb orb negb length].
    lia. }
  destruct (status a =? "rejected") eqn:E4; cbn [orb negb length]; lia.
Qed.

(* ------------------------------------------------------------------ *)
(** ** Approving: the kinds and the provider's answers *)

Lemma query_email_save (e' : Email) (db : DB) :
  query_email (e_id e') db <> None ->
  query_email (e_id e') (save_email e' db) = Some e'.
Proof.
  unfold query_email, save_email, set_emails; cbn [emails].
  induction (emails db) as [|x l IH]; cbn [map find]; [congruence |].
  destruct (e_id x =? e_id e') eqn:E; cbn [find].
  - rewrite String.eqb_refl. reflexivity.
  - rewrite E. exact IH.
Qed.

Lemma query_email_id (id : string) (db : DB) (e : Email) :
  query_email id db = Some e -> e_id e = id.
Proof.
  unfold query_email. intro H. apply find_some in H.
  apply String.eqb_eq, H.
Qed.

(** A [pending] action approved for a stored message reaches the
    dispatch on its kind with the status [approved] written to the session. *)
Lemma approve_action_dispatches
    (cl : GmailClient) (id : nat) (approval : ActionApi.ActionApprove)
    (w : World) (a : Action) (email : Email) :
  query_action id (session w) = Some a ->
  status a = "pending" ->
  ActionApi.approved approval = true ->
  query_email (email_id a) (session w) = Some email ->
  let a1 := with_status "approved" a in
  let a2 := if truthy_opt (ActionApi.edited_reply approval)
            then with_actual_reply (ActionApi.edited_reply approval) a1 else a1 in
  ActionApi.approve_action cl id approval w =
  (action <- ActionApi.dispatch_approved cl approval a2 email ;;
   update_session (save_email (with_processed true email)) ;;;
   update_session (save_action (with_status "executed" action)) ;;;
   commit ;;;
   ret (with_status "executed" action))
    (mkWorld (store w) (save_action a2 (save_action a1 (session w)))
             (trace w) (agent w)).
Proof.
  intros Hq Hs Ha Hemail a1 a2.
  unfold ActionApi.approve_action.
  rewrite bind_get_session.
  rewrite Hq, Hs, Ha.
  change (mem "pending" ["executed"; "approved"]) with false.
  change ("pending" =? "rejected") with false.
  change ("pending" =? "pending") with true.
  cbn [negb]. cbv iota zeta. fold a1. fold a2.
  assert (Heid : email_id a2 = email_id a).
  { unfold a2, a1. destruct (truthy_opt _); reflexivity. }
  rewrite (bind_returned (update_session (save_action a1)) _ w
             (mkWorld (store w) (save_action a1 (session w)) (trace w) (agent w))
             tt eq_refl).
  rewrite (bind_returned (update_session (save_action a2)) _
             (mkWorld (store w) (save_action a1 (session w)) (trace w) (agent w))
             (mkWorld (store w) (save_action a2 (save_action a1 (session w)))
                      (trace w) (agent w))
             tt eq_refl).
  rewrite bind_get_session. cbn [session]. rewrite Heid.
  change (query_email (email_id a) (save_action a2 (save_action a1 (session w))))
    with (query_email (email_id a) (session w)).
  rewrite Hemail. reflexivity.
Qed.

(** X5. Approving a [pending] action of a kind other than [reply] and
    [archive] (a [notify], say) for a stored message: no call reaches the
    mail client, the action is stored as [executed] and the message as
    processed. *)
Theorem approve_action_plain_kind
    (cl : GmailClient) (id : nat) (approval : ActionApi.ActionApprove)
    (w : World) (a : Action) (email : Email) :
  query_action id (store w) = Some a ->
  status a = "pending" ->
  ActionApi.approved approval = true ->
  query_email (email_id a) (store w) = Some email ->
  action_type a <> "reply" ->
  action_type a <> "archive" ->
  let run := route (ActionApi.approve_action cl id approval) w in
  trace (snd run) = trace w
  /\ option_map status (query_action id (store (snd run))) = Some "executed"
  /\ query_email (email_id a) (store (snd run)) = Some (with_processed true email).
Proof.
  intros Hq Hs Ha Hemail Hnr Hna run. unfold run.
  rewrite route_run.
  change (mkWorld (store w) (store w) (trace w) (agent w)) with (closed w).
  rewrite (approve_action_dispatches cl id approval (closed w) a email Hq Hs Ha Hemail).
  cbv zeta. unfold closed. cbn [store session trace agent].
  set (a1 := with_status "approved" a).
  set (a2 := if truthy_opt (ActionApi.edited_reply approval)
             then with_actual_reply (ActionApi.edited_reply approval) a1 else a1).
  assert (Hsame : action_type a2 = action_type a /\ a_id a2 = id).
  { pose proof (query_action_id _ _ _ Hq) as Hid.
    unfold a2, a1. destruct (truthy_opt _); split; assumption || reflexivity. }
  destruct Hsame as [Hty Hid2].
  apply String.eqb_neq in Hnr. apply String.eqb_neq in Hna.
  unfold ActionApi.dispatch_approved. rewrite Hty, Hnr, Hna.
  unfold bind, ret, update_session, commit. cbn [fst snd store session trace agent].
  split_all.
  - reflexivity.
  - replace id with (a_id (with_status "executed" a2)) by exact Hid2.
    rewrite query_action_save; [reflexivity |].
    cbn [a_id with_status].
    change (query_action (a_id a2)
              (save_email (with_processed true email)
                          (save_action a2 (save_action a1 (store w)))))
      with (query_action (a_id a2) (save_action a2 (save_action a1 (store w)))).
    apply query_action_saved_ne.
    rewrite Hid2. replace id with (a_id a1) by (apply (query_action_id _ _ _ Hq)).
    apply query_action_saved_ne. unfold a1; cbn [a_id with_status].
    rewrite (query_action_id _ _ _ Hq), Hq. discriminate.
  - pose proof (query_email_id _ _ _ Hemail) as Heid.
    change (query_email (email_id a)
              (save_action (with_status "executed" a2)
                 (save_email (with_processed true email)
                    (save_action a2 (save_action a1 (store w))))))
      with (query_email (email_id a)
              (save_email (with_processed true email) (store w))).
    replace (email_id a) with (e_id (with_processed true email)) by exact Heid.
    apply query_email_save. cbn [e_id with_processed]. rewrite Heid, Hemail.
    discriminate.
Qed.

Lemma approve_action_plain_kind_witness :
  let a := Samples.stored_action "notify" "pending" None in
  let email := Samples.stored_email "boss@company.com" false in
  let w := Samples.world_of (mkDB [email] [a] None 2) in
  let run := route (ActionApi.approve_action Samples.unreachable_model 1
                      (ActionApi.mkApprove true None)) w in
  trace (snd run) = trace w
  /\ option_map status (query_action 1 (store (snd run))) = Some "executed"
  /\ query_email "m1" (store (snd run)) = Some (with_processed true email).
Proof.
  intros a email w run.
  refine (approve_action_plain_kind Samples.unreachable_model 1
            (ActionApi.mkApprove true None) w a email
            eq_refl eq_refl eq_refl eq_refl _ _); discriminate.
Defined.

(** X6. Approving a [pending] reply action when [send_email] raises,
    answers nothing, or answers a message without id: the request fails
    after the call to [send_email] was made, and nothing is stored, so the
    action is still [pending] and can be approved (and sent) again. *)
Theorem approve_action_send_without_id
    (cl : GmailClient) (id : nat) (approval : ActionApi.ActionApprove)
    (w : World) (a : Action) (email : Email) :
  query_action id (store w) = Some a ->
  status a = "pending" ->
  ActionApi.approved approval = true ->
  query_email (email_id a) (store w) = Some email ->
  action_type a = "reply" ->
  (forall new_id,
     send_email cl (trace w) (from_address email) ("Re: " ++ subject email)
                (suggested_reply a) (thread_id email) = inr (Some new_id) ->
     truthy new_id = false) ->
  let run := route (ActionApi.approve_action cl id approval) w in
  (exists e, fst run = Raise e)
  /\ store (snd run) = store w
  /\ trace (snd run)
     = (trace w ++ [EvSendEmail (from_address email) ("Re: " ++ subject email)
                                (suggested_reply a) (thread_id email)])%list.
Proof.
  intros Hq Hs Ha Hemail Hty Hnoid run. unfold run.
  rewrite route_run.
  change (mkWorld (store w) (store w) (trace w) (agent w)) with (closed w).
  rewrite (approve_action_dispatches cl id approval (closed w) a email Hq Hs Ha Hemail).
  cbv zeta. unfold closed. cbn [store session trace agent].
  set (a1 := with_status "approved" a).
  set (a2 := if truthy_opt (ActionApi.edited_reply approval)
             then with_actual_reply (ActionApi.edited_reply approval) a1 else a1).
  assert (Hsame : action_type a2 = "reply" /\ suggested_reply a2 = suggested_reply a).
  { unfold a2, a1. destruct (truthy_opt _); split; assumption || reflexivity. }
  destruct Hsame as [Hty2 Hsug].
  set (w0 := mkWorld (store w) (save_action a2 (save_action a1 (store w)))
                     (trace w) (agent w)).
  set (ev := EvSendEmail (from_address email) ("Re: " ++ subject email)
                         (suggested_reply a) (thread_id email)).
  assert (Hd : exists e w1,
            ActionApi.dispatch_approved cl approval a2 email w0 = (Raise e, w1)
            /\ store w1 = store w /\ trace w1 = (trace w ++ [ev])%list).
  { unfold ActionApi.dispatch_approved. rewrite Hty2, Hsug.
    change ("reply" =? "reply") with true. cbv iota. fold ev.
    destruct (send_email cl (trace w) (from_address email) ("Re: " ++ subject email)
                         (suggested_reply a) (thread_id email))
      as [e | [new_id |]] eqn:Hsend.
    - eexists; eexists; split_all.
      + apply bind_raised. unfold call. cbn [trace w0]. rewrite Hsend. reflexivity.
      + reflexivity.
      + reflexivity.
    - eexists; eexists; split_all.
      + erewrite bind_returned;
          [| unfold call; cbn [trace w0]; rewrite Hsend; reflexivity].
        erewrite bind_returned; [| reflexivity].
        rewrite (Hnoid new_id eq_refl). reflexivity.
      + reflexivity.
      + reflexivity.
    - eexists; eexists; split_all.
      + erewrite bind_returned;
          [| unfold call; cbn [trace w0]; rewrite Hsend; reflexivity].
        erewrite bind_returned; [| reflexivity].
        reflexivity.
      + reflexivity.
      + reflexivity. }
  destruct Hd as (e & w1 & Hd & Hst & Htr).
  rewrite (bind_raised _ _ _ _ _ Hd). cbn [fst snd store trace].
  split_all; [eexists; reflexivity | exact Hst | exact Htr].
Qed.

Lemma approve_action_send_without_id_witness :
  let cl := mkClient (fun _ _ _ => inr []) (fun _ _ => inl (ClientError "down"))
                     (fun _ _ => inl (ClientError "down"))
                     (fun _ _ => inl (ClientError "down"))
                     (fun _ _ _ _ _ => inr None)
                     (fun _ _ => inr tt) (fun _ _ => inr tt) in
  let a := Samples.stored_action "reply" "pending" (Some "Sure.") in
  let email := Samples.stored_email "vip@partner.com" false in
  let w := Samples.world_of (mkDB [email] [a] None 2) in
  let run := route (ActionApi.approve_action cl 1 (ActionApi.mkApprove true None)) w in
  (exists e, fst run = Raise e)
  /\ store (snd run) = store w
  /\ trace (snd run)
     = [EvSendEmail "vip@partner.com" "Re: Hello" (Some "Sure.") "t1"].
Proof.
  intros cl a email w run.
  refine (approve_action_send_without_id cl 1 (ActionApi.mkApprove true None) w a email
            eq_refl eq_refl eq_refl eq_refl eq_refl _).
  intros new_id H. discriminate H.
Defined.

(** X7. Approving a [pending] archive action for a stored message makes
    exactly one call, [modify] on that message, and no [send_email]; if the
    call returns the action is stored as [executed], if it raises nothing
    is stored. *)
Theorem approve_action_archive_kind
    (cl : GmailClient) (id : nat) (approval : ActionApi.ActionApprove)
    (w : World) (a : Action) (email : Email) :
  query_action id (store w) = Some a ->
  status a = "pending" ->
  ActionApi.approved approval = true ->
  query_email (email_id a) (store w) = Some email ->
  action_type a = "archive" ->
  let run := route (ActionApi.approve_action cl id approval) w in
  trace (snd run) = (trace w ++ [EvModify (e_id email)])%list
  /\ match modify cl (trace w) (e_id email) with
     | inr _ => option_map status (query_action id (store (snd run))) = Some "executed"
     | inl e => fst run = Raise e /\ store (snd run) = store w
     end.
Proof.
  intros Hq Hs Ha Hemail Hty run. unfold run.
  rewrite route_run.
  change (mkWorld (store w) (store w) (trace w) (agent w)) with (closed w).
  rewrite (approve_action_dispatches cl id approval (closed w) a email Hq Hs Ha Hemail).
  cbv zeta. unfold closed. cbn [store session trace agent].
  set (a1 := with_status "approved" a).
  set (a2 := if truthy_opt (ActionApi.edited_reply approval)
             then with_actual_reply (ActionApi.edited_reply approval) a1 else a1).
  pose proof (query_action_id _ _ _ Hq) as Hid.
  assert (Hsame : action_type a2 = "archive" /\ a_id a2 = id).
  { unfold a2, a1. destruct (truthy_opt _); split; assumption || reflexivity. }
  destruct Hsame as [Hty2 Hid2].
  set (w0 := mkWorld (store w) (save_action a2 (save_action a1 (store w)))
                     (trace w) (agent w)).
  set (w1 := mkWorld (store w) (save_action a2 (save_action a1 (store w)))
                     (trace w ++ [EvModify (e_id email)]) (agent w)).
  assert (Hd : ActionApi.dispatch_approved cl approval a2 email w0 =
               (match modify cl (trace w) (e_id email) with
                | inl e => Raise e
                | inr _ => Return a2
                end, w1)).
  { unfold ActionApi.dispatch_approved. rewrite Hty2.
    change ("archive" =? "reply") with false.
    change ("archive" =? "archive") with true. cbv iota.
    unfold bind, call, ret. cbn [trace w0 store session agent].
    destruct (modify cl (trace w) (e_id email)) as [e | []]; reflexivity. }
  destruct (modify cl (trace w) (e_id email)) as [e | []].
  - rewrite (bind_raised _ _ _ _ _ Hd). cbn. auto.
  - rewrite (bind_returned _ _ _ _ _ Hd).
    unfold bind, ret, update_session, commit. cbn [fst snd store session trace agent w1].
    split; [reflexivity |].
    replace id with (a_id (with_status "executed" a2)) by exact Hid2.
    rewrite query_action_save; [reflexivity |].
    cbn [a_id with_status].
    change (query_action (a_id a2)
              (save_email (with_processed true email)
                          (save_action a2 (save_action a1 (store w)))))
      with (query_action (a_id a2) (save_action a2 (save_action a1 (store w)))).
    apply query_action_saved_ne.
    rewrite Hid2. replace id with (a_id a1) by exact Hid.
    apply query_action_saved_ne. unfold a1; cbn [a_id with_status].
    rewrite Hid, Hq. discriminate.
Qed.

Lemma approve_action_archive_kind_witness :
  let cl := Samples.answering "ok" in
  let a := Samples.stored_action "archive" "pending" None in
  let email := Samples.stored_email "ads@deals.com" false in
  let w := Samples.world_of (mkDB [email] [a] None 2) in
  let run := route (ActionApi.approve_action cl 1 (ActionApi.mkApprove true None)) w in
  trace (snd run) = [EvModify "m1"]
  /\ option_map status (query_action 1 (store (snd run))) = Some "executed".
Proof.
  intros cl a email w run.
  exact (approve_action_archive_kind cl 1 (ActionApi.mkApprove true None) w a email
           eq_refl eq_refl eq_refl eq_refl eq_refl).
Defined.

(* ------------------------------------------------------------------ *)
(** ** What a computation keeps *)

Lemma preserves_ret {A} (I : World -> Prop) (a : A) : preserves I (ret a).
Proof. intros w H. exact H. Qed.

Lemma preserves_raise {A} (I : World -> Prop) (e : exn) : preserves I (@raise A e).
Proof. intros w H. exact H. Qed.

Lemma preserves_get_session (I : World -> Prop) : preserves I get_session.
Proof. intros w H. exact H. Qed.

Lemma preserves_get_agent (I : World -> Prop) : preserves I Agent.get_agent.
Proof. intros w H. exact H. Qed.

Lemma preserves_bind {A B} (I : World -> Prop) (m : M A) (k : A -> M B) :
  preserves I m -> (forall a, preserves I (k a)) -> preserves I (bind m k).
Proof.
  intros Hm Hk w H. unfold bind. specialize (Hm w H).
  destruct (m w) as [[a | e] w1]; cbn [snd] in *; [apply Hk |]; assumption.
Qed.

Lemma preserves_try_except {A} (I : World -> Prop) (m : M A) (h : exn -> M A) :
  preserves I m -> (forall e, preserves I (h e)) -> preserves I (try_except m h).
Proof.
  intros Hm Hh w H. unfold try_except. specialize (Hm w H).
  destruct (m w) as [[a | e] w1]; cbn [snd] in *; [| apply Hh]; assumption.
Qed.

Lemma preserves_try_finally {A} (I : World -> Prop) (m : M A) (f : M unit) :
  preserves I m -> preserves I f -> preserves I (try_finally m f).
Proof.
  intros Hm Hf w H. unfold try_finally. specialize (Hm w H).
  destruct (m w) as [r w1]; cbn [snd] in *. specialize (Hf w1 Hm).
  destruct (f w1) as [[[] | e] w2]; exact Hf.
Qed.

Lemma preserves_for_each {A} (I : World -> Prop) (l : list A) (body : A -> M unit) :
  (forall x, preserves I (body x)) -> preserves I (Agent.for_each l body).
Proof.
  intro Hb. induction l as [|x l IH]; cbn [Agent.for_each].
  - apply preserves_ret.
  - apply preserves_bind; [apply Hb | intros _; exact IH].
Qed.

(** Properties of the trace are kept by all that is silent, and by a call
    whose event they tolerate. *)
Lemma trace_kept_update_session (P : list Event -> Prop) (f : DB -> DB) :
  preserves (on_trace P) (update_session f).
Proof. intros w H. exact H. Qed.

Lemma trace_kept_commit (P : list Event -> Prop) : preserves (on_trace P) commit.
Proof. intros w H. exact H. Qed.

Lemma trace_kept_open_session (P : list Event -> Prop) :
  preserves (on_trace P) open_session.
Proof. intros w H. exact H. Qed.

Lemma trace_kept_set_agent (P : list Event -> Prop) (ag : AgentService) :
  preserves (on_trace P) (Agent.set_agent ag).
Proof. intros w H. exact H. Qed.

Lemma trace_kept_call {A} (P : list Event -> Prop) (ev : Event)
    (answer : list Event -> exn + A) :
  (forall t, P t -> P (t ++ [ev])%list) ->
  preserves (on_trace P) (call ev answer).
Proof.
  intros Hev w H. unfold call, on_trace in *.
  destruct (answer (trace w)); cbn [snd trace]; apply Hev, H.
Qed.

(** Properties of the tables are kept by calls, and by an update they
    tolerate. *)
Lemma tables_kept_update_session (P : DB -> Prop) (f : DB -> DB) :
  (forall db, P db -> P (f db)) ->
  preserves (on_tables P) (update_session f).
Proof. intros Hf w [H1 H2]. split; [exact H1 | apply Hf, H2]. Qed.

Lemma tables_kept_commit (P : DB -> Prop) : preserves (on_tables P) commit.
Proof. intros w [H1 H2]. split; exact H2. Qed.

Lemma tables_kept_open_session (P : DB -> Prop) : preserves (on_tables P) open_session.
Proof. intros w [H1 H2]. split; exact H1. Qed.

Lemma tables_kept_set_agent (P : DB -> Prop) (ag : AgentService) :
  preserves (on_tables P) (Agent.set_agent ag).
Proof. intros w H. exact H. Qed.

Lemma tables_kept_call {A} (P : DB -> Prop) (ev : Event)
    (answer : list Event -> exn + A) :
  preserves (on_tables P) (call ev answer).
Proof.
  intros w H. unfold call. destruct (answer (trace w)); exact H.
Qed.

(** The shape of the code decides; [leaf] settles the updates and calls. *)
Ltac keep_step leaf :=
  first
    [ apply preserves_ret | apply preserves_raise | apply preserves_get_session
    | apply preserves_get_agent
    | apply preserves_bind; [| intro]
    | apply preserves_try_except; [| intro]
    | apply preserves_try_finally
    | apply preserves_for_each; intro
    | leaf
    | match goal with
      | |- preserves _ (match ?x with _ => _ end) => destruct x
      | |- preserves _ (if ?b then _ else _) => destruct b
      end
    | progress cbv zeta ].

Ltac keep_all leaf := repeat keep_step leaf.

Ltac trace_leaf tolerated :=
  first
    [ apply trace_kept_update_session | apply trace_kept_commit
    | apply trace_kept_open_session | apply trace_kept_set_agent
    | apply trace_kept_call; tolerated ].

Ltac tables_leaf tolerated :=
  first
    [ apply tables_kept_commit | apply tables_kept_open_session
    | apply tables_kept_set_agent | apply tables_kept_call
    | apply tables_kept_update_session; tolerated ].

(* ------------------------------------------------------------------ *)
(** ** One round of the Triage Loop *)

Lemma trace_kept_emit (P : list Event -> Prop) (ev : Event) :
  (forall t, P t -> P (t ++ [ev])%list) ->
  preserves (on_trace P) (emit ev).
Proof. intros Hev w H. apply Hev, H. Qed.

Lemma fetched_app (t1 t2 : list Event) :
  fetched (t1 ++ t2) = (fetched t1 ++ fetched t2)%list.
Proof.
  induction t1 as [|ev t1 IH]; simpl; [reflexivity |].
  destruct ev; simpl; rewrite ?IH; reflexivity.
Qed.

(** X8. In demo mode a round of the loop does nothing but sleep:
    [check_for_new_emails] raises before it returns any id (on the unbound
    [e] when nothing was seen yet, on [e.id] of a string otherwise), so no
    message is processed, no client is called and no table changes. *)
Theorem demo_round_only_sleeps (cl : GmailClient) (check_interval : Z) (w : World) :
  (exists e, fst (Agent.check_for_new_emails true cl w) = Raise e)
  /\ Agent.iteration true cl check_interval w
     = (Return tt,
        mkWorld (store w) (store w) (trace w ++ [EvSleep check_interval]) (agent w)).
Proof.
  split.
  - unfold Agent.check_for_new_emails, bind, Agent.get_agent.
    destruct (seen_emails (agent w)); eexists; reflexivity.
  - unfold Agent.iteration, Agent.check_for_new_emails, try_except, try_finally,
      bind, open_session, close_session, open_session, Agent.get_agent,
      Agent.sleep, emit.
    cbn [agent]. destruct (seen_emails (agent w)); reflexivity.
Qed.

(** X9. A round of the loop never raises, whatever the client raises and
    whatever the tables hold, and it ends in exactly one sleep. *)
Theorem iteration_swallows_failures
    (demo : bool) (cl : GmailClient) (check_interval : Z) (w : World) :
  let run := Agent.iteration demo cl check_interval w in
  fst run = Return tt
  /\ exists before,
       trace (snd run) = (before ++ [EvSleep check_interval])%list
       /\ sleeps before = sleeps (trace w).
Proof.
  intro run. split; [apply iteration_returns |].
  unfold run, Agent.iteration.
  set (work := try_finally _ close_session).
  assert (Hwork : calm work).
  { unfold work.
    apply calm_try_finally; [| apply calm_open_session].
    apply calm_bind; [apply calm_check_for_new_emails | intro ids].
    apply calm_for_each; intro id.
    apply calm_try_except; [apply calm_process_email | intro; apply calm_ret]. }
  clearbody work.
  unfold try_except, bind, open_session, Agent.sleep, emit. cbv beta iota.
  set (w0 := mkWorld (store w) (store w) (trace w) (agent w)).
  destruct (Hwork w0) as [Hs _].
  destruct (work w0) as [[[] | e] w1]; cbn [snd trace] in *;
    exists (trace w1); split; [reflexivity | exact Hs | reflexivity | exact Hs].
Qed.

Ltac quiet_event :=
  let t := fresh "t" in
  let H := fresh "H" in
  intros t H; rewrite filter_app; cbn [filter acts_on_mailbox];
  rewrite app_nil_r; exact H.

(** X10. The loop itself never acts on the mailbox: a round lists,
    fetches, classifies and drafts, and sends, archives and modifies
    nothing. *)
Theorem iteration_never_acts_on_mailbox
    (demo : bool) (cl : GmailClient) (check_interval : Z) (w : World) :
  filter acts_on_mailbox (trace (snd (Agent.iteration demo cl check_interval w)))
  = filter acts_on_mailbox (trace w).
Proof.
  assert (H : preserves
            (on_trace (fun t => filter acts_on_mailbox t
                                = filter acts_on_mailbox (trace w)))
            (Agent.iteration demo cl check_interval)).
  { unfold Agent.iteration, Agent.check_for_new_emails, Agent.process_email,
      Agent.decide_action, Agent.get_config, Agent.sleep, close_session.
    keep_all ltac:(first [trace_leaf quiet_event
                         | apply trace_kept_emit; quiet_event]). }
  exact (H w eq_refl).
Qed.

Lemma only_adds_pending_refl (db : DB) : only_adds_pending db db.
Proof. exists []. rewrite app_nil_r. split; [reflexivity | constructor]. Qed.

Ltac same_actions :=
  let db := fresh "db" in
  let H := fresh "H" in
  intros db H; exact H.

Lemma only_adds_pending_insert
    (db0 db : DB) (eid ty : string) (sugg why : option string) :
  only_adds_pending db0 db ->
  only_adds_pending db0 (insert_action eid ty "pending" sugg why db).
Proof.
  intros (l & Hl & Hp).
  exists (l ++ [mkAction (next_action_id db) eid ty "pending" sugg None why])%list.
  cbn [insert_action actions]. rewrite Hl, app_assoc. split; [reflexivity |].
  apply Forall_app. split; [exact Hp | repeat constructor].
Qed.

(** X11. A round of the loop leaves every stored action as it is and in
    its place; what it adds to the table is [pending]. *)
Theorem iteration_only_adds_pending
    (demo : bool) (cl : GmailClient) (check_interval : Z) (w : World) :
  only_adds_pending (store w)
    (store (snd (Agent.iteration demo cl check_interval w))).
Proof.
  assert (H : preserves (on_tables (only_adds_pending (store w)))
                        (Agent.iteration demo cl check_interval)).
  { unfold Agent.iteration, Agent.check_for_new_emails, Agent.process_email,
      Agent.decide_action, Agent.get_config, Agent.sleep, emit, close_session.
    keep_all ltac:(first
      [ tables_leaf ltac:(first [ intros ? ?; apply only_adds_pending_insert;
                                  assumption
                                | same_actions ])
      | match goal with
        | |- preserves _ (fun w0 => (Return tt, _)) =>
            let w0 := fresh in let H0 := fresh in intros w0 H0; exact H0
        end ]). }
  change (Agent.iteration demo cl check_interval w)
    with (Agent.iteration demo cl check_interval (closed w)).
  apply (H (closed w)).
  split; apply only_adds_pending_refl.
Qed.

Ltac not_a_fetch :=
  let t := fresh "t" in
  let H := fresh "H" in
  intros t H; rewrite fetched_app; cbn [fetched]; rewrite app_nil_r; exact H.

(** Processing a message fetches it, once, whatever happens next. *)
Lemma process_email_fetches (cl : GmailClient) (email_id : string) (w : World) :
  fetched (trace (snd (Agent.process_email false cl email_id w)))
  = (fetched (trace w) ++ [email_id])%list.
Proof.
  unfold Agent.process_email. cbv iota. unfold bind at 1. unfold call at 1.
  set (w1 := mkWorld (store w) (session w) (trace w ++ [EvGetMessage email_id])
                     (agent w)).
  assert (Hw1 : fetched (trace w1) = (fetched (trace w) ++ [email_id])%list).
  { unfold w1; cbn [trace]. rewrite fetched_app. reflexivity. }
  destruct (get_message cl (trace w) email_id) as [e | pe]; [exact Hw1 |].
  match goal with |- fetched (trace (snd (?rest w1))) = _ =>
    assert (H : preserves
              (on_trace (fun t => fetched t = (fetched (trace w) ++ [email_id])%list))
              rest)
  end.
  { unfold Agent.decide_action, Agent.get_config. cbn [negb].
    keep_all ltac:(trace_leaf not_a_fetch). }
  exact (H w1 Hw1).
Qed.

Lemma batch_fetches_all (cl : GmailClient) (l : list string) :
  forall w,
    fetched (trace (snd (Agent.for_each l
                           (fun email_id =>
                              try_except (Agent.process_email false cl email_id)
                                         (fun _ => ret tt)) w)))
    = (fetched (trace w) ++ l)%list.
Proof.
  induction l as [|id l IH]; intro w; cbn [Agent.for_each].
  - cbn. rewrite app_nil_r. reflexivity.
  - unfold bind, try_except.
    pose proof (process_email_fetches cl id w) as Hid.
    destruct (Agent.process_email false cl id w) as [[[] | e] w1];
      cbn [snd] in Hid; unfold ret; cbv beta iota;
      rewrite IH, Hid, <- app_assoc; reflexivity.
Qed.

(** X12. Partial-failure isolation. When the provider lists [ids], a
    round fetches every listed id that is neither stored nor seen, each
    once and in the listed order, whatever fails while any of them is
    processed. *)
Theorem iteration_fetches_every_new_message
    (cl : GmailClient) (check_interval : Z) (w : World) (ids : list string) :
  list_messages cl (trace w) 100 "is:unread" = inr ids ->
  fetched (trace (snd (Agent.iteration false cl check_interval w)))
  = (fetched (trace w)
     ++ filter (fun email_id =>
                  match query_email email_id (store w) with
                  | Some _ => false
                  | None => negb (mem email_id (seen_emails (agent w)))
                  end) ids)%list.
Proof.
  intro Hlist.
  set (new := filter _ ids).
  set (w0 := mkWorld (store w) (store w) (trace w ++ [EvListMessages 100 "is:unread"])
                     (agent w)).
  assert (Hcheck : Agent.check_for_new_emails false cl (closed w) = (Return new, w0)).
  { unfold Agent.check_for_new_emails, bind, call, get_session, Agent.get_agent, ret.
    cbn [closed trace store session agent]. rewrite Hlist. reflexivity. }
  pose proof (batch_fetches_all cl new w0) as Hbatch.
  unfold Agent.iteration, try_except, try_finally.
  unfold bind at 1 2. unfold open_session at 1. cbv beta iota.
  change (mkWorld (store w) (store w) (trace w) (agent w)) with (closed w).
  rewrite (bind_returned _ _ _ _ _ Hcheck).
  assert (Hw0 : fetched (trace w0) = fetched (trace w)).
  { unfold w0; cbn [trace]. rewrite fetched_app. cbn. apply app_nil_r. }
  rewrite Hw0 in Hbatch.
  destruct (Agent.for_each new _ w0) as [[[] | e] w1]; cbn [snd] in Hbatch;
    unfold close_session, open_session, Agent.sleep, emit; cbn [snd trace];
    rewrite fetched_app, Hbatch; cbn; apply app_nil_r.
Qed.

Lemma iteration_fetches_every_new_message_witness :
  let cl := mkClient (fun _ _ _ => inr ["m1"; "m2"; "m3"])
                     (fun _ _ => inl (ClientError "fetch failed"))
                     (fun _ _ => inr "routine") (fun _ _ => inr "ok")
                     (fun _ _ _ _ _ => inr None) (fun _ _ => inr tt)
                     (fun _ _ => inr tt) in
  let w := Samples.world_of
             (mkDB [Samples.stored_email "boss@company.com" false] [] None 1) in
  fetched (trace (snd (Agent.iteration false cl 60%Z w))) = ["m2"; "m3"].
Proof.
  intros cl w.
  exact (iteration_fetches_every_new_message cl 60%Z w ["m1"; "m2"; "m3"] eq_refl).
Defined.



Lemma call_returned {A} (ev : Event) (answer : list Event -> exn + A)
    (w : World) (a : A) :
  answer (trace w) = inr a ->
  call ev answer w
  = (Return a, mkWorld (store w) (session w) (trace w ++ [ev]) (agent w)).
Proof. intro H. unfold call. rewrite H. reflexivity. Qed.

Lemma query_email_insert_new (e : Email) (db : DB) :
  query_email (e_id e) db = None ->
  query_email (e_id e) (insert_email e db) = Some e.
Proof.
  unfold query_email, insert_email, set_emails; cbn [emails].
  induction (emails db) as [|x l IH]; cbn [app find].
  - rewrite String.eqb_refl. reflexivity.
  - destruct (e_id x =? e_id e); [discriminate | exact IH].
Qed.

(** The policy writes nothing but the configuration row it may have to
    create. *)
Lemma decide_action_store
    (cl : GmailClient) (pe : ParsedEmail) (c : string) (w : World) :
  store (snd (Agent.decide_action cl pe c w)) = store (ensure_config w).
Proof.
  unfold Agent.decide_action. cbv zeta.
  rewrite (bind_returned _ _ _ _ _ (get_config_run w)).
  generalize (ensure_config w) as x. intro x.
  repeat match goal with
         | |- context [if ?b then _ else _] => destruct b
         end; try reflexivity.
  unfold bind, call, ret. destruct (generate_smart_reply cl (trace x) pe); reflexivity.
Qed.

(** X14. A message whose decision fails is stranded. When a new message
    is fetched and classified but [decide_action] raises (the Responder is
    down, say), [process_email] raises after the message row was committed
    and before any action is added; and since the message is now stored,
    [check_for_new_emails] never returns its id again, so the loop will not
    come back to it. *)
Theorem failed_decision_strands_message
    (cl : GmailClient) (email_id : string) (w : World)
    (pe : ParsedEmail) (c : string) (e : exn) :
  get_message cl (trace w) email_id = inr pe ->
  classify_email cl (trace w ++ [EvGetMessage email_id]) pe = inr c ->
  query_email (pe_id pe) (session w) = None ->
  let stored :=
    mkEmail (pe_id pe) (pe_threadId pe) (pe_from pe) (pe_name pe) (pe_from_raw pe)
            (match pe_to pe with Some t => t | None => "" end)
            (pe_subject pe) (pe_snippet pe) (pe_body pe) c false in
  let db1 := insert_email stored (session w) in
  let w1 := mkWorld db1 db1
                    ((trace w ++ [EvGetMessage email_id]) ++ [EvClassifyEmail pe])
                    (agent w) in
  fst (Agent.decide_action cl pe c w1) = Raise e ->
  let run := Agent.process_email false cl email_id w in
  fst run = Raise e
  /\ query_email (pe_id pe) (store (snd run)) = Some stored
  /\ actions (store (snd run)) = actions (session w)
  /\ forall cl' w3,
       query_email (pe_id pe) (session w3) <> None ->
       match fst (Agent.check_for_new_emails false cl' w3) with
       | Return l => ~ In (pe_id pe) l
       | Raise _ => True
       end.
Proof.
  intros Hget Hclass Hnew stored db1 w1 Hdecide run.
  assert (Hrun : run = (Raise e, snd (Agent.decide_action cl pe c w1))).
  { unfold run, Agent.process_email. cbv iota.
    rewrite (bind_returned _ _ _ _ _ (call_returned _ _ w pe Hget)).
    erewrite bind_returned; [| apply call_returned; exact Hclass].
    cbn [negb]. cbv iota.
    erewrite bind_returned with (a := tt) (w' := w1).
    2:{ rewrite bind_get_session. cbn [session]. rewrite Hnew. reflexivity. }
    apply bind_raised.
    destruct (Agent.decide_action cl pe c w1) as [r w2]. cbn [fst] in Hdecide.
    subst r. reflexivity. }
  rewrite Hrun. cbn [fst snd]. split_all.
  - reflexivity.
  - assert (Hem : emails (store (snd (Agent.decide_action cl pe c w1))) = emails db1).
    { rewrite decide_action_store. unfold ensure_config.
      destruct (config (session w1)); reflexivity. }
    unfold query_email. rewrite Hem.
    apply (query_email_insert_new stored (session w)). exact Hnew.
  - rewrite decide_action_store. unfold ensure_config.
    destruct (config (session w1)); reflexivity.
  - intros cl' w3 Hstored.
    unfold Agent.check_for_new_emails, bind, call, get_session, Agent.get_agent, ret.
    destruct (list_messages cl' (trace w3) 100 "is:unread") as [e' | ids];
      cbn [fst session]; [exact I |].
    intro Hin. apply filter_In in Hin. destruct Hin as [_ Hin].
    destruct (query_email (pe_id pe) (session w3)); [discriminate | contradiction].
Qed.

Lemma failed_decision_strands_message_witness :
  let cl := mkClient (fun _ _ _ => inr ["m1"])
                     (fun _ id => inr (Samples.message_from "vip@partner.com"))
                     (fun _ _ => inr "routine")
                     (fun _ _ => inl (ClientError "model unreachable"))
                     (fun _ _ _ _ _ => inr None) (fun _ _ => inr tt)
                     (fun _ _ => inr tt) in
  let w := Samples.world_of
             (mkDB [] [] (Some (Samples.config_with "partner.com" "noreply@" false)) 1) in
  let run := Agent.process_email false cl "m1" w in
  fst run = Raise (ClientError "model unreachable")
  /\ option_map classification (query_email "m1" (store (snd run))) = Some "routine"
  /\ actions (store (snd run)) = [].
Proof.
  intros cl w run.
  destruct (failed_decision_strands_message cl "m1" w
              (Samples.message_from "vip@partner.com") "routine"
              (ClientError "model unreachable") eq_refl eq_refl eq_refl eq_refl)
    as (H1 & H2 & H3 & _).
  split; [exact H1 | split; [| exact H3]].
  exact (f_equal (option_map classification) H2).
Defined.

(* ------------------------------------------------------------------ *)
(** ** Bulk execution: [execute_pending_actions] *)

Lemma sent_bodies_app (t1 t2 : list Event) :
  sent_bodies (t1 ++ t2) = (sent_bodies t1 ++ sent_bodies t2)%list.
Proof.
  induction t1 as [|ev t1 IH]; simpl; [reflexivity |].
  destruct ev; simpl; rewrite ?IH; reflexivity.
Qed.

Lemma save_action_twice (x y : Action) (db : DB) :
  a_id x = a_id y ->
  save_action x (save_action y db) = save_action x db.
Proof.
  intro Hid. unfold save_action, set_actions; cbn [emails actions config next_action_id].
  f_equal. rewrite map_map. apply map_ext. intro a.
  destruct (Nat.eqb (a_id a) (a_id y)) eqn:E.
  - rewrite <- Hid, Nat.eqb_refl. rewrite Hid, E. reflexivity.
  - reflexivity.
Qed.

Lemma query_action_save_other (id : nat) (x : Action) (db : DB) :
  id <> a_id x ->
  query_action id (save_action x db) = query_action id db.
Proof.
  intro Hne. unfold query_action, save_action, set_actions; cbn [actions].
  induction (actions db) as [|a l IH]; cbn [map find]; [reflexivity |].
  destruct (Nat.eqb_spec (a_id a) (a_id x)) as [E | E].
  - destruct (Nat.eqb_spec (a_id x) id); [congruence |].
    destruct (Nat.eqb_spec (a_id a) id); [congruence | exact IH].
  - destruct (Nat.eqb (a_id a) id); [reflexivity | exact IH].
Qed.

Lemma query_action_save_cases (id : nat) (x : Action) (db : DB) :
  query_action id (save_action x db)
  = if Nat.eqb id (a_id x)
    then match query_action id db with Some _ => Some x | None => None end
    else query_action id db.
Proof.
  destruct (Nat.eqb_spec id (a_id x)) as [-> | Hne].
  - destruct (query_action (a_id x) db) eqn:Hq.
    + apply query_action_save. congruence.
    + unfold query_action, save_action, set_actions in *; cbn [actions] in *.
      induction (actions db) as [|a l IH]; cbn [map find] in *; [reflexivity |].
      destruct (Nat.eqb (a_id a) (a_id x)) eqn:E; [discriminate |].
      rewrite E. apply IH, Hq.
  - apply query_action_save_other, Hne.
Qed.

Lemma stored_save_email (id : string) (e : Email) (db : DB) :
  stored (e_id e) db = true ->
  stored id (save_email e db) = stored id db.
Proof.
  unfold stored, query_email, save_email, set_emails; cbn [emails].
  intro He.
  induction (emails db) as [|x l IH]; cbn [map find] in *; [reflexivity |].
  destruct (String.eqb_spec (e_id x) (e_id e)) as [E | E].
  - destruct (String.eqb_spec (e_id e) id) as [E' | E'].
    + rewrite E, E', String.eqb_refl. reflexivity.
    + destruct (String.eqb_spec (e_id x) id) as [E'' | _]; [congruence |].
      clear IH He.
      induction l as [|y l IHl]; cbn [map find]; [reflexivity |].
      destruct (String.eqb_spec (e_id y) (e_id e)) as [Ey | Ey].
      * destruct (String.eqb_spec (e_id e) id); [congruence |].
        destruct (String.eqb_spec (e_id y) id); [congruence | exact IHl].
      * destruct (e_id y =? id); [reflexivity | exact IHl].
  - destruct (e_id x =? id); [reflexivity |]. apply IH.
    destruct (e_id x =? e_id e) eqn:E2; [apply String.eqb_eq in E2; contradiction |].
    exact He.
Qed.

Lemma stored_true (id : string) (db : DB) (e : Email) :
  query_email id db = Some e -> stored (e_id e) db = true.
Proof.
  intro H. rewrite (query_email_id _ _ _ H). unfold stored. rewrite H. reflexivity.
Qed.

Lemma mark_failed_saves (id : nat) (db : DB) (a : Action) :
  query_action id db = Some a ->
  BulkApi.mark_failed id db = save_action (with_status "failed" a) db.
Proof. intro H. unfold BulkApi.mark_failed. rewrite H. reflexivity. Qed.

(** One turn of the loop of [execute_pending_actions] on a loaded action
    whose row is in the session: it returns; it counts the action as
    executed or adds it to the failures; it commits nothing; it sends the
    suggestion if the action is a reply whose message is stored, and
    nothing otherwise; and it rewrites the row of that id, to a row that is
    [executed] or [failed]. *)
Lemma execute_turn
    (cl : GmailClient) (action : Action) (n : nat)
    (failed : list (nat * string * exn)) (w : World) :
  query_action (a_id action) (session w) <> None ->
  exists r w' x,
    try_except
      (BulkApi.execute_one cl action ;;; ret (S n, failed))
      (fun e =>
         update_session (BulkApi.mark_failed (a_id action)) ;;;
         ret (n, (failed ++ [(a_id action, email_id action, e)])%list)) w
    = (Return r, w')
    /\ fst r + length (snd r) = S (n + length failed)
    /\ store w' = store w
    /\ (forall id, stored id (session w') = stored id (session w))
    /\ sent_bodies (trace w')
       = (sent_bodies (trace w) ++ body_sent_for (session w) action)%list
    /\ a_id x = a_id action
    /\ (status x = "executed" \/ status x = "failed")
    /\ actions (session w') = actions (save_action x (session w)).
Proof.
  intro Hrow.
  destruct (query_action (a_id action) (session w)) as [a0 |] eqn:Hq0;
    [clear Hrow | congruence].
  pose proof (query_action_id _ _ _ Hq0) as Hid0.
  assert (Hlen : forall e, length (failed ++ [(a_id action, email_id action, e)])
                           = S (length failed)).
  { intro e. rewrite length_app. cbn. lia. }
  unfold BulkApi.execute_one, body_sent_for.
  unfold try_except.
  change (bind (bind get_session ?k) ?k2 w) with (bind (k (session w)) k2 w).
  cbv beta zeta.
  destruct (query_email (email_id action) (session w)) as [em |] eqn:Hem.
  - pose proof (stored_true _ _ _ Hem) as Hst.
    assert (Hstored : stored (email_id action) (session w) = true).
    { unfold stored. rewrite Hem. reflexivity. }
    rewrite Hstored, andb_true_r.
    destruct (action_type action =? "reply") eqn:Hr.
    + unfold bind, call, update_session, ret. cbn [store session trace agent].
      destruct (send_email cl (trace w) (from_address em) ("Re: " ++ subject em)
                           (suggested_reply action) (thread_id em)) as [e | sent];
        cbv beta iota; cbn [store session trace agent].
      * rewrite (mark_failed_saves _ _ _ Hq0).
        eexists; eexists; exists (with_status "failed" a0).
        split; [reflexivity |]. cbn [fst snd store session trace].
        rewrite Hlen, sent_bodies_app. split_all; auto; lia.
      * eexists; eexists;
          exists (with_status "executed"
                    (with_actual_reply (suggested_reply action) action)).
        split; [reflexivity |]. cbn [fst snd store session trace].
        rewrite sent_bodies_app. split_all; auto; try lia.
        -- intro id. rewrite stored_save_email; [reflexivity | exact Hst].
        -- cbn [actions save_email set_emails].
           rewrite save_action_twice; reflexivity.
    + destruct (action_type action =? "archive") eqn:Ha.
      * unfold bind, call, update_session, ret. cbn [store session trace agent].
        destruct (modify cl (trace w) (e_id em)) as [e | []];
          cbv beta iota; cbn [store session trace agent].
        -- rewrite (mark_failed_saves _ _ _ Hq0).
           eexists; eexists; exists (with_status "failed" a0).
           split; [reflexivity |]. cbn [fst snd store session trace].
           rewrite Hlen, sent_bodies_app. cbn [sent_bodies]. rewrite app_nil_r.
           split_all; auto; lia.
        -- eexists; eexists; exists (with_status "executed" action).
           split; [reflexivity |]. cbn [fst snd store session trace].
           rewrite sent_bodies_app. cbn [sent_bodies]. rewrite app_nil_r.
           split_all; auto; try lia.
           intro id. rewrite stored_save_email; [reflexivity | exact Hst].
      * unfold bind, update_session, ret. cbn [store session trace agent].
        eexists; eexists; exists (with_status "executed" action).
        split; [reflexivity |]. cbn [fst snd store session trace].
        rewrite app_nil_r. split_all; auto; try lia.
        intro id. rewrite stored_save_email; [reflexivity | exact Hst].
  - assert (Hstored : stored (email_id action) (session w) = false).
    { unfold stored. rewrite Hem. reflexivity. }
    rewrite Hstored, andb_false_r, app_nil_r.
    destruct (action_type action =? "reply") eqn:Hr;
      [| destruct (action_type action =? "archive") eqn:Ha].
    + unfold bind, raise, update_session, ret. cbn [store session trace agent].
      rewrite (mark_failed_saves _ _ _ Hq0).
      eexists; eexists; exists (with_status "failed" a0).
      split; [reflexivity |]. cbn [fst snd store session trace].
      rewrite Hlen. split_all; auto; lia.
    + unfold bind, raise, update_session, ret. cbn [store session trace agent].
      rewrite (mark_failed_saves _ _ _ Hq0).
      eexists; eexists; exists (with_status "failed" a0).
      split; [reflexivity |]. cbn [fst snd store session trace].
      rewrite Hlen. split_all; auto; lia.
    + unfold bind, raise, update_session, ret. cbn [store session trace agent].
      assert (Hq1 : query_action (a_id action)
                      (save_action (with_status "executed" action) (session w))
                    = Some (with_status "executed" action)).
      { apply (query_action_save (with_status "executed" action)).
        cbn [a_id with_status]. congruence. }
      rewrite (mark_failed_saves _ _ _ Hq1).
      eexists; eexists;
        exists (with_status "failed" (with_status "executed" action)).
      split; [reflexivity |]. cbn [fst snd store session trace].
      rewrite Hlen. split_all; auto; try lia.
      rewrite save_action_twice; reflexivity.
Qed.

Lemma query_action_same_rows (id : nat) (db db' : DB) :
  actions db' = actions db -> query_action id db' = query_action id db.
Proof. intro H. unfold query_action. rewrite H. reflexivity. Qed.

Lemma query_action_of_row (a : Action) (db : DB) :
  In a (actions db) -> query_action (a_id a) db <> None.
Proof.
  intros Hin Hnone. unfold query_action in Hnone.
  apply (find_none _ _ Hnone) in Hin. rewrite Nat.eqb_refl in Hin. discriminate.
Qed.

(** The whole loop of [execute_pending_actions]. *)
Lemma execute_all_effect (cl : GmailClient) (l : list Action) :
  forall n failed w,
    (forall a, In a l -> query_action (a_id a) (session w) <> None) ->
    exists r w',
      BulkApi.execute_all cl l n failed w = (Return r, w')
      /\ fst r + length (snd r) = n + length failed + length l
      /\ store w' = store w
      /\ (forall id, stored id (session w') = stored id (session w))
      /\ sent_bodies (trace w')
         = (sent_bodies (trace w) ++ flat_map (body_sent_for (session w)) l)%list
      /\ (forall a, In a l -> settled (a_id a) (session w'))
      /\ (forall id, ~ In id (map a_id l) ->
            query_action id (session w') = query_action id (session w)).
Proof.
  induction l as [|a l IH]; intros n failed w Hrows.
  - exists (n, failed), w. cbn [BulkApi.execute_all flat_map length fst snd].
    rewrite app_nil_r. split_all; auto; try lia. intros a [].
  - cbn [BulkApi.execute_all].
    destruct (execute_turn cl a n failed w (Hrows a (or_introl eq_refl)))
      as (r1 & w1 & x & Hturn & Hcount1 & Hst1 & Hsto1 & Hsent1 & Hidx & Hsx & Hact1).
    rewrite (bind_returned _ _ _ _ _ Hturn).
    assert (Hq1 : forall id, query_action id (session w1)
                             = query_action id (save_action x (session w))).
    { intro id. apply query_action_same_rows, Hact1. }
    assert (Hrows1 : forall a', In a' l -> query_action (a_id a') (session w1) <> None).
    { intros a' Hin. rewrite Hq1, query_action_save_cases.
      specialize (Hrows a' (or_intror Hin)).
      destruct (Nat.eqb (a_id a') (a_id x)); [| exact Hrows].
      destruct (query_action (a_id a') (session w)); congruence. }
    destruct (IH (fst r1) (snd r1) w1 Hrows1)
      as (r & w' & Hrun & Hcount & Hst & Hsto & Hsent & Hsettled & Hothers).
    exists r, w'. split; [exact Hrun |]. split_all.
    + cbn [length]. lia.
    + congruence.
    + intro id. rewrite Hsto. apply Hsto1.
    + rewrite Hsent, Hsent1. cbn [flat_map]. rewrite <- app_assoc. do 2 f_equal.
      apply flat_map_ext. intro a'. unfold body_sent_for. rewrite Hsto1. reflexivity.
    + intros a' [<- | Hin]; [| apply Hsettled, Hin].
      destruct (in_dec Nat.eq_dec (a_id a) (map a_id l)) as [Hdup | Hfresh].
      * apply in_map_iff in Hdup. destruct Hdup as (a'' & Hid'' & Hin'').
        rewrite <- Hid''. apply Hsettled, Hin''.
      * exists x. split; [| exact Hsx].
        rewrite (Hothers _ Hfresh), Hq1, <- Hidx.
        apply query_action_save. rewrite Hidx. apply Hrows. left. reflexivity.
    + intros id Hnot. cbn [map] in Hnot.
      rewrite Hothers by (intro H; apply Hnot; right; exact H).
      rewrite Hq1. apply query_action_save_other.
      intro H; apply Hnot; left. congruence.
Qed.

(** X15. [POST /actions/execute-pending] never fails as a whole. With
    nothing selected it answers [executed: 0] and touches nothing; else it
    answers counts that add up, executed plus failed, to the number of
    selected actions; every selected action is then stored as [executed]
    or [failed]; and every action it did not select is stored as it was. *)
Theorem execute_pending_actions_settles
    (cl : GmailClient) (request : BulkApi.ExecutePendingRequest) (w : World) :
  let run := route (BulkApi.execute_pending_actions cl request) w in
  match selected request (store w) with
  | [] => run = (Return (BulkApi.mkExecuteReport 0 None), closed w)
  | _ :: _ =>
      (exists n failures,
         fst run = Return (BulkApi.mkExecuteReport n (Some failures))
         /\ n + length failures = length (selected request (store w)))
      /\ (forall a, In a (selected request (store w)) ->
            settled (a_id a) (store (snd run)))
      /\ (forall id, ~ In id (map a_id (selected request (store w))) ->
            query_action id (store (snd run)) = query_action id (store w))
  end.
Proof.
  intro run. unfold run. rewrite route_run.
  unfold BulkApi.execute_pending_actions. rewrite bind_get_session.
  cbn [session]. cbv zeta. fold (selected request (store w)).
  assert (Hsub : forall a, In a (selected request (store w)) ->
                           In a (actions (store w))).
  { intros a Hin. unfold selected in Hin. cbv zeta in Hin.
    destruct (truthy_opt _);
      repeat (apply filter_In in Hin; destruct Hin as [Hin _]); exact Hin. }
  destruct (selected request (store w)) as [|a l] eqn:Hsel; [reflexivity |].
  destruct (execute_all_effect cl (a :: l) 0 []
              (mkWorld (store w) (store w) (trace w) (agent w)))
    as (r & w' & Hrun & Hcount & Hst & _ & _ & Hsettled & Hothers).
  { intros a' Hin. cbn [session]. apply query_action_of_row, Hsub, Hin. }
  rewrite (bind_returned _ _ _ _ _ Hrun).
  unfold bind, commit, ret. cbn [fst snd store session].
  split_all.
  - exists (fst r), (snd r). split; [reflexivity |]. cbn [length] in *. lia.
  - exact Hsettled.
  - exact Hothers.
Qed.

(** X16. What bulk execution sends. It calls [send_email] once for each
    selected reply action whose message is stored, in table order, every
    time with the stored suggestion as the body; the configuration, the
    dry-run flag included, has no part in it. *)
Theorem execute_pending_actions_sends
    (cl : GmailClient) (request : BulkApi.ExecutePendingRequest) (w : World) :
  sent_bodies (trace (snd (route (BulkApi.execute_pending_actions cl request) w)))
  = (sent_bodies (trace w)
     ++ flat_map (body_sent_for (store w)) (selected request (store w)))%list.
Proof.
  rewrite route_run.
  unfold BulkApi.execute_pending_actions. rewrite bind_get_session.
  cbn [session]. cbv zeta. fold (selected request (store w)).
  assert (Hsub : forall a, In a (selected request (store w)) ->
                           In a (actions (store w))).
  { intros a Hin. unfold selected in Hin. cbv zeta in Hin.
    destruct (truthy_opt _);
      repeat (apply filter_In in Hin; destruct Hin as [Hin _]); exact Hin. }
  destruct (selected request (store w)) as [|a l] eqn:Hsel.
  - cbn. rewrite app_nil_r. reflexivity.
  - destruct (execute_all_effect cl (a :: l) 0 []
                (mkWorld (store w) (store w) (trace w) (agent w)))
      as (r & w' & Hrun & _ & _ & _ & Hsent & _ & _).
    { intros a' Hin. cbn [session]. apply query_action_of_row, Hsub, Hin. }
    rewrite (bind_returned _ _ _ _ _ Hrun).
    unfold bind, commit, ret. cbn [fst snd trace]. exact Hsent.
Qed.

(* ------------------------------------------------------------------ *)
(** ** Bulk archive: what is called and what is marked *)

Lemma archive_calls_app (t1 t2 : list Event) :
  archive_calls (t1 ++ t2) = (archive_calls t1 ++ archive_calls t2)%list.
Proof.
  induction t1 as [|ev t1 IH]; simpl; [reflexivity |].
  destruct ev; simpl; rewrite ?IH; reflexivity.
Qed.

Lemma archive_in_gmail_effect (cl : GmailClient) (who : string) (l : list Email) :
  forall n failed w,
  exists r w',
    BulkApi.archive_in_gmail cl who l n failed w = (Return r, w')
    /\ fst r + length (snd r) = n + length failed + length l
    /\ archive_calls (trace w') = (archive_calls (trace w) ++ map e_id l)%list.
Proof.
  induction l as [|email l IH]; intros n failed w.
  - exists (n, failed), w. cbn. rewrite app_nil_r. split_all; auto; lia.
  - cbn [BulkApi.archive_in_gmail]. unfold bind at 1. unfold try_except at 1.
    unfold bind at 1 2 3. unfold call at 1. unfold update_session at 1 2.
    unfold ret at 1 2.
    cbv beta iota. cbn [store session trace agent].
    destruct (archive cl (trace w) (e_id email)) as [e | []];
      cbv beta iota; cbn [fst snd store session trace agent];
      match goal with |- context [BulkApi.archive_in_gmail cl who l ?n1 ?f1 ?w1] =>
        destruct (IH n1 f1 w1) as (r & w' & Hrun & Hcount & Hcalls) end;
      exists r, w'; rewrite Hrun; split_all; auto;
      try (rewrite Hcalls; cbn [trace map]; rewrite archive_calls_app, <- app_assoc;
           reflexivity).
    + rewrite length_app in Hcount. cbn [length] in *. lia.
    + cbn [length] in *. lia.
Qed.

(** X17. [POST /emails/bulk-archive-sender] with [execute_in_gmail]: for a
    sender without stored messages it answers [archived: 0] and touches
    nothing; else it calls [archive] once for every stored message of the
    sender, in table order, going on after a call that raises, and the
    counts it answers, archived plus failed, add up to the number of those
    messages. *)
Theorem bulk_archive_sender_in_gmail (cl : GmailClient) (who : string) (w : World) :
  let run := route (BulkApi.bulk_archive_sender cl (BulkApi.mkArchiveSender who true)) w in
  let found := filter (fun e => from_address e =? who) (emails (store w)) in
  match found with
  | [] => run = (Return (BulkApi.mkArchiveReport 0 None), closed w)
  | _ :: _ =>
      (exists n failures,
         fst run = Return (BulkApi.mkArchiveReport n (Some failures))
         /\ n + length failures = length found)
      /\ archive_calls (trace (snd run))
         = (archive_calls (trace w) ++ map e_id found)%list
  end.
Proof.
  intros run found. unfold run. rewrite route_run.
  unfold BulkApi.bulk_archive_sender. rewrite bind_get_session.
  cbn [session BulkApi.sender BulkApi.execute_in_gmail]. cbv zeta. fold found.
  destruct found as [|first others]; [reflexivity |].
  destruct (archive_in_gmail_effect cl who (first :: others) 0 []
              (mkWorld (store w) (store w) (trace w) (agent w)))
    as (r & w' & Hrun & Hcount & Hcalls).
  rewrite (bind_returned _ _ _ _ _ Hrun).
  unfold bind, commit, ret. cbn [fst snd trace].
  split; [| exact Hcalls].
  exists (fst r), (snd r). split; [reflexivity |]. cbn [length] in *. lia.
Qed.

(** Marking, row by row. *)
Lemma mark_all_fused (l : list Email) :
  forall es,
    fold_left
      (fun rows e => map (fun x => if e_id x =? e_id e
                                   then with_processed true e else x) rows)
      l es
    = map (fun x => fold_left
                      (fun acc e => if e_id acc =? e_id e
                                    then with_processed true e else acc) l x)
          es.
Proof.
  induction l as [|e l IH]; intro es; cbn [fold_left].
  - symmetry. apply map_id.
  - rewrite IH, map_map. reflexivity.
Qed.

Lemma mark_all_other (l : list Email) (x : Email) :
  (forall e, In e l -> e_id e <> e_id x) ->
  fold_left (fun acc e => if e_id acc =? e_id e then with_processed true e else acc)
            l x = x.
Proof.
  revert x. induction l as [|e l IH]; intros x Hne; cbn [fold_left]; [reflexivity |].
  destruct (String.eqb_spec (e_id x) (e_id e)) as [E | _].
  - exfalso. apply (Hne e); [left; reflexivity | congruence].
  - apply IH. intros e' Hin. apply Hne. right. exact Hin.
Qed.

Lemma mark_all_member (l : list Email) (x : Email) :
  NoDup (map e_id l) -> In x l ->
  fold_left (fun acc e => if e_id acc =? e_id e then with_processed true e else acc)
            l x = with_processed true x.
Proof.
  induction l as [|e l IH]; intros Hnd Hin; [destruct Hin |].
  cbn [map] in Hnd. inversion Hnd as [|? ? Hnotin Hnd']; subst.
  cbn [fold_left].
  destruct Hin as [-> | Hin].
  - rewrite String.eqb_refl. apply mark_all_other.
    intros e' Hin' Heq. apply Hnotin. cbn [e_id with_processed] in Heq.
    rewrite <- Heq. apply in_map, Hin'.
  - destruct (String.eqb_spec (e_id x) (e_id e)) as [E | _].
    + exfalso. apply Hnotin. rewrite <- E. apply in_map, Hin.
    + apply IH; assumption.
Qed.

(** Rows filtered out of a table with distinct keys have distinct keys. *)
Lemma distinct_keys_kept {Row Key} (key : Row -> Key) (keep : Row -> bool) :
  forall rows : list Row,
    NoDup (map key rows) -> NoDup (map key (filter keep rows)).
Proof.
  intros rows Hdistinct.
  induction rows as [|row rows IH]; [constructor |].
  cbn [map] in Hdistinct. apply NoDup_cons_iff in Hdistinct.
  destruct Hdistinct as [Hfresh Hrest]. specialize (IH Hrest).
  cbn [filter]. destruct (keep row); [| exact IH].
  cbn [map]. apply NoDup_cons; [| exact IH].
  intro Hin. apply Hfresh. apply in_map_iff in Hin.
  destruct Hin as (other & Hkey & Hother). apply filter_In in Hother.
  rewrite <- Hkey. apply in_map, Hother.
Qed.

(** In a table with distinct keys, two rows of one key are one row. *)
Lemma distinct_keys_same_row {Row Key} (key : Row -> Key) :
  forall (rows : list Row) (r1 r2 : Row),
    NoDup (map key rows) -> In r1 rows -> In r2 rows -> key r1 = key r2 -> r1 = r2.
Proof.
  intros rows r1 r2 Hdistinct.
  induction rows as [|row rows IH]; intros H1 H2 Hkey; [destruct H1 |].
  cbn [map] in Hdistinct. apply NoDup_cons_iff in Hdistinct.
  destruct Hdistinct as [Hfresh Hrest].
  destruct H1 as [-> | H1], H2 as [-> | H2].
  - reflexivity.
  - exfalso. apply Hfresh. rewrite Hkey. apply in_map, H2.
  - exfalso. apply Hfresh. rewrite <- Hkey. apply in_map, H1.
  - apply IH; assumption.
Qed.

Lemma bulk_archive_db_only_marks (who : string) (l : list Email) :
  forall w,
    emails (session (snd
      (Agent.for_each l
         (fun email =>
            update_session (save_email (with_processed true email)) ;;;
            update_session
              (insert_action (e_id email) "archive" "pending" None
                             (Some ("Bulk archived sender " ++ who)))) w)))
    = fold_left
        (fun rows e => map (fun x => if e_id x =? e_id e
                                     then with_processed true e else x) rows)
        l (emails (session w)).
Proof.
  induction l as [|email l IH]; intro w; cbn [Agent.for_each fold_left];
    [reflexivity |].
  unfold bind at 1 2. unfold update_session at 1 2. cbv beta iota.
  cbn [store session trace agent]. rewrite IH. reflexivity.
Qed.

(** X18. [POST /emails/bulk-archive-sender] without [execute_in_gmail],
    on a table whose message ids are distinct: no call reaches the mail
    client, the answer counts the stored messages of the sender, and
    afterwards exactly these messages are marked processed, all else in
    the messages table being as before. *)
Theorem bulk_archive_sender_db_only (cl : GmailClient) (who : string) (w : World) :
  NoDup (map e_id (emails (store w))) ->
  let run := route (BulkApi.bulk_archive_sender cl (BulkApi.mkArchiveSender who false)) w in
  fst run
  = Return (BulkApi.mkArchiveReport
              (length (filter (fun e => from_address e =? who) (emails (store w))))
              None)
  /\ trace (snd run) = trace w
  /\ emails (store (snd run))
     = map (fun e => if from_address e =? who then with_processed true e else e)
           (emails (store w)).
Proof.
  intros Hnd run. unfold run. rewrite route_run.
  unfold BulkApi.bulk_archive_sender. rewrite bind_get_session.
  cbn [session BulkApi.sender BulkApi.execute_in_gmail]. cbv zeta.
  set (found := filter (fun e => from_address e =? who) (emails (store w))).
  assert (Hmarked :
            fold_left
              (fun rows e => map (fun x => if e_id x =? e_id e
                                           then with_processed true e else x) rows)
              found (emails (store w))
            = map (fun e => if from_address e =? who
                            then with_processed true e else e)
                  (emails (store w))).
  { rewrite mark_all_fused. apply map_ext_in. intros x Hx.
    destruct (from_address x =? who) eqn:Hp.
    - apply mark_all_member.
      + apply distinct_keys_kept, Hnd.
      + apply filter_In. split; assumption.
    - apply mark_all_other. intros e He Heq.
      apply filter_In in He. destruct He as [He Hpe].
      assert (e = x) by (apply (distinct_keys_same_row e_id _ e x Hnd He Hx Heq)).
      subst e. congruence. }
  destruct found as [|first others] eqn:Hfound.
  - unfold ret. cbn [fst snd trace store fold_left length] in *.
    split_all; try reflexivity. exact Hmarked.
  - destruct (bulk_archive_db_only_loop who (first :: others)
                (mkWorld (store w) (store w) (trace w) (agent w)))
      as (w' & Hrun & _ & Htr & _).
    pose proof (bulk_archive_db_only_marks who (first :: others)
                  (mkWorld (store w) (store w) (trace w) (agent w))) as Hem.
    rewrite Hrun in Hem. cbn [snd session] in Hem.
    rewrite (bind_returned _ _ _ _ _ Hrun).
    unfold bind, commit, ret. cbn [fst snd store trace].
    split_all; [reflexivity | exact Htr |].
    rewrite Hem. exact Hmarked.
Qed.

Lemma bulk_archive_sender_db_only_witness :
  let mine := Samples.stored_email "ads@deals.com" false in
  let other := mkEmail "m2" "t2" "boss@company.com" "" "" "me@momail.com"
                       "Plan" "See" "See plan" "urgent" false in
  let w := Samples.world_of (mkDB [mine; other] [] None 1) in
  let run := route (BulkApi.bulk_archive_sender (Samples.answering "ok")
                      (BulkApi.mkArchiveSender "ads@deals.com" false)) w in
  fst run = Return (BulkApi.mkArchiveReport 1 None)
  /\ trace (snd run) = []
  /\ emails (store (snd run)) = [with_processed true mine; other].
Proof.
  intros mine other w run.
  assert (Hnd : NoDup (map e_id (emails (store w)))).
  { cbn. repeat constructor; cbn; intuition discriminate. }
  exact (bulk_archive_sender_db_only (Samples.answering "ok") "ads@deals.com" w Hnd).
Defined.

(* ------------------------------------------------------------------ *)
(** ** The sender lists: parsing, joining and the list routes *)

Lemma lower_ascii_idempotent (c : ascii) : lower_ascii (lower_ascii c) = lower_ascii c.
Proof. destruct c as [[] [] [] [] [] [] [] []]; reflexivity. Qed.

Lemma lower_ascii_space (c : ascii) : is_space (lower_ascii c) = is_space c.
Proof. destruct c as [[] [] [] [] [] [] [] []]; reflexivity. Qed.

Lemma lower_ascii_comma (c : ascii) :
  Ascii.eqb (lower_ascii c) "," = Ascii.eqb c ",".
Proof. destruct c as [[] [] [] [] [] [] [] []]; reflexivity. Qed.

Lemma lower_idempotent (s : string) : lower (lower s) = lower s.
Proof.
  induction s as [|c s IH]; cbn [lower]; [reflexivity |].
  rewrite lower_ascii_idempotent, IH. reflexivity.
Qed.


Lemma lower_comma_free (s : string) : comma_free (lower s) = comma_free s.
Proof.
  induction s as [|c s IH]; cbn [lower comma_free]; [reflexivity |].
  rewrite lower_ascii_comma, IH. reflexivity.
Qed.

Lemma lstrip_lower (s : string) : lstrip (lower s) = lower (lstrip s).
Proof.
  induction s as [|c s IH]; cbn [lower lstrip]; [reflexivity |].
  rewrite lower_ascii_space. destruct (is_space c); [exact IH | reflexivity].
Qed.

Lemma rstrip_lower (s : string) : rstrip (lower s) = lower (rstrip s).
Proof.
  induction s as [|c s IH]; cbn [lower rstrip]; [reflexivity |].
  rewrite IH, lower_ascii_space.
  destruct (rstrip s); cbn [lower]; [destruct (is_space c) |]; reflexivity.
Qed.

Lemma strip_lower (s : string) : strip (lower s) = lower (strip s).
Proof. unfold strip. rewrite lstrip_lower, rstrip_lower. reflexivity. Qed.

Lemma lstrip_length (s : string) : String.length (lstrip s) <= String.length s.
Proof.
  induction s as [|c s IH]; cbn [lstrip String.length]; [lia |].
  destruct (is_space c); cbn [String.length]; lia.
Qed.

Lemma lstrip_head (c : ascii) (s : string) :
  lstrip (String c s) = String c s -> is_space c = false.
Proof.
  cbn [lstrip]. destruct (is_space c); [| reflexivity].
  intro H. pose proof (lstrip_length s) as Hlen. rewrite H in Hlen.
  cbn [String.length] in Hlen. lia.
Qed.

Lemma lstrip_idempotent (s : string) : lstrip (lstrip s) = lstrip s.
Proof.
  induction s as [|c s IH]; cbn [lstrip]; [reflexivity |].
  destruct (is_space c) eqn:E; [exact IH |]. cbn [lstrip]. rewrite E. reflexivity.
Qed.

Lemma rstrip_idempotent (s : string) : rstrip (rstrip s) = rstrip s.
Proof.
  induction s as [|c s IH]; cbn [rstrip]; [reflexivity |].
  destruct (rstrip s) as [|d r] eqn:E.
  - destruct (is_space c) eqn:Es; cbn [rstrip]; [| rewrite Es]; reflexivity.
  - cbn [rstrip]. cbn [rstrip] in IH. rewrite IH. reflexivity.
Qed.

Lemma lstrip_rstrip (t : string) : lstrip t = t -> lstrip (rstrip t) = rstrip t.
Proof.
  destruct t as [|c t]; [reflexivity |].
  intro H. apply lstrip_head in H. cbn [rstrip].
  destruct (rstrip t); [rewrite H |]; cbn [lstrip]; rewrite H; reflexivity.
Qed.

Lemma strip_idempotent (s : string) : strip (strip s) = strip s.
Proof.
  unfold strip.
  rewrite (lstrip_rstrip (lstrip s) (lstrip_idempotent s)).
  apply rstrip_idempotent.
Qed.

Lemma lstrip_comma_free (s : string) : comma_free s = true -> comma_free (lstrip s) = true.
Proof.
  induction s as [|c s IH]; cbn [lstrip comma_free]; [reflexivity |].
  intro H. apply andb_true_iff in H. destruct H as [Hc Hs].
  destruct (is_space c); [apply IH, Hs |]. cbn [comma_free]. rewrite Hc, Hs. reflexivity.
Qed.

Lemma rstrip_comma_free (s : string) : comma_free s = true -> comma_free (rstrip s) = true.
Proof.
  induction s as [|c s IH]; cbn [rstrip comma_free]; [reflexivity |].
  intro H. apply andb_true_iff in H. destruct H as [Hc Hs]. specialize (IH Hs).
  destruct (rstrip s).
  - destruct (is_space c); cbn [comma_free]; [| rewrite Hc]; reflexivity.
  - cbn [comma_free] in *. rewrite Hc, IH. reflexivity.
Qed.

Lemma strip_comma_free (s : string) : comma_free s = true -> comma_free (strip s) = true.
Proof. intro H. apply rstrip_comma_free, lstrip_comma_free, H. Qed.

Lemma split_comma_free (s : string) :
  Forall (fun e => comma_free e = true) (split "," s).
Proof.
  induction s as [|c s IH]; cbn [split]; [repeat constructor |].
  destruct (Ascii.eqb c ",") eqn:E; [constructor; [reflexivity | exact IH] |].
  destruct (split "," s) as [|h t].
  - repeat constructor. cbn [comma_free]. rewrite E. reflexivity.
  - inversion IH; subst. constructor; [| assumption].
    cbn [comma_free]. rewrite E. assumption.
Qed.

Lemma lower_empty (s : string) : lower s = "" -> s = "".
Proof. destruct s; [reflexivity | discriminate]. Qed.

Lemma truthy_true (s : string) : truthy s = true <-> s <> "".
Proof.
  unfold truthy. rewrite negb_true_iff. apply String.eqb_neq.
Qed.

(** The entry the lists keep for a piece of the column. *)
Lemma cleaned_is_clean (e : string) :
  comma_free e = true -> strip e <> "" -> clean_entry (lower (strip e)).
Proof.
  intros Hc Hne. unfold clean_entry. split_all.
  - intro H. apply Hne, lower_empty, H.
  - rewrite strip_lower, strip_idempotent. reflexivity.
  - apply lower_idempotent.
  - rewrite lower_comma_free. apply strip_comma_free, Hc.
Qed.

Lemma parse_list_clean (column : option string) :
  Forall clean_entry (parse_list column).
Proof.
  unfold parse_list.
  destruct (negb (truthy_opt column)); [constructor |].
  destruct column as [text |]; [| constructor].
  apply Forall_forall. intros x Hx.
  apply in_map_iff in Hx. destruct Hx as (e & <- & He).
  apply filter_In in He. destruct He as [He Htruthy].
  apply cleaned_is_clean.
  - exact (proj1 (Forall_forall _ _) (split_comma_free text) e He).
  - apply truthy_true, Htruthy.
Qed.

(** X19. Whatever the column holds, [get_whitelist] and [get_blacklist]
    return entries that are not empty, carry no white space at either end,
    are in lower case and hold no comma. *)
Theorem parsed_entries_are_clean (c : AgentConfig) :
  Forall clean_entry (get_whitelist c) /\ Forall clean_entry (get_blacklist c).
Proof. split; apply parse_list_clean. Qed.

Lemma split_free (x : string) : comma_free x = true -> split "," x = [x].
Proof.
  induction x as [|c x IH]; cbn [split comma_free]; [reflexivity |].
  intro H. apply andb_true_iff in H. destruct H as [Hc Hx].
  apply negb_true_iff in Hc. rewrite Hc, (IH Hx). reflexivity.
Qed.

Lemma split_at_comma (x rest : string) :
  comma_free x = true ->
  split "," (x ++ String "," rest) = x :: split "," rest.
Proof.
  induction x as [|c x IH]; cbn [split comma_free append]; [reflexivity |].
  intro H. apply andb_true_iff in H. destruct H as [Hc Hx].
  apply negb_true_iff in Hc. rewrite Hc, (IH Hx). reflexivity.
Qed.

Lemma split_join (l : list string) :
  Forall (fun e => comma_free e = true) l -> l <> [] ->
  split "," (ConfigApi.join "," l) = l.
Proof.
  induction l as [|x l IH]; intros Hall Hne; [congruence |].
  inversion Hall as [|? ? Hx Hl]; subst.
  destruct l as [|y l].
  - apply split_free, Hx.
  - change (ConfigApi.join "," (x :: y :: l))
      with (x ++ String "," (ConfigApi.join "," (y :: l))).
    rewrite (split_at_comma _ _ Hx), IH; [reflexivity | exact Hl | discriminate].
Qed.

Lemma parse_join (l : list string) :
  Forall clean_entry l -> parse_list (Some (ConfigApi.join "," l)) = l.
Proof.
  intro Hclean. destruct l as [|x l]; [reflexivity |].
  assert (Hfree : Forall (fun e => comma_free e = true) (x :: l)).
  { eapply Forall_impl; [| exact Hclean]. intros e He. apply He. }
  assert (Hne : ConfigApi.join "," (x :: l) <> "").
  { inversion Hclean as [|? ? (Hx & _) _]; subst.
    cbn [ConfigApi.join]. destruct l; [exact Hx |].
    destruct x; [congruence | discriminate]. }
  unfold parse_list. cbn [truthy_opt].
  rewrite (proj2 (truthy_true _) Hne). cbn [negb].
  rewrite split_join; [| exact Hfree | discriminate].
  clear Hne Hfree. induction Hclean as [|e l' (He & Hs & Hl & _) _ IH];
    [reflexivity |].
  cbn [filter map]. rewrite Hs, (proj2 (truthy_true _) He). cbn [map].
  rewrite Hs, Hl. f_equal. exact IH.
Qed.

(** X20. Round trip of the stored form: a list of clean entries, joined
    by commas as the list routes store it, parses back to itself. *)
Theorem parse_join_round_trip (l : list string) :
  Forall clean_entry l -> parse_list (Some (ConfigApi.join "," l)) = l.
Proof. apply parse_join. Qed.

Lemma parse_join_round_trip_witness :
  parse_list (Some (ConfigApi.join "," ["vip@partner.com"; "example.org"]))
  = ["vip@partner.com"; "example.org"].
Proof.
  apply parse_join_round_trip.
  repeat constructor; try discriminate; reflexivity.
Defined.






Lemma remove_first_clean (x : string) (l : list string) :
  Forall clean_entry l -> Forall clean_entry (ConfigApi.remove_first x l).
Proof.
  induction 1 as [|y l Hy Hl IH]; cbn [ConfigApi.remove_first]; [constructor |].
  destruct (y =? x); [exact Hl | constructor; assumption].
Qed.

Lemma current_config_ensured (w : World) :
  current_config (session (ensure_config w)) = current_config (session w).
Proof.
  unfold ensure_config, current_config.
  destruct (config (session w)) eqn:E; [rewrite E |]; reflexivity.
Qed.

Lemma current_config_committed (w : World) :
  current_config (store (ensure_config (closed w))) = current_config (store w).
Proof.
  unfold ensure_config, current_config, closed. cbn [session store].
  destruct (config (store w)) eqn:E; cbn [store]; [rewrite E |]; reflexivity.
Qed.



(** X22. [DELETE /whitelist/{email}]: the route answers, and the stored
    column afterwards parses to, the former list without the first
    occurrence of the cleaned address (so an entry stored twice is still
    listed once); a cleaned address that is not listed leaves the list as
    it was. *)
Theorem remove_from_whitelist_result (email : string) (w : World) :
  let before := get_whitelist (current_config (store w)) in
  let x := lower (strip email) in
  let expected := if mem x before then ConfigApi.remove_first x before else before in
  let run := route (ConfigApi.remove_from_whitelist email) w in
  fst run = Return expected
  /\ get_whitelist (current_config (store (snd run))) = expected.
Proof.
  intros before x expected run. unfold run. rewrite route_run.
  unfold ConfigApi.remove_from_whitelist.
  change (mkWorld (store w) (store w) (trace w) (agent w)) with (closed w).
  rewrite (bind_returned _ _ _ _ _ (get_config_run (closed w))).
  cbv zeta. cbn [session closed]. fold before. fold x.
  unfold expected. destruct (mem x before).
  - unfold bind, update_session, commit, ret. cbn [fst snd store session].
    split; [reflexivity |].
    change (get_whitelist (current_config (set_config ?c ?db)))
      with (get_whitelist c).
    apply parse_join, remove_first_clean.
    apply parse_list_clean.
  - unfold ret. cbn [fst snd store].
    split; [reflexivity |].
    change (mkWorld (store w) (store w) (trace w) (agent w)) with (closed w).
    rewrite current_config_committed. reflexivity.
Qed.






(* ------------------------------------------------------------------ *)
(** ** Reading the body of a message *)

Lemma contains_char_cons (c d : ascii) (s : string) :
  contains (String c "") (String d s)
  = (Ascii.eqb c d || contains (String c "") s).
Proof.
  cbn [contains prefix].
  destruct (ascii_dec c d) as [-> | Hne].
  - rewrite Ascii.eqb_refl. destruct s; reflexivity.
  - apply Ascii.eqb_neq in Hne. rewrite Hne. reflexivity.
Qed.

Lemma replace_cr_clears (text : string) :
  contains (String GmailMessages.CR "") (GmailMessages.replace_cr text) = false.
Proof.
  induction text as [|c text IH]; [reflexivity |].
  cbn [GmailMessages.replace_cr]. rewrite contains_char_cons, IH, orb_false_r.
  destruct (Ascii.eqb c GmailMessages.CR) eqn:E; [reflexivity |].
  rewrite Ascii.eqb_sym. exact E.
Qed.

Lemma replace_cr_without (text : string) :
  contains (String GmailMessages.CR "") text = false ->
  GmailMessages.replace_cr text = text.
Proof.
  induction text as [|c text IH]; [reflexivity |].
  rewrite contains_char_cons. intro H. apply orb_false_iff in H. destruct H as [Hc Ht].
  cbn [GmailMessages.replace_cr]. rewrite Ascii.eqb_sym, Hc, (IH Ht). reflexivity.
Qed.

Lemma replace_crlf_without (text : string) :
  contains (String GmailMessages.CR "") text = false ->
  GmailMessages.replace_crlf text = text.
Proof.
  assert (H : forall n text, String.length text <= n ->
              contains (String GmailMessages.CR "") text = false ->
              GmailMessages.replace_crlf text = text).
  { clear text. induction n as [|n IH]; intros text Hlen Hno.
    - destruct text; [reflexivity | cbn in Hlen; lia].
    - destruct text as [|c [|d rest]]; [reflexivity | reflexivity |].
      rewrite contains_char_cons in Hno. apply orb_false_iff in Hno.
      destruct Hno as [Hc Hrest].
      change (GmailMessages.replace_crlf (String c (String d rest)))
        with (if Ascii.eqb c GmailMessages.CR && Ascii.eqb d GmailMessages.LF
              then String GmailMessages.LF (GmailMessages.replace_crlf rest)
              else String c (GmailMessages.replace_crlf (String d rest))).
      rewrite Ascii.eqb_sym, Hc. cbn [andb].
      f_equal. apply IH; [cbn in Hlen |- *; lia | exact Hrest]. }
  apply (H (String.length text)). lia.
Qed.

(** X24. What [_decode_body] returns holds no carriage return: every
    CR LF pair and every lone CR of the decoded text has become one LF;
    a decoded text without carriage returns comes back unchanged; and a
    decoding error is raised as it is. *)
Theorem decode_body_normalises_newlines
    (b64decode_utf8 : string -> exn + string) (data : string) :
  match b64decode_utf8 data with
  | inl e => GmailMessages._decode_body b64decode_utf8 data = inl e
  | inr text =>
      exists body,
        GmailMessages._decode_body b64decode_utf8 data = inr body
        /\ contains (String GmailMessages.CR "") body = false
        /\ (contains (String GmailMessages.CR "") text = false -> body = text)
  end.
Proof.
  unfold GmailMessages._decode_body.
  destruct (b64decode_utf8 data) as [e | text]; [reflexivity |].
  eexists. split_all; [reflexivity | apply replace_cr_clears |].
  intro Hno. rewrite (replace_crlf_without _ Hno). apply replace_cr_without, Hno.
Qed.

Lemma first_of_type_skips (mime : string) (before after : list GmailMessages.Part)
    (data : string) :
  (forall p, In p before ->
             GmailMessages.mimeType p <> Some mime \/ GmailMessages.part_data p = None) ->
  GmailMessages.first_of_type mime
    (before ++ GmailMessages.mkPart (Some mime) (Some data) :: after)
  = Some data.
Proof.
  induction before as [|p before IH]; intro Hskip; cbn [app GmailMessages.first_of_type].
  - cbn. rewrite String.eqb_refl. reflexivity.
  - assert (IH' := IH (fun q Hq => Hskip q (or_intror Hq))).
    destruct (Hskip p (or_introl eq_refl)) as [Hm | Hd].
    + destruct (GmailMessages.mimeType p) as [m |]; [| exact IH'].
      destruct (GmailMessages.part_data p); [| exact IH'].
      destruct (String.eqb_spec m mime); [congruence | exact IH'].
    + rewrite Hd. destruct (GmailMessages.mimeType p); exact IH'.
Qed.

(** X25. Which body [_get_body] reads. Data on the payload itself wins
    over any part. Without it, the first [text/plain] part that carries
    data is read, also when [text/html] parts (or [text/plain] parts
    without data) come before it. And a payload with neither answers
    [Could not extract body]; it does not raise. *)
Theorem get_body_choice
    (b64decode_utf8 : string -> exn + string) :
  (forall data l,
     GmailMessages._get_body b64decode_utf8 (GmailMessages.mkPayload (Some data) l)
     = GmailMessages._decode_body b64decode_utf8 data)
  /\ (forall before after data,
        (forall p, In p before ->
           GmailMessages.mimeType p <> Some "text/plain"
           \/ GmailMessages.part_data p = None) ->
        GmailMessages._get_body b64decode_utf8
          (GmailMessages.mkPayload None
             (Some (before
                    ++ GmailMessages.mkPart (Some "text/plain") (Some data) :: after)%list))
        = GmailMessages._decode_body b64decode_utf8 data)
  /\ (forall l,
        (forall p, In p l -> GmailMessages.part_data p = None) ->
        GmailMessages._get_body b64decode_utf8 (GmailMessages.mkPayload None (Some l))
        = inr "Could not extract body")
  /\ GmailMessages._get_body b64decode_utf8 (GmailMessages.mkPayload None None)
     = inr "Could not extract body".
Proof.
  split_all.
  - reflexivity.
  - intros before after data Hskip. unfold GmailMessages._get_body.
    cbn [GmailMessages.body_data GmailMessages.parts].
    rewrite (first_of_type_skips "text/plain" before after data Hskip). reflexivity.
  - intros l Hnone.
    assert (H : forall mime, GmailMessages.first_of_type mime l = None).
    { intro mime. induction l as [|p l IH]; [reflexivity |].
      cbn [GmailMessages.first_of_type].
      rewrite (Hnone p (or_introl eq_refl)).
      destruct (GmailMessages.mimeType p); apply IH;
        intros q Hq; apply Hnone; right; exact Hq. }
    unfold GmailMessages._get_body.
    cbn [GmailMessages.body_data GmailMessages.parts]. rewrite !H. reflexivity.
  - reflexivity.
Qed.

(* ------------------------------------------------------------------ *)
(** ** Processing one message *)

Lemma decide_action_tables
    (cl : GmailClient) (pe : ParsedEmail) (c : string) (w : World) :
  let w' := snd (Agent.decide_action cl pe c w) in
  session w' = session (ensure_config w) /\ agent w' = agent w.
Proof.
  unfold Agent.decide_action. cbv zeta.
  rewrite (bind_returned _ _ _ _ _ (get_config_run w)).
  assert (Hag : agent (ensure_config w) = agent w).
  { unfold ensure_config. destruct (config (session w)); reflexivity. }
  rewrite <- Hag. generalize (ensure_config w) as x. intro x.
  repeat match goal with
         | |- context [if ?b then _ else _] => destruct b
         end; try (split; reflexivity).
  unfold bind, call, ret.
  destruct (generate_smart_reply cl (trace x) pe); split; reflexivity.
Qed.

(** X26. The triage of one new message that goes well. When the message
    is fetched and classified, its id is not stored yet and the policy
    returns a decision, [process_email] returns having committed the
    message, unprocessed and with its label, and exactly one more action:
    [pending], for this message, of the decided kind, with the decision's
    message as suggestion and its reason; nothing else in the actions
    table moves, and the id is remembered as seen. *)
Theorem process_email_records_decision
    (cl : GmailClient) (email_id : string) (w : World)
    (pe : ParsedEmail) (c : string) (d : Agent.ActionDict) :
  get_message cl (trace w) email_id = inr pe ->
  classify_email cl (trace w ++ [EvGetMessage email_id]) pe = inr c ->
  query_email (pe_id pe) (session w) = None ->
  let stored :=
    mkEmail (pe_id pe) (pe_threadId pe) (pe_from pe) (pe_name pe) (pe_from_raw pe)
            (match pe_to pe with Some t => t | None => "" end)
            (pe_subject pe) (pe_snippet pe) (pe_body pe) c false in
  let db1 := insert_email stored (session w) in
  let w1 := mkWorld db1 db1
                    ((trace w ++ [EvGetMessage email_id]) ++ [EvClassifyEmail pe])
                    (agent w) in
  fst (Agent.decide_action cl pe c w1) = Return d ->
  let run := Agent.process_email false cl email_id w in
  fst run = Return tt
  /\ query_email (pe_id pe) (store (snd run)) = Some stored
  /\ actions (store (snd run))
     = (actions (session w)
        ++ [mkAction (next_action_id (session w)) (pe_id pe) (Agent.d_type d)
                     "pending" (Agent.d_message d) None (Some (Agent.d_reason d))])%list
  /\ mem email_id (seen_emails (agent (snd run))) = true.
Proof.
  intros Hget Hclass Hnew stored db1 w1 Hdecide run.
  destruct (Agent.decide_action cl pe c w1) as [r w2] eqn:Hd.
  cbn [fst] in Hdecide. subst r.
  pose proof (decide_action_tables cl pe c w1) as [Hses Hag].
  rewrite Hd in Hses, Hag. cbn [snd] in Hses, Hag.
  assert (Hrows : emails (session w2) = emails db1
                  /\ actions (session w2) = actions db1
                  /\ next_action_id (session w2) = next_action_id db1).
  { rewrite Hses. unfold ensure_config.
    destruct (config (session w1)); split_all; reflexivity. }
  destruct Hrows as (Hem & Hact & Hnext).
  set (db3 := insert_action (pe_id pe) (Agent.d_type d) "pending" (Agent.d_message d)
                            (Some (Agent.d_reason d)) (session w2)).
  assert (Hrun : run =
            (Return tt,
             mkWorld db3 db3 (trace w2)
                     (mkAgent (if mem email_id (seen_emails (agent w2))
                               then seen_emails (agent w2)
                               else email_id :: seen_emails (agent w2))
                              (running (agent w2))))).
  { unfold run, Agent.process_email. cbv iota.
    rewrite (bind_returned _ _ _ _ _ (call_returned _ _ w pe Hget)).
    erewrite bind_returned; [| apply call_returned; exact Hclass].
    cbn [negb]. cbv iota.
    erewrite bind_returned with (a := tt) (w' := w1).
    2:{ rewrite bind_get_session. cbn [session]. rewrite Hnew. reflexivity. }
    rewrite (bind_returned _ _ _ _ _ Hd).
    reflexivity. }
  rewrite Hrun. cbn [fst snd store agent]. split_all.
  - reflexivity.
  - unfold query_email, db3. cbn [insert_action emails]. rewrite Hem.
    apply (query_email_insert_new stored (session w)). exact Hnew.
  - unfold db3. cbn [insert_action actions]. rewrite Hact, Hnext. reflexivity.
  - cbn [seen_emails]. destruct (mem email_id (seen_emails (agent w2))) eqn:E;
      [exact E |].
    unfold mem. cbn [existsb]. rewrite String.eqb_refl. reflexivity.
Qed.

Lemma process_email_records_decision_witness :
  let cl := mkClient (fun _ _ _ => inr ["m1"])
                     (fun _ id => inr (Samples.message_from "ads@deals.com"))
                     (fun _ _ => inr "spam")
                     (fun _ _ => inr "ok")
                     (fun _ _ _ _ _ => inr None) (fun _ _ => inr tt)
                     (fun _ _ => inr tt) in
  let w := Samples.world_of
             (mkDB [] [] (Some (Samples.config_with "partner.com" "noreply@" false)) 1) in
  let run := Agent.process_email false cl "m1" w in
  fst run = Return tt
  /\ option_map classification (query_email "m1" (store (snd run))) = Some "spam"
  /\ actions (store (snd run))
     = [mkAction 1 "m1" "archive" "pending" None None (Some "Classified as spam")]
  /\ mem "m1" (seen_emails (agent (snd run))) = true.
Proof.
  intros cl w run.
  destruct (process_email_records_decision cl "m1" w
              (Samples.message_from "ads@deals.com") "spam"
              (Agent.mkDict "archive" None "Classified as spam")
              eq_refl eq_refl eq_refl eq_refl)
    as (H1 & H2 & H3 & H4).
  split; [exact H1 | split; [| split; [exact H3 | exact H4]]].
  exact (f_equal (option_map classification) H2).
Defined.

(* ------------------------------------------------------------------ *)
(** ** The tables stay well-formed *)

Lemma wf_save_action (a : Action) (db : DB) :
  well_formed db -> well_formed (save_action a db).
Proof.
  intros (Hnd & Hlt & Hem). unfold well_formed, save_action, set_actions.
  cbn [actions emails next_action_id]. split_all; [| | exact Hem].
  - replace (map a_id (map (fun x => if Nat.eqb (a_id x) (a_id a) then a else x)
                           (actions db)))
      with (map a_id (actions db)); [exact Hnd |].
    rewrite map_map. apply map_ext. intro x.
    destruct (Nat.eqb_spec (a_id x) (a_id a)); congruence.
  - apply Forall_map. eapply Forall_impl; [| exact Hlt]. intros x Hx. cbn beta.
    destruct (Nat.eqb_spec (a_id x) (a_id a)) as [E | _]; [rewrite <- E |]; exact Hx.
Qed.

Lemma wf_save_email (e : Email) (db : DB) :
  well_formed db -> well_formed (save_email e db).
Proof.
  intros (Hnd & Hlt & Hem). unfold well_formed, save_email, set_emails.
  cbn [actions emails next_action_id]. split_all; auto.
  replace (map e_id (map (fun x => if e_id x =? e_id e then e else x) (emails db)))
    with (map e_id (emails db)); [exact Hem |].
  rewrite map_map. apply map_ext. intro x.
  destruct (String.eqb_spec (e_id x) (e_id e)); congruence.
Qed.

Lemma wf_insert_action
    (eid ty st : string) (sugg why : option string) (db : DB) :
  well_formed db -> well_formed (insert_action eid ty st sugg why db).
Proof.
  intros (Hnd & Hlt & Hem). unfold well_formed, insert_action.
  cbn [actions emails next_action_id]. split_all; [| | exact Hem].
  - rewrite map_app. cbn [map a_id].
    apply NoDup_app; [exact Hnd | repeat constructor; intros [] |].
    intros id Hin [<- | []]. apply in_map_iff in Hin.
    destruct Hin as (x & Hx & Hin).
    pose proof (proj1 (Forall_forall _ _) Hlt x Hin) as H. cbn beta in H. lia.
  - apply Forall_app. split.
    + eapply Forall_impl; [| exact Hlt]. intros x Hx. cbn beta in *. lia.
    + repeat constructor.
Qed.

Lemma wf_set_config (c : AgentConfig) (db : DB) :
  well_formed db -> well_formed (set_config c db).
Proof. intro H. exact H. Qed.

Lemma wf_mark_failed (id : nat) (db : DB) :
  well_formed db -> well_formed (BulkApi.mark_failed id db).
Proof.
  intro H. unfold BulkApi.mark_failed.
  destruct (query_action id db); [apply wf_save_action |]; exact H.
Qed.

Lemma wf_remove_action (id : nat) (db : DB) :
  well_formed db -> well_formed (ActionRoutes.remove_action id db).
Proof.
  intros (Hnd & Hlt & Hem). unfold well_formed, ActionRoutes.remove_action, set_actions.
  cbn [actions emails next_action_id]. split_all; [| | exact Hem].
  - apply distinct_keys_kept, Hnd.
  - apply Forall_forall. intros x Hx. apply filter_In in Hx.
    exact (proj1 (Forall_forall _ _) Hlt x (proj1 Hx)).
Qed.

Lemma wf_insert_email (e : Email) (db : DB) :
  query_email (e_id e) db = None ->
  well_formed db -> well_formed (insert_email e db).
Proof.
  intros Hnew (Hnd & Hlt & Hem). unfold well_formed, insert_email, set_emails.
  cbn [actions emails next_action_id]. split_all; auto.
  rewrite map_app. cbn [map].
  apply NoDup_app; [exact Hem | repeat constructor; intros [] |].
  intros id Hin [<- | []]. apply in_map_iff in Hin.
  destruct Hin as (x & Hx & Hin).
  unfold query_email in Hnew. apply (find_none _ _ Hnew) in Hin.
  rewrite Hx, String.eqb_refl in Hin. discriminate.
Qed.

(** A message row is added only behind a look-up that found none. *)
Lemma tables_kept_guarded_insert {A}
    (id : string) (e : Email) (taken : M A) (k : unit -> M A) :
  e_id e = id ->
  preserves (on_tables well_formed) taken ->
  (forall u, preserves (on_tables well_formed) (k u)) ->
  preserves (on_tables well_formed)
    (bind get_session
       (fun db => match query_email id db with
                  | Some _ => taken
                  | None => bind (update_session (insert_email e)) k
                  end)).
Proof.
  intros <- Htaken Hk w Hw. rewrite bind_get_session.
  destruct (query_email (e_id e) (session w)) eqn:Hq; [apply Htaken, Hw |].
  unfold bind, update_session. apply Hk.
  destruct Hw as [H1 H2]. split; [exact H1 |]. cbn [session].
  apply wf_insert_email; assumption.
Qed.

Lemma tables_kept_emit (P : DB -> Prop) (ev : Event) :
  preserves (on_tables P) (emit ev).
Proof. intros w H. exact H. Qed.

Ltac wf_update :=
  let db := fresh "db" in
  let H := fresh "H" in
  intros db H;
  first [ apply wf_save_action | apply wf_save_email | apply wf_insert_action
        | apply wf_set_config | apply wf_mark_failed | apply wf_remove_action ];
  exact H.

Ltac wf_all :=
  repeat first
    [ apply tables_kept_guarded_insert; [reflexivity | | intro]
    | apply tables_kept_emit
    | keep_step ltac:(tables_leaf wf_update) ].

Lemma route_keeps_store {A} (P : DB -> Prop) (handler : M A) :
  preserves (on_tables P) handler ->
  preserves (fun w => P (store w)) (route handler).
Proof.
  intros H w Hw. rewrite route_run.
  specialize (H (closed w) (conj Hw Hw)).
  destruct (handler _) as [r w1]. cbn [snd store] in *. apply H.
Qed.

Lemma wf_archive_in_gmail (cl : GmailClient) (who : string) (l : list Email) :
  forall n failed,
    preserves (on_tables well_formed) (BulkApi.archive_in_gmail cl who l n failed).
Proof.
  induction l as [|email l IH]; intros n failed; cbn [BulkApi.archive_in_gmail].
  - apply preserves_ret.
  - apply preserves_bind; [wf_all | intro r; apply IH].
Qed.

Lemma wf_execute_all (cl : GmailClient) (l : list Action) :
  forall n failed,
    preserves (on_tables well_formed) (BulkApi.execute_all cl l n failed).
Proof.
  induction l as [|a l IH]; intros n failed; cbn [BulkApi.execute_all].
  - apply preserves_ret.
  - apply preserves_bind; [| intro r; apply IH].
    unfold BulkApi.execute_one. wf_all.
Qed.

Lemma wf_serve (action_client bulk_client : GmailClient) (r : App.Request) :
  preserves (fun w => well_formed (store w)) (App.serve action_client bulk_client r).
Proof.
  assert (Hrespond : forall A (h : M A),
            preserves (on_tables well_formed) h ->
            preserves (fun w => well_formed (store w)) (App.respond h)).
  { intros A h Hh. unfold App.respond.
    apply preserves_try_except; [| intro; apply preserves_ret].
    apply preserves_bind; [apply route_keeps_store, Hh | intro; apply preserves_ret]. }
  destruct r; cbn [App.serve].
  - apply Hrespond. unfold App.update_config, Agent.get_config. wf_all.
  - apply Hrespond.
    unfold ActionApi.approve_action, ActionApi.dispatch_approved. wf_all.
  - apply Hrespond. unfold BulkApi.bulk_archive_sender.
    apply preserves_bind; [apply preserves_get_session | intro db]. cbv zeta.
    destruct (filter _ (emails db)); [apply preserves_ret |].
    destruct (BulkApi.execute_in_gmail r).
    + apply preserves_bind; [apply wf_archive_in_gmail | intro]. wf_all.
    + wf_all.
  - apply Hrespond. unfold BulkApi.execute_pending_actions.
    apply preserves_bind; [apply preserves_get_session | intro db]. cbv zeta.
    match goal with |- preserves _ (match ?l with _ => _ end) => destruct l end;
      [apply preserves_ret |].
    apply preserves_bind; [apply wf_execute_all | intro]. wf_all.
  - unfold Agent.stop, Agent.set_agent, Agent.get_agent.
    intros w Hw. unfold bind. cbn. destruct (running (agent w)); exact Hw.
Qed.

Lemma wf_iteration (demo : bool) (cl : GmailClient) (check_interval : Z) :
  preserves (fun w => well_formed (store w)) (Agent.iteration demo cl check_interval).
Proof.
  assert (H : preserves (on_tables well_formed)
                        (Agent.iteration demo cl check_interval)).
  { unfold Agent.iteration, Agent.check_for_new_emails, Agent.process_email,
      Agent.decide_action, Agent.get_config, Agent.sleep, close_session.
    wf_all. }
  intros w Hw.
  change (Agent.iteration demo cl check_interval w)
    with (Agent.iteration demo cl check_interval (closed w)).
  apply (H (closed w)). split; exact Hw.
Qed.

(** X27. The tables stay well-formed. Starting from tables in which
    action ids are distinct and below the serial and message ids are
    distinct, they are so again after any request served, after any round
    of the loop and so after any run of the loop with requests in between,
    and after the creation or deletion of an action and any change of the
    sender lists. *)
Theorem tables_stay_well_formed :
  (forall action_client bulk_client r,
     keeps_tables (App.serve action_client bulk_client r))
  /\ (forall demo cl check_interval,
        keeps_tables (Agent.iteration demo cl check_interval))
  /\ (forall demo agent_client action_client bulk_client check_interval schedule,
        keeps_tables (App.run_loop demo agent_client action_client bulk_client
                                   check_interval schedule))
  /\ (forall fk act, keeps_tables (route (ActionRoutes.create_action fk act)))
  /\ (forall id, keeps_tables (route (ActionRoutes.delete_action id)))
  /\ (forall data, keeps_tables (route (ConfigApi.add_to_whitelist data)))
  /\ (forall data, keeps_tables (route (ConfigApi.add_to_blacklist data)))
  /\ (forall email, keeps_tables (route (ConfigApi.remove_from_whitelist email)))
  /\ (forall email, keeps_tables (route (ConfigApi.remove_from_blacklist email))).
Proof.
  unfold keeps_tables. split_all.
  - apply wf_serve.
  - apply wf_iteration.
  - intros demo agent_client action_client bulk_client check_interval schedule.
    unfold App.run_loop.
    apply preserves_bind; [apply preserves_get_agent | intro ag].
    apply preserves_bind; [intros w Hw; exact Hw | intros _].
    induction schedule as [|arriving later IH]; cbn [App.rounds].
    + apply preserves_ret.
    + apply preserves_bind; [apply preserves_get_agent | intro ag'].
      destruct (running ag'); [| apply preserves_ret].
      apply preserves_bind; [apply wf_iteration | intros _].
      apply preserves_bind; [| intros _; exact IH].
      apply preserves_for_each. intro r. apply wf_serve.
  - intros fk act. apply route_keeps_store.
    unfold ActionRoutes.create_action. wf_all.
  - intro id. apply route_keeps_store.
    unfold ActionRoutes.delete_action. wf_all.
  - intro data. apply route_keeps_store.
    unfold ConfigApi.add_to_whitelist, Agent.get_config. wf_all.
  - intro data. apply route_keeps_store.
    unfold ConfigApi.add_to_blacklist, Agent.get_config. wf_all.
  - intro email. apply route_keeps_store.
    unfold ConfigApi.remove_from_whitelist, Agent.get_config. wf_all.
  - intro email. apply route_keeps_store.
    unfold ConfigApi.remove_from_blacklist, Agent.get_config. wf_all.
Qed.
